(** * strawberryfields/plot.py: chart builders for Plot.ly

    A shallow embedding of [generate_wigner_chart], [generate_fock_chart],
    the lazy importer [_get_plotly] and the two plotting functions
    [plot_wigner] and [plot_fock], with the properties of the chart
    specification stated and proved over it.

    Modelling conventions.
    - Python dicts and lists are mutable objects with identity: they live
      in a store ([heap]) and are referred to through [VRef].  Dict items
      keep insertion order; assignment to an existing key replaces the
      value in place, assignment to a new key appends the item.
    - A Python float is a binary64 number, given by its exact rational
      value ([Q], in reduced form).  Every arithmetic operation rounds its
      exact result to the nearest binary64 number, ties to even ([b64]);
      a decimal literal denotes the binary64 number nearest to it.
      [b64_nearest] shows that [b64] is the rounding of IEEE 754, stated
      on its own as [nearest64].  The numbers this module computes lie
      between -2 and 2: infinities, NaN and the sign of zero are outside
      the model.  [np_pi] is the exact value of the double [numpy.pi].
      The numbers the module is given are passed on unchanged; what is
      proved of them holds for every rational, the binary64 numbers among
      them.
    - numpy arrays are only read by this module; they are passed as plain
      lists and [tolist] allocates a fresh Python list for them.
    - A Python exception is the [Raise] outcome of a computation; the store
      keeps the writes made before the exception was raised. *)

From Stdlib Require Import ZArith QArith Qabs Qround Qpower String Ascii List.
From Stdlib Require Import Lia Lqa.
From stdpp Require Import base list strings sorting pretty.

Open Scope string_scope.
Open Scope list_scope.
Open Scope Z_scope.

(** ** Values, objects and the store *)

Abbreviation loc := nat (only parsing).

Inductive value : Type :=
| VNone
| VBool (b : bool)
| VInt (z : Z)
| VFloat (q : Q)
| VStr (s : string)
| VRef (l : loc).

Inductive obj : Type :=
| ODict (d : list (string * value))
| OList (xs : list value).

Abbreviation heap := (list obj) (only parsing).

Inductive exn : Type :=
| KeyError
| IndexError
| TypeError
| AttributeError
| ZeroDivisionError
| RecursionError
| SystemError.

Inductive result (A : Type) : Type :=
| Ok (a : A)
| Raise (e : exn).
Arguments Ok {A} a.
Arguments Raise {A} e.

(** Computations that read and write the store and may raise. *)
Definition M (A : Type) : Type := heap -> result A * heap.

Definition ret {A} (a : A) : M A := fun h => (Ok a, h).
Definition raise {A} (e : exn) : M A := fun h => (Raise e, h).
Definition bind {A B} (m : M A) (k : A -> M B) : M B :=
  fun h => match m h with
           | (Ok a, h') => k a h'
           | (Raise e, h') => (Raise e, h')
           end.

Declare Scope py_scope.
Delimit Scope py_scope with py.
Notation "x <- m ;; k" := (bind m (fun x => k))
  (at level 100, m at next level, right associativity) : py_scope.
Notation "m ;;; k" := (bind m (fun _ => k))
  (at level 100, right associativity) : py_scope.
Open Scope py_scope.

(** ** Dicts as insertion-ordered item lists *)

Fixpoint dict_get {V} (k : string) (d : list (string * V)) : option V :=
  match d with
  | [] => None
  | (k', v) :: d' => if String.eqb k k' then Some v else dict_get k d'
  end.

Fixpoint dict_set {V} (k : string) (v : V) (d : list (string * V))
  : list (string * V) :=
  match d with
  | [] => [(k, v)]
  | (k', v') :: d' =>
      if String.eqb k k' then (k', v) :: d' else (k', v') :: dict_set k v d'
  end.

(** ** Python subscripting *)

(** [xs[i]] for an integer [i]: negative indices count from the end. *)
Definition py_index {A} (xs : list A) (i : Z) : option A :=
  let n := Z.of_nat (length xs) in
  if (0 <=? i) && (i <? n) then xs !! Z.to_nat i
  else if (- n <=? i) && (i <? 0) then xs !! Z.to_nat (n + i)
  else None.

Definition index_or_raise {A} (xs : list A) (i : Z) : M A :=
  match py_index xs i with
  | Some x => ret x
  | None => raise IndexError
  end.

Definition alloc (o : obj) : M value :=
  fun h => (Ok (VRef (length h)), h ++ [o]).

Definition read (l : loc) : M obj :=
  fun h => match h !! l with
           | Some o => (Ok o, h)
           | None => (Raise SystemError, h)
           end.

Definition write (l : loc) (o : obj) : M unit :=
  fun h => (Ok tt, <[l := o]> h).

(** [a[k]] with a string key. *)
Definition getitem_s (a : value) (k : string) : M value :=
  match a with
  | VRef l =>
      o <- read l ;;
      match o with
      | ODict d => match dict_get k d with
                   | Some v => ret v
                   | None => raise KeyError
                   end
      | OList _ => raise TypeError
      end
  | _ => raise TypeError
  end.

Definition string_of_ascii (c : ascii) : string := String c EmptyString.

(** [a[i]] with an integer index. *)
Definition getitem_i (a : value) (i : Z) : M value :=
  match a with
  | VRef l =>
      o <- read l ;;
      match o with
      | OList xs => index_or_raise xs i
      | ODict _ => raise KeyError
      end
  | VStr s => c <- index_or_raise (list_ascii_of_string s) i ;;
              ret (VStr (string_of_ascii c))
  | _ => raise TypeError
  end.

(** [a[k] = v] with a string key. *)
Definition setitem (a : value) (k : string) (v : value) : M unit :=
  match a with
  | VRef l =>
      o <- read l ;;
      match o with
      | ODict d => write l (ODict (dict_set k v d))
      | OList _ => raise TypeError
      end
  | _ => raise TypeError
  end.

(** [a.append]: the attribute lookup, done before the argument is
    evaluated; only lists have it. *)
Definition getattr_append (a : value) : M loc :=
  match a with
  | VRef l =>
      o <- read l ;;
      match o with
      | OList _ => ret l
      | ODict _ => raise AttributeError
      end
  | _ => raise AttributeError
  end.

(** The call of the bound method: appends to the list as it is then. *)
Definition call_append (l : loc) (v : value) : M unit :=
  o <- read l ;;
  match o with
  | OList xs => write l (OList (xs ++ [v]))
  | ODict _ => raise SystemError
  end.

(** [copy.copy]: a new object with the same items for a dict or a list,
    the value itself for an immutable one. *)
Definition copy (v : value) : M value :=
  match v with
  | VRef l => o <- read l ;; alloc o
  | _ => ret v
  end.

(** ** Subscript paths *)

Inductive key : Type :=
| KStr (s : string)
| KIdx (i : Z).

(** [v[p1]...[pn]] *)
Fixpoint subscript (v : value) (path : list key) : M value :=
  match path with
  | [] => ret v
  | KStr s :: path' => x <- getitem_s v s ;; subscript x path'
  | KIdx i :: path' => x <- getitem_i v i ;; subscript x path'
  end.

(** In store [h], the expression [v[p1]...[pn]] evaluates to [w]. *)
Definition at_path (h : heap) (v : value) (path : list key) (w : value)
  : Prop :=
  subscript v path h = (Ok w, h).

(** In store [h], [v] is a list with the items [xs]. *)
Definition list_at (h : heap) (v : value) (xs : list value) : Prop :=
  exists l, v = VRef l /\ h !! l = Some (OList xs).

(** ** Numbers *)

(** Nearest integer, ties to even, of a non-negative rational. *)
Definition round_half_even (q : Q) : Z :=
  let n := Qnum q in
  let d := Zpos (Qden q) in
  let f := n / d in
  let r := n mod d in
  match 2 * r ?= d with
  | Lt => f
  | Gt => f + 1
  | Eq => if Z.even f then f else f + 1
  end.

Definition pow2 (e : Z) : Q := (2 ^ e)%Q.

(** The binary exponent of a positive rational: the [e] with
    [2^e <= q < 2^(e+1)]. *)
Definition ilog2 (q : Q) : Z :=
  let e0 := Z.log2 (Qnum q) - Z.log2 (Zpos (Qden q)) in
  if Qle_bool (pow2 e0) q then e0 else e0 - 1.

(** Rounding to binary64: the multiple of the unit in the last place that
    is nearest to [q], ties to the even multiple.  With 53 significant bits
    the unit in the last place of a number of exponent [e] is [2^(e-52)];
    it is no smaller than [2^-1074], the least positive binary64 number. *)
Definition b64 (q : Q) : Q :=
  let q := Qred q in
  if Qeq_bool q 0 then 0%Q
  else
    let a := Qabs q in
    let e := Z.max (ilog2 a - 52) (-1074) in
    let m := round_half_even (a / pow2 e) in
    let r := Qred (inject_Z m * pow2 e) in
    if Qnum q <? 0 then Qopp r else r.

(** A decimal literal, such as [0.01]. *)
Definition float_lit (q : Q) : Q := b64 q.

(** [float(z)], as in [x / z] for a float [x] and an int [z]. *)
Definition to_float (z : Z) : Q := b64 (inject_Z z).

(** [a + b], [a - b] and [a / b] on floats. *)
Definition fadd (a b : Q) : Q := b64 (a + b).
Definition fsub (a b : Q) : Q := b64 (a - b).
Definition fdiv (a b : Q) : Q := b64 (a / b).

(** True division [a / b], of two floats or of two ints: the quotient of
    two ints is rounded once, from its exact value. *)
Definition truediv (a b : Q) : M Q :=
  if Qeq_bool b 0 then raise ZeroDivisionError else ret (fdiv a b).

Definition of_int (z : Z) : Q := inject_Z z.

(** The double [numpy.pi], 0x400921FB54442D18. *)
Definition np_pi : Q := 884279719003555 # 281474976710656.

(** ** String formatting *)

Definition digit (n : Z) : ascii := pretty_N_char (Z.to_N n).

(** ["{:.3f}".format(q)]: sign, integer part, a point and three digits. *)
Definition format_3f (q : Q) : string :=
  let neg := Qnum q <? 0 in
  let m := round_half_even (Qabs q * 1000) in
  let ip := m / 1000 in
  let fp := m mod 1000 in
  (if neg then "-" else "") +:+ pretty ip +:+ "."
    +:+ String (digit (fp / 100))
         (String (digit (fp / 10 mod 10))
           (String (digit (fp mod 10)) EmptyString)).

(** ["{}".format(n)] for an int. *)
Definition format_int (n : Z) : string := pretty n.

(** ** Loops *)

(** [for idx, x in enumerate(xs)], counting from [idx]. *)
Fixpoint for_enumerate {A} (body : nat -> A -> M unit) (idx : nat)
    (xs : list A) : M unit :=
  match xs with
  | [] => ret tt
  | x :: xs' => body idx x ;;; for_enumerate body (S idx) xs'
  end.

(** [[dict() for i in range(n)]]: the items of the comprehension. *)
Fixpoint alloc_dicts (n : nat) : M (list value) :=
  match n with
  | O => ret []
  | S k => d <- alloc (ODict []) ;; ds <- alloc_dicts k ;; ret (d :: ds)
  end.

(** [sorted(modes)] on ints. *)
Definition sorted (modes : list Z) : list Z := merge_sort Z.le modes.

(** ** generate_fock_chart *)

Definition textcolor : string := "#787878".

Section FockChart.
Variable chart : value.
Variable modes : list Z.
Variable photonDists : list (list Q).
Variable mean : list Q.
Variable xlabels : value.

Definition numplots : nat := length modes.

(** [chart['data'][idx]] *)
Definition trace (idx : nat) : M value :=
  d <- getitem_s chart "data" ;; getitem_i d (Z.of_nat idx).

(** [chart['layout']['annotations']] *)
Definition annotations : M value :=
  lay <- getitem_s chart "layout" ;; getitem_s lay "annotations".

Definition dXa (idx : nat) : Q :=
  if negb (Z.of_nat idx =? 0) then float_lit (1 # 100) else 0.
Definition dXb (idx : nat) : Q :=
  if negb (Z.of_nat idx =? Z.of_nat numplots - 1) then float_lit (1 # 100)
  else 0.

(** The body of the loop over [enumerate(sorted(modes))]. *)
Definition fock_panel (idx : nat) (n : Z) : M unit :=
  t <- trace idx ;; setitem t "type" (VStr "bar") ;;;
  mk <- alloc (ODict [("color", VStr "#1f9094")]) ;;
  t <- trace idx ;; setitem t "marker" mk ;;;
  t <- trace idx ;; setitem t "x" xlabels ;;;
  row <- index_or_raise photonDists n ;;
  ys <- alloc (OList (map VFloat row)) ;;
  t <- trace idx ;; setitem t "y" ys ;;;
  Xax <- (if (Z.of_nat idx =? 0) then ret ("xaxis", "x")
          else
            anns <- annotations ;;
            app <- getattr_append anns ;;
            anns' <- annotations ;;
            prev <- getitem_i anns' (Z.of_nat idx - 1) ;;
            c <- copy prev ;;
            call_append app c ;;;
            ret ("xaxis" +:+ format_int (Z.of_nat idx + 1),
                 "x" +:+ format_int (Z.of_nat idx + 1))) ;;
  t <- trace idx ;; setitem t "xaxis" (VStr (snd Xax)) ;;;
  t <- trace idx ;; setitem t "yaxis" (VStr "y") ;;;
  t <- trace idx ;; setitem t "name" (VStr "") ;;;
  a <- truediv (of_int (Z.of_nat idx)) (of_int (Z.of_nat numplots)) ;;
  b <- truediv (of_int (Z.of_nat idx + 1)) (of_int (Z.of_nat numplots)) ;;
  dom <- alloc (OList [VFloat (fadd a (dXa idx)); VFloat (fsub b (dXb idx))]) ;;
  ax <- alloc (ODict [("type", VStr "category");
                      ("domain", dom);
                      ("title", VStr ("mode " +:+ format_int n));
                      ("fixedrange", VBool true);
                      ("gridcolor", VStr "rgba(0,0,0,0)")]) ;;
  lay <- getitem_s chart "layout" ;; setitem lay (fst Xax) ax ;;;
  m <- index_or_raise mean n ;;
  anns <- annotations ;; an <- getitem_i anns (Z.of_nat idx) ;;
  setitem an "text" (VStr ("Mean: " +:+ format_3f m)) ;;;
  a <- truediv (of_int (Z.of_nat idx)) (of_int (Z.of_nat numplots)) ;;
  w <- truediv (float_lit (1 # 2)) (to_float (Z.of_nat numplots)) ;;
  anns <- annotations ;; an <- getitem_i anns (Z.of_nat idx) ;;
  setitem an "x" (VFloat (fadd (fadd a (dXa idx)) w)).

Definition generate_fock_chart : M value :=
  ds <- alloc_dicts numplots ;;
  data <- alloc (OList ds) ;;
  setitem chart "data" data ;;;
  for_enumerate fock_panel 0 (sorted modes) ;;;
  lay <- getitem_s chart "layout" ;;
  xa <- getitem_s lay "xaxis" ;;
  setitem xa "type" (VStr "category") ;;;
  lay <- getitem_s chart "layout" ;;
  setitem lay "title" (VStr "Marginal Fock state probabilities") ;;;
  f <- alloc (ODict [("color", VStr textcolor)]) ;;
  lay <- getitem_s chart "layout" ;;
  setitem lay "font" f ;;;
  f <- alloc (ODict [("color", VStr textcolor)]) ;;
  lay <- getitem_s chart "layout" ;;
  setitem lay "font" f ;;;
  ret chart.
End FockChart.

(** The statements of generate_fock_chart after its loop, under a name. *)
Definition fock_epilogue (chart : value) : M value :=
  lay <- getitem_s chart "layout" ;;
  xa <- getitem_s lay "xaxis" ;;
  setitem xa "type" (VStr "category") ;;;
  lay <- getitem_s chart "layout" ;;
  setitem lay "title" (VStr "Marginal Fock state probabilities") ;;;
  f <- alloc (ODict [("color", VStr textcolor)]) ;;
  lay <- getitem_s chart "layout" ;;
  setitem lay "font" f ;;;
  f <- alloc (ODict [("color", VStr textcolor)]) ;;
  lay <- getitem_s chart "layout" ;;
  setitem lay "font" f ;;;
  ret chart.

(** ** Literals, [barchartDefault] and [deepcopy] *)

(** Plain nested data without sharing: what a display expression denotes
    and what an object looks like when it is read to its leaves. *)
#[warnings="-register-all"] Inductive tree : Type :=
| TNone
| TBool (b : bool)
| TInt (z : Z)
| TFloat (q : Q)
| TStr (s : string)
| TDict (items : list (string * tree))
| TList (items : list tree).

(** Evaluating a display allocates its parts, then the container. *)
Fixpoint build (t : tree) : M value :=
  match t with
  | TNone => ret VNone
  | TBool b => ret (VBool b)
  | TInt z => ret (VInt z)
  | TFloat q => ret (VFloat q)
  | TStr s => ret (VStr s)
  | TDict items =>
      d <- (fix items_go (l : list (string * tree)) : M (list (string * value)) :=
              match l with
              | [] => ret []
              | (k, t') :: l' =>
                  v <- build t' ;; r <- items_go l' ;; ret ((k, v) :: r)
              end) items ;;
      alloc (ODict (fold_left (fun acc kv => dict_set (fst kv) (snd kv) acc) d []))
  | TList items =>
      xs <- (fix list_go (l : list tree) : M (list value) :=
               match l with
               | [] => ret []
               | t' :: l' => v <- build t' ;; r <- list_go l' ;; ret (v :: r)
               end) items ;;
      alloc (OList xs)
  end.

Definition barchartDefault_lit : tree :=
  TDict [
    ("data", TList [TDict [("y", TList []); ("x", TList []);
                           ("type", TStr "bar"); ("name", TStr "q[0]")]]);
    ("layout", TDict [
       ("width", TInt 835);
       ("height", TInt 500);
       ("margin", TDict [("l", TInt 100); ("r", TInt 100); ("b", TInt 100);
                         ("t", TInt 100); ("pad", TInt 4)]);
       ("paper_bgcolor", TStr "rgba(0,0,0,0)");
       ("plot_bgcolor", TStr "rgba(0,0,0,0)");
       ("autosize", TBool true);
       ("yaxis", TDict [("gridcolor", TStr "#bbb"); ("type", TStr "linear");
                        ("autorange", TBool true);
                        ("title", TStr "Probability");
                        ("fixedrange", TBool true)]);
       ("xaxis", TDict [("gridcolor", TStr textcolor);
                        ("type", TStr "category");
                        ("autorange", TBool true);
                        ("title", TStr "q[0]");
                        ("fixedrange", TBool true)]);
       ("showlegend", TBool false);
       ("annotations", TList [TDict [
          ("showarrow", TBool false);
          ("yanchor", TStr "bottom");
          ("xref", TStr "paper");
          ("xanchor", TStr "center");
          ("yref", TStr "paper");
          ("text", TStr "");
          ("y", TInt 1);
          ("x", TInt 0);
          ("font", TDict [("size", TInt 16)])]])]);
    ("config", TDict [
       ("modeBarButtonsToRemove",
        TList [TStr "zoom2d"; TStr "lasso2d"; TStr "select2d";
               TStr "toggleSpikelines"]);
       ("displaylogo", TBool false)])].

(** The store once the module is loaded, and the global it binds. *)
Definition module_heap : heap := snd (build barchartDefault_lit []).
Definition barchartDefault : value :=
  match fst (build barchartDefault_lit []) with
  | Ok v => v
  | Raise _ => VNone
  end.

(** [copy.deepcopy] with its memo of the objects already copied: the new
    container is created and recorded first, then filled item by item.
    [fuel] bounds the recursion depth, as the interpreter's recursion limit
    does. *)
Fixpoint deepcopy_memo (fuel : nat) (memo : list (loc * loc)) (v : value)
  : M (value * list (loc * loc)) :=
  match v with
  | VRef l =>
      match list_find (fun p => fst p = l) memo with
      | Some (_, (_, l')) => ret (VRef l', memo)
      | None =>
          match fuel with
          | O => raise RecursionError
          | S fuel' =>
              o <- read l ;;
              match o with
              | ODict d =>
                  y <- alloc (ODict []) ;;
                  match y with
                  | VRef ly =>
                      memo' <- (fix items_go (its : list (string * value))
                                  (mm : list (loc * loc))
                                  : M (list (loc * loc)) :=
                                  match its with
                                  | [] => ret mm
                                  | (k, x) :: its' =>
                                      r <- deepcopy_memo fuel' mm x ;;
                                      setitem y k (fst r) ;;;
                                      items_go its' (snd r)
                                  end) d ((l, ly) :: memo) ;;
                      ret (y, memo')
                  | _ => raise SystemError
                  end
              | OList xs =>
                  y <- alloc (OList []) ;;
                  match y with
                  | VRef ly =>
                      memo' <- (fix list_go (its : list value)
                                  (mm : list (loc * loc))
                                  : M (list (loc * loc)) :=
                                  match its with
                                  | [] => ret mm
                                  | x :: its' =>
                                      r <- deepcopy_memo fuel' mm x ;;
                                      call_append ly (fst r) ;;;
                                      list_go its' (snd r)
                                  end) xs ((l, ly) :: memo) ;;
                      ret (y, memo')
                  | _ => raise SystemError
                  end
              end
          end
      end
  | _ => ret (v, memo)
  end.

Definition recursion_limit : nat := 1000.

Definition deepcopy (v : value) : M value :=
  r <- deepcopy_memo recursion_limit [] v ;; ret (fst r).

(** The chart-building lines of [plot_fock]:
    [basic_chart = deepcopy(barchartDefault)] then
    [generate_fock_chart(basic_chart, modes, photonDists, mean, xlabels)]. *)
Definition plot_fock_chart (modes : list Z) (photonDists : list (list Q))
    (mean : list Q) (xlabels : value) : M value :=
  basic_chart <- deepcopy barchartDefault ;;
  generate_fock_chart basic_chart modes photonDists mean xlabels.

(** Reading a value to its leaves; [fuel] bounds the depth. *)
Fixpoint reify (fuel : nat) (h : heap) (v : value) : option tree :=
  match v with
  | VNone => Some TNone
  | VBool b => Some (TBool b)
  | VInt z => Some (TInt z)
  | VFloat q => Some (TFloat q)
  | VStr s => Some (TStr s)
  | VRef l =>
      match fuel with
      | O => None
      | S fuel' =>
          match h !! l with
          | Some (ODict d) =>
              TDict <$> mapM (fun kv => pair (fst kv) <$> reify fuel' h (snd kv)) d
          | Some (OList xs) => TList <$> mapM (reify fuel' h) xs
          | None => None
          end
      end
  end.

(** ** generate_wigner_chart

    The chart of this function is a local object that nothing else refers
    to until it is returned, and no part of it is shared: it is threaded
    through the assignments as a [tree]. *)

Definition rbind {A B} (r : result A) (k : A -> result B) : result B :=
  match r with
  | Ok a => k a
  | Raise e => Raise e
  end.

(** [t[k]] *)
Definition tree_get (t : tree) (k : key) : result tree :=
  match t, k with
  | TDict d, KStr s => match dict_get s d with
                       | Some v => Ok v
                       | None => Raise KeyError
                       end
  | TDict _, KIdx _ => Raise KeyError
  | TList xs, KIdx i => match py_index xs i with
                        | Some v => Ok v
                        | None => Raise IndexError
                        end
  | TStr s, KIdx i => match py_index (list_ascii_of_string s) i with
                      | Some c => Ok (TStr (string_of_ascii c))
                      | None => Raise IndexError
                      end
  | _, _ => Raise TypeError
  end.

(** [t[k] = v] *)
Definition tree_set (t : tree) (k : key) (v : tree) : result tree :=
  match t, k with
  | TDict d, KStr s => Ok (TDict (dict_set s v d))
  | TList xs, KIdx i =>
      let n := Z.of_nat (length xs) in
      if (0 <=? i) && (i <? n) then Ok (TList (<[Z.to_nat i := v]> xs))
      else if (- n <=? i) && (i <? 0) then Ok (TList (<[Z.to_nat (n + i) := v]> xs))
      else Raise IndexError
  | _, _ => Raise TypeError
  end.

(** [t[p1]...[pn][k] = v]: the target is reached by subscripting, then
    assigned to. *)
Fixpoint assign (t : tree) (path : list key) (k : key) (v : tree)
  : result tree :=
  match path with
  | [] => tree_set t k v
  | p :: path' =>
      rbind (tree_get t p) (fun sub =>
      rbind (assign sub path' k v) (fun sub' =>
      tree_set t p sub'))
  end.

(** [a.tolist()] for arrays of one and two dimensions. *)
Definition tolist (a : list Q) : tree := TList (map TFloat a).
Definition tolist2 (a : list (list Q)) : tree := TList (map tolist a).

(** [a / b] on floats. *)
Definition rtruediv (a b : Q) : result Q :=
  if Qeq_bool b 0 then Raise ZeroDivisionError else Ok (fdiv a b).

Definition wigner_skeleton : tree :=
  TDict [
    ("data", TList [TDict [("type", TStr "surface");
                           ("colorscale", TList []);
                           ("x", TList []);
                           ("y", TList []);
                           ("z", TList []);
                           ("contours", TDict [("z", TDict [])])]]);
    ("layout", TDict [("scene", TDict [("xaxis", TDict []);
                                       ("yaxis", TDict []);
                                       ("zaxis", TDict [])])])].

Definition wigner_colorscale : tree :=
  TList [TList [TFloat 0; TStr "purple"];
         TList [TFloat (1 # 4); TStr "red"];
         TList [TFloat (1 # 2); TStr "yellow"];
         TList [TFloat (3 # 4); TStr "green"];
         TList [TFloat 1; TStr "blue"]].

Declare Scope res_scope.
Delimit Scope res_scope with res.
Notation "x <- m ;; k" := (rbind m (fun x => k))
  (at level 100, m at next level, right associativity) : res_scope.

Definition generate_wigner_chart (data : list (list Q)) (xvec pvec : list Q)
    (contours : bool) : result tree :=
  (let textcolor := "#787878" in
   let chart := wigner_skeleton in
   let d0 := [KStr "data"; KIdx 0] in
   let scene := [KStr "layout"; KStr "scene"] in
   chart <- assign chart d0 (KStr "type") (TStr "surface") ;;
   chart <- assign chart d0 (KStr "colorscale") wigner_colorscale ;;
   chart <- assign chart d0 (KStr "x") (tolist xvec) ;;
   chart <- assign chart d0 (KStr "y") (tolist pvec) ;;
   chart <- assign chart d0 (KStr "z") (tolist2 data) ;;
   chart <- assign chart (d0 ++ [KStr "contours"; KStr "z"]) (KStr "show")
              (TBool contours) ;;
   cmin <- rtruediv (to_float (-1)) np_pi ;;
   chart <- assign chart d0 (KStr "cmin") (TFloat cmin) ;;
   cmax <- rtruediv (to_float 1) np_pi ;;
   chart <- assign chart d0 (KStr "cmax") (TFloat cmax) ;;
   chart <- assign chart [KStr "layout"] (KStr "paper_bgcolor") (TStr "white") ;;
   chart <- assign chart [KStr "layout"] (KStr "plot_bgcolor") (TStr "white") ;;
   chart <- assign chart [KStr "layout"] (KStr "font")
              (TDict [("color", TStr textcolor)]) ;;
   chart <- assign chart scene (KStr "bgcolor") (TStr "white") ;;
   chart <- assign chart (scene ++ [KStr "xaxis"]) (KStr "title") (TStr "x") ;;
   chart <- assign chart (scene ++ [KStr "xaxis"]) (KStr "color") (TStr textcolor) ;;
   chart <- assign chart (scene ++ [KStr "yaxis"]) (KStr "title") (TStr "p") ;;
   chart <- assign chart (scene ++ [KStr "yaxis"]) (KStr "color") (TStr textcolor) ;;
   chart <- assign chart (scene ++ [KStr "yaxis"]) (KStr "gridcolor") (TStr textcolor) ;;
   chart <- assign chart (scene ++ [KStr "zaxis"]) (KStr "title") (TStr "W(x,p)") ;;
   Ok chart)%res.

(** [t[p1]...[pn]] *)
Fixpoint tree_at (t : tree) (path : list key) : result tree :=
  match path with
  | [] => Ok t
  | p :: path' => rbind (tree_get t p) (fun sub => tree_at sub path')
  end.

(** ** _get_plotly *)

Definition plotly_error : string :=
  "Plot.ly required for using this function. It can be installed using pip install "
  +:+ "plotly or visiting https://plot.ly/python/getting-started/#installation".

(** What a [raise] statement ends up raising. *)
Record raised : Type := { exc_class : string; exc_message : string }.

(** [raise v]: none of the [value]s is an exception class or instance, so
    the statement itself fails, with the interpreter's [TypeError]. *)
Definition raise_stmt (v : value) : raised :=
  {| exc_class := "TypeError";
     exc_message := "exceptions must derive from BaseException" |}.

(** [import plotly.io as pio], by whether the package is installed. *)
Definition import_plotly_io (installed : bool) : raised + string :=
  if installed then inr "plotly.io"
  else inl {| exc_class := "ModuleNotFoundError";
              exc_message := "No module named 'plotly'" |}.

Definition _get_plotly (installed : bool) : raised + string :=
  match import_plotly_io installed with
  | inr pio => inr pio
  | inl e => inl (raise_stmt (VStr plotly_error))
  end.

(** ** Outcomes of a computation *)

(** [m h] returns, with a value and a final store that satisfy [Q]. *)
Definition returns {A} (r : result A * heap) (Q : A -> heap -> Prop) : Prop :=
  match r with
  | (Ok a, h') => Q a h'
  | (Raise _, _) => False
  end.

(** [m h] raises [e]. *)
Definition raises {A} (r : result A * heap) (e : exn) : Prop :=
  match r with
  | (Ok _, _) => False
  | (Raise e', _) => e' = e
  end.

(** [m h] raises [e] and leaves a store that satisfies [Q]. *)
Definition fails {A} (r : result A * heap) (e : exn) (Q : heap -> Prop) : Prop :=
  match r with
  | (Ok _, _) => False
  | (Raise e', h') => e' = e /\ Q h'
  end.

(** ** Vocabulary for the bar chart *)

(** A template as [barchartDefault] is laid out: the chart [c] is a dict
    whose ['layout'] is a dict [lay], whose ['annotations'] is a list [ann]
    holding one seed annotation, the dict [a0]. *)
Record wf_template (h0 : heap) (c lay ann a0 : loc)
    (dc dl d0 : list (string * value)) : Prop := {
  wf_c : h0 !! c = Some (ODict dc);
  wf_layout : dict_get "layout" dc = Some (VRef lay);
  wf_lay : h0 !! lay = Some (ODict dl);
  wf_annotations : dict_get "annotations" dl = Some (VRef ann);
  wf_ann : h0 !! ann = Some (OList [VRef a0]);
  wf_a0 : h0 !! a0 = Some (ODict d0);
  wf_c_lay : c <> lay;
  wf_c_a0 : c <> a0;
  wf_lay_a0 : lay <> a0
}.

(** Every entry of [modes] is a valid index of [photonDists] and [mean]. *)
Definition modes_in_range (modes : list Z) (photonDists : list (list Q))
    (mean : list Q) : Prop :=
  forall m, In m modes ->
    py_index photonDists m <> None /\ py_index mean m <> None.

Section PanelValues.
Variable modes : list Z.
Variable photonDists : list (list Q).
Variable mean : list Q.

(** The mode shown by the panel at position [idx]. *)
Definition mode_at (idx : nat) : Z := default 0 (sorted modes !! idx).
Definition row_at (idx : nat) : list Q :=
  default [] (py_index photonDists (mode_at idx)).
Definition mean_at (idx : nat) : Q :=
  default 0%Q (py_index mean (mode_at idx)).

(** The key of the panel's x axis in the layout, and its short name. *)
Definition axname (idx : nat) : string :=
  if Z.of_nat idx =? 0 then "xaxis"
  else "xaxis" +:+ format_int (Z.of_nat idx + 1).
Definition xname (idx : nat) : string :=
  if Z.of_nat idx =? 0 then "x" else "x" +:+ format_int (Z.of_nat idx + 1).

Definition panel_lo (idx : nat) : Q :=
  fadd (fdiv (of_int (Z.of_nat idx)) (of_int (Z.of_nat (numplots modes))))
       (dXa idx).
Definition panel_hi (idx : nat) : Q :=
  fsub (fdiv (of_int (Z.of_nat idx + 1)) (of_int (Z.of_nat (numplots modes))))
       (dXb modes idx).
Definition ann_x (idx : nat) : Q :=
  fadd (panel_lo idx)
       (fdiv (float_lit (1 # 2)) (to_float (Z.of_nat (numplots modes)))).
Definition caption (idx : nat) : string := "Mean: " +:+ format_3f (mean_at idx).

Definition trace_dict (xlabels : value) (mk ys : loc) (idx : nat)
  : list (string * value) :=
  [("type", VStr "bar"); ("marker", VRef mk); ("x", xlabels);
   ("y", VRef ys); ("xaxis", VStr (xname idx)); ("yaxis", VStr "y");
   ("name", VStr "")].

Definition axis_dict (dm : loc) (idx : nat) : list (string * value) :=
  [("type", VStr "category"); ("domain", VRef dm);
   ("title", VStr ("mode " +:+ format_int (mode_at idx)));
   ("fixedrange", VBool true); ("gridcolor", VStr "rgba(0,0,0,0)")].

(** The items of annotation [idx]: those of its predecessor (of the seed
    [d0] for the first) with ['text'] and ['x'] assigned. *)
Fixpoint ann_dict (d0 : list (string * value)) (idx : nat)
  : list (string * value) :=
  dict_set "x" (VFloat (ann_x idx))
    (dict_set "text" (VStr (caption idx))
       match idx with
       | O => d0
       | S j => ann_dict d0 j
       end).
End PanelValues.

(** ** The loop invariant of generate_fock_chart *)

Section FockInvariant.
Variable h0 : heap.
Variables c lay ann a0 : loc.
Variables dc dl d0 : list (string * value).
Variable modes : list Z.
Variable photonDists : list (list Q).
Variable mean : list Q.
Variable xlabels : value.

Local Abbreviation L := (length h0).
Local Abbreviation n := (numplots modes).

(** Allocated by the loop: past the traces and the data list. *)
Definition fresh (h : heap) (l : loc) : Prop := (L + n < l < length h)%nat.

Definition axis_done (h : heap) (dl' : list (string * value)) (j : nat)
  : Prop :=
  exists ax dm,
    dict_get (axname j) dl' = Some (VRef ax) /\
    fresh h ax /\ h !! ax = Some (ODict (axis_dict modes dm j)) /\
    fresh h dm /\
    h !! dm = Some (OList [VFloat (panel_lo modes j);
                           VFloat (panel_hi modes j)]).

Definition trace_done (h : heap) (j : nat) : Prop :=
  exists mk ys,
    h !! (L + j)%nat = Some (ODict (trace_dict xlabels mk ys j)) /\
    fresh h mk /\ h !! mk = Some (ODict [("color", VStr "#1f9094")]) /\
    fresh h ys /\
    h !! ys = Some (OList (map VFloat (row_at modes photonDists j))).

Definition ann_done (h : heap) (al : list loc) (j : nat) : Prop :=
  exists a, al !! j = Some a /\
            h !! a = Some (ODict (ann_dict modes mean d0 j)).

(** The store before iteration [idx]: [dl'] are the items of the layout,
    [al] the annotation objects in order. *)
Record Inv (idx : nat) (h : heap) (dl' : list (string * value))
    (al : list loc) : Prop := {
  inv_len : (L + n < length h)%nat;
  inv_c : h !! c = Some (ODict (dict_set "data" (VRef (L + n)%nat) dc));
  inv_data : h !! (L + n)%nat = Some (OList (map VRef (seq L n)));
  inv_lay : h !! lay = Some (ODict dl');
  inv_annotations : dict_get "annotations" dl' = Some (VRef ann);
  inv_axes : forall j, (j < idx)%nat -> axis_done h dl' j;
  inv_rest : forall k, (forall j, (j < idx)%nat -> k <> axname j) ->
                       k <> "title" -> k <> "font" ->
                       dict_get k dl' = dict_get k dl;
  inv_ann : h !! ann = Some (OList (map VRef al));
  inv_al_len : length al = Nat.max 1 idx;
  inv_al_0 : al !! 0%nat = Some a0;
  inv_al_fresh : forall j a, (0 < j)%nat -> al !! j = Some a -> fresh h a;
  inv_anns : forall j, (j < idx)%nat -> ann_done h al j;
  inv_a0 : idx = 0%nat -> h !! a0 = Some (ODict d0);
  inv_todo : forall i, (idx <= i < n)%nat -> h !! (L + i)%nat = Some (ODict []);
  inv_traces : forall j, (j < idx)%nat -> trace_done h j;
  inv_frame : forall l, (l < L)%nat -> l <> c -> l <> lay -> l <> ann ->
                        l <> a0 -> h !! l = h0 !! l
}.

(** The store when generate_fock_chart returns: the invariant after the
    last panel, with the title and the font of the layout set. *)
Definition fock_final (h' : heap) (dl' : list (string * value))
    (al : list loc) : Prop :=
  Inv n h' dl' al /\
  dict_get "title" dl' = Some (VStr "Marginal Fock state probabilities") /\
  exists f, dict_get "font" dl' = Some (VRef f) /\
            h' !! f = Some (ODict [("color", VStr textcolor)]).
End FockInvariant.

(** ** Vocabulary of the specification *)

(** The gaps of the domain partition, as the specification words them. *)
Definition gap_left (idx : nat) : Q := if (idx =? 0)%nat then 0 else 1 # 100.
Definition gap_right (n idx : nat) : Q :=
  if (idx =? n - 1)%nat then 0 else 1 # 100.

(** A binary64 number: a significand of 53 bits at most, times a power of
    two that is no smaller than the least positive binary64 number. *)
Definition binary64 (r : Q) : Prop :=
  exists m e : Z,
    Z.abs m < 2 ^ 53 /\ -1074 <= e /\ (r == inject_Z m * pow2 e)%Q.

(** Rounding to nearest, ties to even, as IEEE 754 words it: [r] is a
    binary64 number, no binary64 number is nearer to [q], and if another
    one is as near, then [r] is the one with the even significand: an even
    multiple of their distance. *)
Definition nearest64 (q r : Q) : Prop :=
  binary64 r /\
  (forall r', binary64 r' -> (Qabs (r - q) <= Qabs (r' - q))%Q) /\
  (forall r', binary64 r' -> ~ (r' == r)%Q ->
     (Qabs (r' - q) == Qabs (r - q))%Q ->
     exists k : Z, (r == inject_Z (2 * k) * (r' - r))%Q).

(** The text of ["{:.3f}"]: an integer part, a point, three digits. *)
Definition is_digit (ch : ascii) : Prop :=
  exists k, 0 <= k < 10 /\ ch = digit k.

(** The store after [deepcopy(barchartDefault)], as plot_fock makes it. *)
Definition copied_heap : heap := snd (deepcopy barchartDefault module_heap).

(** The example of the specification: two modes, three labels. *)
Definition example_store : heap :=
  module_heap ++ [OList [VStr "|0>"; VStr "|1>"; VStr "|2>"]].
Definition example_labels : value := VRef 14.
Definition example_dists : list (list Q) :=
  [[6 # 10; 3 # 10; 1 # 10]; [9 # 10; 8 # 100; 2 # 100]]%Q.
Definition example_means : list Q := [1 # 2; 12 # 100]%Q.

(** The items of the dict at [l]. *)
Definition items_at (h : heap) (l : loc) : list (string * value) :=
  match h !! l with
  | Some (ODict d) => d
  | _ => []
  end.

(** The value read at a path of the chart, to its leaves. *)
Definition read_path (h : heap) (v : value) (path : list key) : option tree :=
  match subscript v path h with
  | (Ok w, _) => reify 10 h w
  | (Raise _, _) => None
  end.

(** ** The collaborators of the plotting functions

    [plot_wigner] and [plot_fock] are handed a state object and talk to
    plotly.  The state is given by the answers of the members that this
    module uses, taken to be pure and to return; a density matrix is a
    two-dimensional complex array, given by its rows.  What the functions
    do to plotly and to the standard output is recorded as a list of
    events, in order; plotly is taken to accept what it is given. *)

Record BaseState : Type := {
  cutoff_dim : Z;
  reduced_dm : Z -> Z -> list (list (Q * Q));
  wigner : Z -> list Q -> list Q -> list (list Q)
}.

Inductive printed : Type :=
| PRho (rho : list (list (list (Q * Q))))
| PDists (photonDists : list (list Q)).

Inductive event (C : Type) : Type :=
| SetRenderer (renderer : string)
| Printed (v : printed)
| Shown (chart : C).
Arguments SetRenderer {C} renderer.
Arguments Printed {C} v.
Arguments Shown {C} chart.

(** What ends a call early. *)
Inductive uncaught : Type :=
| Exn (e : exn)
| ValueError
| Raised (r : raised).

(** Computations over the store and the events. *)
Definition IO (C A : Type) : Type :=
  heap * list (event C) -> (uncaught + A) * (heap * list (event C)).

Definition io_ret {C A} (a : A) : IO C A := fun w => (inr a, w).
Definition io_bind {C A B} (m : IO C A) (k : A -> IO C B) : IO C B :=
  fun w => match m w with
           | (inr a, w') => k a w'
           | (inl e, w') => (inl e, w')
           end.
Definition emit {C} (ev : event C) : IO C unit :=
  fun w => (inr tt, (fst w, snd w ++ [ev])).
Definition in_store {C A} (m : M A) : IO C A :=
  fun w => match m (fst w) with
           | (Ok a, h') => (inr a, (h', snd w))
           | (Raise e, h') => (inl (Exn e), (h', snd w))
           end.
Definition of_result {C A} (r : result A) : IO C A :=
  fun w => match r with
           | Ok a => (inr a, w)
           | Raise e => (inl (Exn e), w)
           end.
Definition of_sum {C A} (r : uncaught + A) : IO C A := fun w => (r, w).

Declare Scope io_scope.
Delimit Scope io_scope with io.
Notation "x <- m ;; k" := (io_bind m (fun x => k))
  (at level 100, m at next level, right associativity) : io_scope.
Notation "m ;;; k" := (io_bind m (fun _ => k))
  (at level 100, right associativity) : io_scope.

(** ** numpy, as plot_fock uses it *)

(** [a * b] on floats. *)
Definition fmul (a b : Q) : Q := b64 (a * b).

(** [range(n)], and [range(0, n, 1)]. *)
Definition range (n : Z) : list Z := map Z.of_nat (seq 0 (Z.to_nat n)).

(** [np.arange(n)] for an int [n]. *)
Definition np_arange (n : Z) : list Z := range n.

(** [np.diagonal(p)]: p[0][0], p[1][1], ... as far as rows and columns go. *)
Fixpoint diagonal_from (i : nat) (p : list (list (Q * Q))) : list (Q * Q) :=
  match p with
  | [] => []
  | row :: p' => match row !! i with
                 | Some x => x :: diagonal_from (S i) p'
                 | None => []
                 end
  end.
Definition np_diagonal (p : list (list (Q * Q))) : list (Q * Q) :=
  diagonal_from 0 p.

Definition np_real (a : list (Q * Q)) : list Q := map fst a.

(** [np.array(rows)] of one-dimensional arrays: the rows have to agree in
    length. *)
Definition np_array (rows : list (list Q)) : uncaught + list (list Q) :=
  match rows with
  | [] => inr []
  | r :: rs =>
      if forallb (fun r' => (length r' =? length r)%nat) rs then inr rows
      else inl ValueError
  end.

(** [n * probs] for one-dimensional arrays, an array of length one being
    stretched to the length of the other. *)
Definition np_mul (a : list Z) (b : list Q) : uncaught + list Q :=
  if (length a =? length b)%nat
  then inr (zip_with (fun i p => fmul (to_float i) p) a b)
  else match a, b with
       | [i], _ => inr (map (fun p => fmul (to_float i) p) b)
       | _, [p] => inr (map (fun i => fmul (to_float i) p) a)
       | _, _ => inl ValueError
       end.

(** [[f(x) for x in xs]] for an [f] that may fail. *)
Fixpoint for_each {C A B} (f : A -> IO C B) (xs : list A) : IO C (list B) :=
  match xs with
  | [] => io_ret []
  | x :: xs' => (y <- f x ;; ys <- for_each f xs' ;; io_ret (y :: ys))%io
  end.

(** ** plot_wigner and plot_fock *)

Section Plotting.
Variable installed : bool.
Variable state : BaseState.

(** [np.sum] of a one-dimensional array of floats.  The order in which
    numpy adds the entries, and with it the rounding of the sum, is
    numpy's own: the function is a parameter here. *)
Variable np_sum : list Q -> Q.

Definition get_plotly {C} : IO C string :=
  match _get_plotly installed with
  | inr pio => io_ret pio
  | inl r => of_sum (inl (Raised r))
  end.

Definition plot_wigner (mode : Z) (xvec pvec : list Q)
    (renderer : option string) (contours : option bool) : IO tree unit :=
  (let renderer := default "browser" renderer in
   let contours := default true contours in
   pio <- get_plotly ;;
   emit (SetRenderer renderer) ;;;
   let data := wigner state mode xvec pvec in
   new_chart <- of_result (generate_wigner_chart data xvec pvec contours) ;;
   emit (Shown new_chart))%io.

Definition plot_fock (modes : list Z) (cutoff : option Z)
    (renderer : option string) : IO value unit :=
  (let renderer := default "browser" renderer in
   let cutoff := match cutoff with
                 | None => cutoff_dim state
                 | Some cutoff => cutoff
                 end in
   pio <- get_plotly ;;
   emit (SetRenderer renderer) ;;;
   let num_modes := Z.of_nat (length modes) in
   let rho := map (fun n => reduced_dm state n cutoff) (range num_modes) in
   emit (Printed (PRho rho)) ;;;
   photonDists <- of_sum (np_array (map (fun p => np_real (np_diagonal p)) rho)) ;;
   let n := np_arange cutoff in
   emit (Printed (PDists photonDists)) ;;;
   mean <- for_each (fun probs => prod <- of_sum (np_mul n probs) ;;
                                  io_ret (np_sum prod)) photonDists ;;
   xlabels <- in_store (alloc (OList (map (fun i => VStr ("|" +:+ format_int i +:+ ">"))
                                          (range cutoff)))) ;;
   new_chart <- in_store (plot_fock_chart modes photonDists mean xlabels) ;;
   emit (Shown new_chart))%io.
End Plotting.

(** A [d] by [d] array. *)
Definition square (d : nat) (p : list (list (Q * Q))) : Prop :=
  length p = d /\ Forall (fun row => length row = d) p.

(** The mean photon number of a distribution, as plot_fock computes it:
    [np.sum(n * probs)] with [n = np.arange(cutoff)]. *)
Definition mean_photon (np_sum : list Q -> Q) (cutoff : Z) (probs : list Q)
    : Q :=
  np_sum (zip_with (fun i p => fmul (to_float i) p) (np_arange cutoff) probs).

(** The store of [plot_fock] once the labels are there and the template
    is copied. *)
Definition fock_store (labels : list value) : heap :=
  snd (deepcopy barchartDefault (module_heap ++ [OList labels])).

(** A state for the examples: every mode in the vacuum. *)
Definition example_state : BaseState := {|
  cutoff_dim := 2;
  reduced_dm := fun _ cutoff =>
    let d := Z.to_nat cutoff in
    map (fun i => map (fun j => if ((i =? 0) && (j =? 0))%nat
                                then (1, 0)%Q else (0, 0)%Q)
                      (seq 0 d))
        (seq 0 d);
  wigner := fun _ xvec pvec => map (fun _ => map (fun _ => 0%Q) pvec) xvec
|}.

(** A sum for the examples: the entries added from left to right. *)
Definition example_np_sum (a : list Q) : Q := fold_left fadd a 0%Q.

(** * Properties *)

(** ** Examples *)

(** The rounding is to a nearest integer. *)
Lemma round_half_even_near (q : Q) :
  (Qabs (inject_Z (round_half_even q) - q) <= 1 # 2)%Q.
Proof.
  destruct q as [n d]. unfold round_half_even. cbn [Qnum Qden].
  pose proof (Z.div_mod n (Z.pos d) ltac:(lia)) as Hdm.
  pose proof (Z.mod_pos_bound n (Z.pos d) ltac:(lia)) as Hr.
  set (f := n / Z.pos d) in *. set (r := n mod Z.pos d) in *.
  apply Qabs_Qle_condition.
  destruct (Z.compare_spec (2 * r) (Z.pos d)) as [E|E|E];
    [destruct (Z.even f)|..];
    unfold Qle, Qminus, Qplus, Qopp, inject_Z; cbn [Qnum Qden];
    split; nia.
Qed.

Lemma round_half_even_nonneg (q : Q) :
  (0 <= q)%Q -> 0 <= round_half_even q.
Proof.
  destruct q as [n d]. unfold Qle, round_half_even. cbn [Qnum Qden].
  intros Hn.
  assert (0 <= n / Z.pos d) by (apply Z.div_pos; lia).
  destruct (2 * (n mod Z.pos d) ?= Z.pos d); [destruct (Z.even _)|..]; lia.
Qed.

(** On a tie the even neighbour is taken. *)
Lemma round_half_even_tie (q : Q) :
  (Qabs (inject_Z (round_half_even q) - q) == 1 # 2)%Q ->
  Z.even (round_half_even q) = true.
Proof.
  destruct q as [n d]. unfold round_half_even. cbn [Qnum Qden].
  pose proof (Z.div_mod n (Z.pos d) ltac:(lia)) as Hdm.
  pose proof (Z.mod_pos_bound n (Z.pos d) ltac:(lia)) as Hr.
  set (f := n / Z.pos d) in *. set (r := n mod Z.pos d) in *.
  destruct (Z.compare_spec (2 * r) (Z.pos d)) as [E|E|E].
  - intros _. destruct (Z.even f) eqn:Ef; [exact Ef|].
    rewrite Z.even_add, Ef. reflexivity.
  - intros H. exfalso.
    assert (Hpos : (0 <= (n # d) - inject_Z f)%Q).
    { unfold Qle, Qminus, Qplus, Qopp, inject_Z. cbn. nia. }
    assert (E1 : (inject_Z f - (n # d) == - ((n # d) - inject_Z f))%Q) by ring.
    rewrite E1, Qabs_opp, (Qabs_pos _ Hpos) in H.
    unfold Qeq, Qminus, Qplus, Qopp, inject_Z in H. cbn in H. nia.
  - intros H. exfalso.
    assert (Hpos : (0 <= inject_Z (f + 1) - (n # d))%Q).
    { unfold Qle, Qminus, Qplus, Qopp, inject_Z. cbn. nia. }
    rewrite (Qabs_pos _ Hpos) in H.
    unfold Qeq, Qminus, Qplus, Qopp, inject_Z in H. cbn in H. nia.
Qed.

Example format_3f_examples :
  format_3f (12 # 100) = "0.120" /\
  format_3f (1 # 2) = "0.500" /\
  format_3f (5 # 10000) = "0.000" /\
  format_3f (15 # 10000) = "0.002" /\
  format_3f (- 1 # 10000) = "-0.000" /\
  format_3f (12345 # 10) = "1234.500".
Proof. repeat split; reflexivity. Qed.

Example py_index_examples :
  py_index [10; 20; 30] 0 = Some 10 /\
  py_index [10; 20; 30] (-1) = Some 30 /\
  py_index [10; 20; 30] 3 = None /\
  py_index [10; 20; 30] (-4) = None.
Proof. repeat split; reflexivity. Qed.

Example sorted_example : sorted [2; 0; 1] = [0; 1; 2].
Proof. reflexivity. Qed.

Example axis_names :
  axname 0 = "xaxis" /\ axname 1 = "xaxis2" /\ xname 0 = "x" /\ xname 2 = "x3".
Proof. repeat split; reflexivity. Qed.

(** The first end-to-end example of the specification. *)
Example fock_chart_example :
  let r := generate_fock_chart (VRef 13) [0; 1] example_dists example_means
             example_labels example_store in
  fst r = Ok (VRef 13) /\
  read_path (snd r) (VRef 13) [KStr "layout"; KStr "xaxis"; KStr "domain"]
    = Some (TList [TFloat 0; TFloat (float_lit (49 # 100))]) /\
  read_path (snd r) (VRef 13) [KStr "layout"; KStr "xaxis2"; KStr "domain"]
    = Some (TList [TFloat (float_lit (51 # 100)); TFloat 1]) /\
  read_path (snd r) (VRef 13) [KStr "data"; KIdx 0; KStr "y"]
    = Some (TList [TFloat (6 # 10); TFloat (3 # 10); TFloat (1 # 10)]) /\
  read_path (snd r) (VRef 13) [KStr "data"; KIdx 0; KStr "x"]
    = Some (TList [TStr "|0>"; TStr "|1>"; TStr "|2>"]) /\
  read_path (snd r) (VRef 13)
    [KStr "layout"; KStr "annotations"; KIdx 1; KStr "text"]
    = Some (TStr "Mean: 0.120").
Proof. vm_compute. repeat split; reflexivity. Qed.

(** The second: a field of zeros. *)
Example wigner_chart_example :
  exists chart cmin,
    generate_wigner_chart [[0; 0; 0]; [0; 0; 0]; [0; 0; 0]]%Q
      [-1; 0; 1]%Q [-1; 0; 1]%Q true = Ok chart /\
    tree_at chart [KStr "data"; KIdx 0; KStr "z"]
      = Ok (TList [TList [TFloat 0; TFloat 0; TFloat 0];
                   TList [TFloat 0; TFloat 0; TFloat 0];
                   TList [TFloat 0; TFloat 0; TFloat 0]]) /\
    tree_at chart [KStr "data"; KIdx 0; KStr "cmin"] = Ok (TFloat cmin) /\
    (- (3184 # 10000) < cmin < - (3183 # 10000))%Q.
Proof.
  do 2 eexists. split; [reflexivity|]. split; [reflexivity|].
  split; [reflexivity|]. split; reflexivity.
Qed.

(** ** Rounding to binary64

    Powers of two. *)

Lemma pow2_pos e : (0 < pow2 e)%Q.
Proof. apply Qpower_0_lt. reflexivity. Qed.

Lemma pow2_plus a b : (pow2 (a + b) == pow2 a * pow2 b)%Q.
Proof. apply Qpower_plus. discriminate. Qed.

Lemma pow2_le a b : a <= b -> (pow2 a <= pow2 b)%Q.
Proof. intros H. apply Qpower_le_compat_l; [exact H|discriminate]. Qed.

Lemma pow2_lt_inv a b : (pow2 a < pow2 b)%Q -> a < b.
Proof. intros H. apply (Qpower_lt_compat_l_inv 2); [exact H|reflexivity]. Qed.

Lemma pow2_nonneg z : 0 <= z -> (pow2 z == inject_Z (2 ^ z))%Q.
Proof. intros H. unfold pow2. now rewrite (Zpower_Qpower 2 z H). Qed.

(** The binary exponent of a positive rational. *)

Lemma ilog2_spec (q : Q) :
  (0 < q)%Q -> (pow2 (ilog2 q) <= q)%Q /\ (q < pow2 (ilog2 q + 1))%Q.
Proof.
  intros Hq. destruct q as [n d].
  assert (Hn : 0 < n) by (unfold Qlt in Hq; cbn in Hq; lia).
  unfold ilog2. cbn [Qnum Qden].
  set (ln := Z.log2 n). set (ld := Z.log2 (Z.pos d)).
  assert (Hln : 0 <= ln) by apply Z.log2_nonneg.
  assert (Hld : 0 <= ld) by apply Z.log2_nonneg.
  destruct (Z.log2_spec n Hn) as [Hn1 Hn2]. fold ln in Hn1, Hn2.
  destruct (Z.log2_spec (Z.pos d) ltac:(lia)) as [Hd1 Hd2]. fold ld in Hd1, Hd2.
  assert (Hup : (n # d < pow2 (ln - ld + 1))%Q).
  { replace (ln - ld + 1) with ((ln + 1) + - ld) by lia.
    rewrite pow2_plus. unfold pow2 at 2. rewrite Qpower_opp.
    fold (pow2 ld). rewrite !pow2_nonneg by lia.
    apply Qlt_shift_div_l.
    - change 0%Q with (inject_Z 0). rewrite <- Zlt_Qlt. lia.
    - unfold Qlt, Qmult, inject_Z. cbn [Qnum Qden]. nia. }
  assert (Hlow : (pow2 (ln - ld - 1) <= n # d)%Q).
  { replace (ln - ld - 1) with (ln + - (ld + 1)) by lia.
    rewrite pow2_plus. unfold pow2 at 2. rewrite Qpower_opp.
    fold (pow2 (ld + 1)). rewrite !pow2_nonneg by lia.
    apply Qle_shift_div_r.
    - change 0%Q with (inject_Z 0). rewrite <- Zlt_Qlt. lia.
    - unfold Qle, Qmult, inject_Z. cbn [Qnum Qden]. nia. }
  destruct (Qle_bool (pow2 (ln - ld)) (n # d)) eqn:E.
  - apply Qle_bool_iff in E. split; assumption.
  - split; [exact Hlow|].
    replace (ln - ld - 1 + 1) with (ln - ld) by lia.
    apply Qnot_le_lt. intros H. apply Qle_bool_iff in H. congruence.
Qed.

Lemma ilog2_lt (q : Q) (k : Z) :
  (0 < q)%Q -> (q < pow2 k)%Q -> ilog2 q < k.
Proof.
  intros Hq Hk. destruct (ilog2_spec q Hq) as [H1 _].
  apply pow2_lt_inv. eapply Qle_lt_trans; eauto.
Qed.

Lemma ilog2_ge (q : Q) (k : Z) :
  (pow2 k <= q)%Q -> k <= ilog2 q.
Proof.
  intros Hk.
  assert (Hq : (0 < q)%Q) by (eapply Qlt_le_trans; [apply pow2_pos|exact Hk]).
  destruct (ilog2_spec q Hq) as [_ H2].
  assert (k < ilog2 q + 1); [|lia].
  apply pow2_lt_inv. eapply Qle_lt_trans; eauto.
Qed.

Lemma b64_compat (q q' : Q) : (q == q')%Q -> b64 q = b64 q'.
Proof. intros H. unfold b64. now rewrite (Qred_complete _ _ H). Qed.

(** The result is within half a unit in the last place. *)
Lemma b64_half_ulp (q : Q) :
  ~ (q == 0)%Q ->
  (Qabs (b64 q - q) <=
     pow2 (Z.max (ilog2 (Qabs (Qred q)) - 52) (-1074) - 1))%Q.
Proof.
  intros Hq0. unfold b64.
  assert (Eq : (Qred q == q)%Q) by apply Qred_correct.
  set (p := Qred q) in *.
  destruct (Qeq_bool p 0) eqn:E0.
  { apply Qeq_bool_eq in E0. rewrite E0 in Eq. now symmetry in Eq. }
  set (e := Z.max (ilog2 (Qabs p) - 52) (-1074)).
  set (m := round_half_even (Qabs p / pow2 e)).
  pose proof (round_half_even_near (Qabs p / pow2 e)) as Hm. fold m in Hm.
  pose proof (pow2_pos e) as Hpe.
  assert (Hr : (Qabs (inject_Z m * pow2 e - Qabs p) <= pow2 (e - 1))%Q).
  { replace (e - 1) with (e + -1) by lia. rewrite pow2_plus.
    change (pow2 (-1)) with (1 # 2)%Q.
    assert (E : (inject_Z m * pow2 e - Qabs p
                 == (inject_Z m - Qabs p / pow2 e) * pow2 e)%Q).
    { field. intros H. rewrite H in Hpe. discriminate. }
    rewrite E, Qabs_Qmult, (Qabs_pos (pow2 e)) by now apply Qlt_le_weak.
    rewrite (Qmult_comm (pow2 e)).
    apply Qmult_le_compat_r; [exact Hm|now apply Qlt_le_weak]. }
  rewrite <- Eq.
  destruct (Qnum p <? 0) eqn:Es.
  - apply Z.ltb_lt in Es.
    assert (Hp : (Qabs p == - p)%Q).
    { apply Qabs_neg. unfold Qle. cbn. lia. }
    rewrite Qred_correct.
    assert (E : (- (inject_Z m * pow2 e) - p
                 == - (inject_Z m * pow2 e - Qabs p))%Q)
      by (rewrite Hp; ring).
    rewrite E, Qabs_opp. exact Hr.
  - apply Z.ltb_ge in Es.
    assert (Hp : (Qabs p == p)%Q).
    { apply Qabs_pos. unfold Qle. cbn. lia. }
    rewrite Qred_correct. rewrite <- Hp at 1. exact Hr.
Qed.

Lemma Qabs_nonzero (q : Q) : ~ (q == 0)%Q -> (0 < Qabs q)%Q.
Proof.
  destruct q as [n d]. unfold Qeq, Qlt, Qabs. cbn. lia.
Qed.

(** Below [2^k] the error is at most [2^(k-54)]. *)
Lemma b64_near (q : Q) (k : Z) :
  -1021 <= k -> (Qabs q < pow2 k)%Q ->
  (Qabs (b64 q - q) <= pow2 (k - 54))%Q.
Proof.
  intros Hk Hq.
  destruct (Qeq_dec q 0) as [E|E].
  { rewrite (b64_compat q 0 E), E. change (b64 0) with 0%Q.
    cbn. apply Qlt_le_weak, pow2_pos. }
  eapply Qle_trans; [apply (b64_half_ulp q E)|].
  apply pow2_le.
  assert (Ha : (0 < Qabs (Qred q))%Q).
  { rewrite Qred_correct. now apply Qabs_nonzero. }
  assert (ilog2 (Qabs (Qred q)) < k); [|lia].
  apply ilog2_lt; [exact Ha|]. now rewrite Qred_correct.
Qed.

(** From 1 on, the error is at most [2^-53] of the value. *)
Lemma b64_relative (q : Q) :
  (1 <= q)%Q -> (Qabs (b64 q - q) <= q * pow2 (-53))%Q.
Proof.
  intros Hq.
  assert (E : ~ (q == 0)%Q).
  { intros H. rewrite H in Hq. now apply Hq. }
  assert (Habs : (Qabs (Qred q) == q)%Q).
  { rewrite Qred_correct. apply Qabs_pos.
    eapply Qle_trans; [|exact Hq]. discriminate. }
  eapply Qle_trans; [apply (b64_half_ulp q E)|].
  set (e := ilog2 (Qabs (Qred q))).
  assert (He : 0 <= e).
  { apply ilog2_ge. now rewrite Habs. }
  replace (Z.max (e - 52) (-1074) - 1) with (e + -53) by lia.
  rewrite pow2_plus.
  apply Qmult_le_compat_r; [|apply Qlt_le_weak, pow2_pos].
  assert (Hpos : (0 < Qabs (Qred q))%Q).
  { rewrite Habs. eapply Qlt_le_trans; [|exact Hq]. reflexivity. }
  rewrite <- Habs at 1. exact (proj1 (ilog2_spec _ Hpos)).
Qed.

Lemma b64_0 : b64 0 = 0%Q.
Proof. reflexivity. Qed.

Lemma b64_1 : b64 1 = 1%Q.
Proof. vm_compute. reflexivity. Qed.

Lemma pow2_m53 : pow2 (-53) = (1 # 9007199254740992)%Q.
Proof. reflexivity. Qed.

(** Numbers between -2 and 2 are rounded with an error of [2^-53] at
    most. *)
Lemma b64_near_2 (q : Q) :
  (- (2) < q)%Q -> (q < 2)%Q ->
  (Qabs (b64 q - q) <= 1 # 9007199254740992)%Q.
Proof.
  intros H1 H2. rewrite <- pow2_m53.
  apply (b64_near q 1); [lia|].
  apply Qabs_Qlt_condition. split; assumption.
Qed.

(** The float of a positive int is positive. *)
Lemma to_float_pos (z : Z) : 1 <= z -> (1 # 2 < to_float z)%Q.
Proof.
  intros Hz. unfold to_float.
  assert (Hq : (1 <= inject_Z z)%Q).
  { change 1%Q with (inject_Z 1). now rewrite <- Zle_Qle. }
  pose proof (b64_relative (inject_Z z) Hq) as H.
  apply Qabs_Qle_condition in H as [H _].
  rewrite pow2_m53 in H. lra.
Qed.

(** *** Absolute values, for linear arithmetic *)

Lemma Qabs_dec (x : Q) :
  (0 <= x /\ Qabs x == x)%Q \/ (x <= 0 /\ Qabs x == - x)%Q.
Proof.
  destruct (Qlt_le_dec x 0) as [H|H]; [right|left]; split;
    [now apply Qlt_le_weak|apply Qabs_neg; now apply Qlt_le_weak
    |exact H|now apply Qabs_pos].
Qed.

Ltac qabs :=
  repeat match goal with
         | H : context [Qabs _] |- _ => revert H
         end;
  repeat match goal with
         | |- context [Qabs ?x] =>
             let H := fresh "Habs" in
             let a := fresh "a" in
             destruct (Qabs_dec x) as [[? H]|[? H]];
             revert H; generalize (Qabs x); intros a H
         end;
  intros.

Lemma binary64_compat (r r' : Q) : (r == r')%Q -> binary64 r -> binary64 r'.
Proof.
  intros E (m & e & Hm & He & Hr). exists m, e.
  split; [exact Hm|]. split; [exact He|]. now rewrite <- E.
Qed.

Lemma binary64_opp (r : Q) : binary64 r -> binary64 (- r).
Proof.
  intros (m & e & Hm & He & Hr). exists (- m), e.
  split; [lia|]. split; [exact He|].
  rewrite Hr, inject_Z_opp. ring.
Qed.

Lemma binary64_0 : binary64 0.
Proof. exists 0, 0. split; [reflexivity|]. split; [lia|reflexivity]. Qed.

Lemma nearest64_compat (q q' r r' : Q) :
  (q == q')%Q -> (r == r')%Q -> nearest64 q r -> nearest64 q' r'.
Proof.
  intros Eq Er (B & N & T). split; [|split].
  - now apply (binary64_compat r).
  - intros s Hs. rewrite <- Eq, <- Er. now apply N.
  - intros s Hs Hne Ht.
    destruct (T s Hs) as [k Hk].
    + now rewrite Er.
    + now rewrite Eq, Er.
    + exists k. now rewrite <- Er.
Qed.

Lemma nearest64_opp (q r : Q) : nearest64 q r -> nearest64 (- q) (- r).
Proof.
  intros (B & N & T). split; [|split].
  - now apply binary64_opp.
  - intros s Hs.
    pose proof (N (- s)%Q (binary64_opp _ Hs)) as H.
    assert (E1 : (- r - - q == - (r - q))%Q) by ring.
    assert (E2 : (s - - q == - (- s - q))%Q) by ring.
    rewrite E1, E2, !Qabs_opp. exact H.
  - intros s Hs Hne Ht.
    destruct (T (- s)%Q (binary64_opp _ Hs)) as [k Hk].
    + intros H. apply Hne. rewrite <- H. ring.
    + assert (E1 : (- r - - q == - (r - q))%Q) by ring.
      assert (E2 : (s - - q == - (- s - q))%Q) by ring.
      rewrite E1, E2, !Qabs_opp in Ht. exact Ht.
    + exists k. rewrite Hk at 1. ring.
Qed.

(** *** The nearest integer *)

Lemma inject_Z_apart (m j : Z) :
  j <> m ->
  (inject_Z j <= inject_Z m - 1)%Q \/ (inject_Z m + 1 <= inject_Z j)%Q.
Proof.
  intros Hne.
  destruct (Z_lt_le_dec j m) as [H|H]; [left|right].
  - assert (H' : j <= m - 1) by lia.
    rewrite Zle_Qle in H'. unfold Zminus in H'.
    rewrite inject_Z_plus in H'. exact H'.
  - assert (H' : m + 1 <= j) by lia.
    rewrite Zle_Qle in H'. rewrite inject_Z_plus in H'. exact H'.
Qed.

Lemma Z_nearest (m j : Z) (x : Q) :
  (Qabs (inject_Z m - x) <= 1 # 2)%Q ->
  (Qabs (inject_Z m - x) <= Qabs (inject_Z j - x))%Q.
Proof.
  intros Hm.
  destruct (Z.eq_dec j m) as [->|Hne]; [apply Qle_refl|].
  destruct (inject_Z_apart m j Hne); qabs; lra.
Qed.

Lemma Z_nearest_tie (m j : Z) (x : Q) :
  j <> m ->
  (Qabs (inject_Z m - x) <= 1 # 2)%Q ->
  (Qabs (inject_Z j - x) == Qabs (inject_Z m - x))%Q ->
  (Qabs (inject_Z m - x) == 1 # 2)%Q /\ (j = m + 1 \/ j = m - 1).
Proof.
  intros Hne Hm Ht.
  assert (H1 : (inject_Z j <= inject_Z (m + 1))%Q).
  { rewrite inject_Z_plus. change (inject_Z 1) with 1%Q. qabs; lra. }
  assert (H2 : (inject_Z (m + -1) <= inject_Z j)%Q).
  { rewrite inject_Z_plus. change (inject_Z (-1)) with (- (1))%Q.
    qabs; lra. }
  rewrite <- Zle_Qle in H1, H2.
  split; [|lia].
  destruct (inject_Z_apart m j Hne); qabs; lra.
Qed.

Lemma scale_abs (m a p : Q) :
  (0 < p)%Q -> (Qabs (m * p - a) == Qabs (m - a / p) * p)%Q.
Proof.
  intros Hp.
  assert (E : (m * p - a == (m - a / p) * p)%Q).
  { field. intros H. rewrite H in Hp. discriminate. }
  rewrite E, Qabs_Qmult, (Qabs_pos p) by now apply Qlt_le_weak.
  reflexivity.
Qed.

(** *** The grid of a binade *)

Section Grid.

Variables (a : Q) (E e m : Z).
Hypothesis Ha1 : (pow2 E <= a)%Q.
Hypothesis Ha2 : (a < pow2 (E + 1))%Q.
Hypothesis He : e = Z.max (E - 52) (-1074).
Hypothesis Hm0 : 0 <= m.
Hypothesis Hm : (Qabs (inject_Z m - a / pow2 e) <= 1 # 2)%Q.
Hypothesis Hev :
  (Qabs (inject_Z m - a / pow2 e) == 1 # 2)%Q -> Z.even m = true.

Lemma grid_significand : m <= 2 ^ 53.
Proof.
  set (k := Z.max 0 (E + 1 - e)).
  assert (Hk : 0 <= k <= 53) by lia.
  assert (Hx : (a / pow2 e < inject_Z (2 ^ k))%Q).
  { rewrite <- pow2_nonneg by lia.
    apply Qlt_shift_div_r; [apply pow2_pos|].
    rewrite <- pow2_plus.
    eapply Qlt_le_trans; [exact Ha2|]. apply pow2_le. lia. }
  assert (Hp : 2 ^ k <= 2 ^ 53) by (apply Z.pow_le_mono_r; lia).
  assert (H : (inject_Z m < inject_Z (2 ^ k + 1))%Q).
  { rewrite inject_Z_plus. change (inject_Z 1) with 1%Q.
    revert Hm. generalize (a / pow2 e)%Q Hx. intros x Hx' Hm'.
    qabs; lra. }
  rewrite <- Zlt_Qlt in H. lia.
Qed.

Lemma grid_binary64 : binary64 (inject_Z m * pow2 e).
Proof.
  pose proof grid_significand as Hs.
  destruct (Z.eq_dec m (2 ^ 53)) as [->|Hne].
  - exists (2 ^ 52), (e + 1). split; [reflexivity|]. split; [lia|].
    rewrite pow2_plus. change (pow2 1) with 2%Q.
    change (inject_Z (2 ^ 53)) with (inject_Z (2 ^ 52) * 2)%Q. ring.
  - exists m, e. split; [lia|]. split; [lia|reflexivity].
Qed.

(** A binary64 number of exponent [e] or more is on the grid. *)
Lemma on_grid (r : Q) (m' e' : Z) :
  e <= e' -> (r == inject_Z m' * pow2 e')%Q ->
  exists j, (r == inject_Z j * pow2 e)%Q.
Proof.
  intros Hle Hr. exists (m' * 2 ^ (e' - e)).
  rewrite Hr, inject_Z_mult, <- pow2_nonneg by lia.
  replace e' with ((e' - e) + e) at 1 by lia.
  rewrite pow2_plus. ring.
Qed.

(** A binary64 number of a smaller exponent is below the binade. *)
Lemma below_binade (r : Q) (m' e' : Z) :
  Z.abs m' < 2 ^ 53 -> -1074 <= e' < e -> (r == inject_Z m' * pow2 e')%Q ->
  (Qabs r < pow2 E)%Q /\ e = E - 52.
Proof.
  intros Hm' Hlt Hr.
  assert (He' : e = E - 52) by lia.
  split; [|exact He'].
  rewrite Hr, Qabs_Qmult, (Qabs_pos (pow2 e'))
    by apply Qlt_le_weak, pow2_pos.
  assert (H1 : (Qabs (inject_Z m') < pow2 53)%Q).
  { rewrite pow2_nonneg by lia.
    assert (H : (Qabs (inject_Z m') == inject_Z (Z.abs m'))%Q)
      by (unfold Qabs, inject_Z; reflexivity).
    rewrite H. now rewrite <- Zlt_Qlt. }
  assert (H2 : (pow2 e' <= pow2 (e - 1))%Q) by (apply pow2_le; lia).
  assert (H3 : (pow2 E == pow2 53 * pow2 (e - 1))%Q).
  { rewrite <- pow2_plus. now replace (53 + (e - 1)) with E by lia. }
  rewrite H3.
  pose proof (pow2_pos e') as P1. pose proof (pow2_pos (e - 1)) as P2.
  pose proof (Qabs_nonneg (inject_Z m')) as P3.
  apply (Qle_lt_trans _ (Qabs (inject_Z m') * pow2 (e - 1))).
  - rewrite !(Qmult_comm (Qabs (inject_Z m'))).
    now apply Qmult_le_compat_r.
  - now apply Qmult_lt_compat_r.
Qed.

Lemma grid_point_nearest (j : Z) :
  (Qabs (inject_Z m * pow2 e - a) <= Qabs (inject_Z j * pow2 e - a))%Q.
Proof.
  rewrite !scale_abs by apply pow2_pos.
  apply Qmult_le_compat_r; [|apply Qlt_le_weak, pow2_pos].
  now apply Z_nearest.
Qed.

(** The lower end of the binade is on the grid. *)
Lemma binade_on_grid :
  e = E - 52 -> (pow2 E == inject_Z (2 ^ 52) * pow2 e)%Q.
Proof.
  intros ->. rewrite <- pow2_nonneg, <- pow2_plus by lia.
  now replace (52 + (E - 52)) with E by lia.
Qed.

Lemma grid_nearest : nearest64 a (inject_Z m * pow2 e).
Proof.
  split; [exact grid_binary64|].
  assert (Hlow : forall r m' e', Z.abs m' < 2 ^ 53 -> -1074 <= e' < e ->
            (r == inject_Z m' * pow2 e')%Q ->
            (Qabs (inject_Z m * pow2 e - a) < Qabs (r - a))%Q).
  { intros r m' e' H1 H2 H3.
    destruct (below_binade r m' e' H1 H2 H3) as [Hb Hee].
    pose proof (grid_point_nearest (2 ^ 52)) as Hg.
    rewrite <- (binade_on_grid Hee) in Hg.
    eapply Qle_lt_trans; [exact Hg|].
    revert Hb. generalize (pow2 E) Ha1. intros b Hb1 Hb2.
    qabs; lra. }
  split.
  - intros r (m' & e' & H1 & H2 & H3).
    destruct (Z_lt_le_dec e' e) as [Hlt|Hle].
    + apply Qlt_le_weak. apply (Hlow r m' e'); [exact H1|lia|exact H3].
    + destruct (on_grid r m' e' Hle H3) as [j Hj].
      rewrite Hj. apply grid_point_nearest.
  - intros r (m' & e' & H1 & H2 & H3) Hne Ht.
    destruct (Z_lt_le_dec e' e) as [Hlt|Hle].
    + pose proof (Hlow r m' e' H1 (conj H2 Hlt) H3) as H.
      rewrite Ht in H. now apply Qlt_irrefl in H.
    + destruct (on_grid r m' e' Hle H3) as [j Hj].
      assert (Hjm : j <> m).
      { intros ->. now apply Hne. }
      pose proof (pow2_pos e) as Hp.
      assert (Ht' : (Qabs (inject_Z j - a / pow2 e)
                     == Qabs (inject_Z m - a / pow2 e))%Q).
      { rewrite Hj, !scale_abs in Ht by exact Hp.
        apply Qmult_inj_r in Ht; [exact Ht|].
        intros Hz. rewrite Hz in Hp. discriminate. }
      destruct (Z_nearest_tie m j _ Hjm Hm Ht') as [Hhalf Hj'].
      pose proof (Hev Hhalf) as Heven.
      apply Z.even_spec in Heven as [k Hk].
      destruct Hj' as [->| ->].
      * exists k. rewrite Hj, Hk, !inject_Z_plus, !inject_Z_mult.
        change (inject_Z 1) with 1%Q. ring.
      * exists (- k). rewrite Hj, Hk.
        unfold Zminus. rewrite !inject_Z_plus, !inject_Z_mult, !inject_Z_opp.
        change (inject_Z 1) with 1%Q. change (inject_Z 2) with 2%Q. ring.
Qed.

End Grid.

(** *** [b64] rounds to nearest, ties to even *)

Theorem b64_nearest (q : Q) : nearest64 q (b64 q).
Proof.
  destruct (Qeq_dec q 0) as [E0|E0].
  { rewrite (b64_compat q 0 E0). change (b64 0) with 0%Q.
    apply (nearest64_compat 0 q 0 0); [now symmetry|reflexivity|].
    split; [exact binary64_0|]. split.
    - intros r _. qabs; lra.
    - intros r _ Hne Ht. exfalso. apply Hne. revert Ht. qabs; lra. }
  unfold b64.
  assert (Eq : (Qred q == q)%Q) by apply Qred_correct.
  set (p := Qred q) in *.
  destruct (Qeq_bool p 0) eqn:Ez.
  { apply Qeq_bool_eq in Ez. rewrite Ez in Eq. now symmetry in Eq. }
  assert (Hpos : (0 < Qabs p)%Q).
  { apply Qabs_nonzero. now rewrite Eq. }
  destruct (ilog2_spec _ Hpos) as [Hl1 Hl2].
  set (E := ilog2 (Qabs p)) in *.
  set (e := Z.max (E - 52) (-1074)).
  set (m := round_half_even (Qabs p / pow2 e)).
  assert (Hx : (0 <= Qabs p / pow2 e)%Q).
  { apply Qle_shift_div_l; [apply pow2_pos|].
    rewrite Qmult_0_l. now apply Qlt_le_weak. }
  pose proof (grid_nearest (Qabs p) E e m Hl1 Hl2 eq_refl
                (round_half_even_nonneg _ Hx) (round_half_even_near _)
                (round_half_even_tie _)) as HN.
  destruct (Qnum p <? 0) eqn:Es.
  - apply Z.ltb_lt in Es.
    assert (Hp : (Qabs p == - p)%Q).
    { apply Qabs_neg. unfold Qle. cbn. lia. }
    apply nearest64_opp in HN.
    eapply nearest64_compat; [| |exact HN].
    + rewrite Hp, <- Eq. ring.
    + now rewrite Qred_correct.
  - apply Z.ltb_ge in Es.
    assert (Hp : (Qabs p == p)%Q).
    { apply Qabs_pos. unfold Qle. cbn. lia. }
    eapply nearest64_compat; [| |exact HN].
    + now rewrite Hp.
    + now rewrite Qred_correct.
Qed.

(** Rounding to nearest, ties to even, has one result. *)
Theorem nearest64_unique (q r1 r2 : Q) :
  nearest64 q r1 -> nearest64 q r2 -> (r1 == r2)%Q.
Proof.
  intros (B1 & N1 & T1) (B2 & N2 & T2).
  destruct (Qeq_dec r1 r2) as [E|Hne]; [exact E|exfalso].
  assert (Ht : (Qabs (r2 - q) == Qabs (r1 - q))%Q).
  { apply Qle_antisym; [now apply N2|now apply N1]. }
  destruct (T1 r2 B2) as [k1 Hk1]; [now intros H; apply Hne|exact Ht|].
  destruct (T2 r1 B1) as [k2 Hk2]; [exact Hne|now symmetry|].
  assert (Hd : ~ (r2 - r1 == 0)%Q).
  { intros H. apply Hne. lra. }
  assert (H : (inject_Z (2 * (- k2 - k1) - 1) * (r2 - r1) == 0)%Q).
  { unfold Zminus.
    rewrite inject_Z_plus, inject_Z_mult, inject_Z_plus, !inject_Z_opp.
    rewrite inject_Z_mult in Hk1, Hk2.
    change (inject_Z 2) with 2%Q in *. change (inject_Z 1) with 1%Q.
    lra. }
  apply Qmult_integral in H as [H|H]; [|now apply Hd].
  unfold Qeq in H. cbn in H. lia.
Qed.

(** Checked against the doubles of the interpreter. *)
Example b64_examples :
  float_lit (1 # 100) = (5764607523034235 # 576460752303423488)%Q /\
  fadd (fdiv 1 5) (float_lit (1 # 100)) = (3783023686991217 # 18014398509481984)%Q /\
  fsub (fdiv 2 3) (float_lit (1 # 100)) = (5914727510613251 # 9007199254740992)%Q /\
  fdiv 1 np_pi = (5734161139222659 # 18014398509481984)%Q /\
  to_float (2 ^ 53 + 1) = inject_Z (2 ^ 53) /\
  to_float (2 ^ 53 + 3) = inject_Z (2 ^ 53 + 4) /\
  b64 ((1 # 3) * pow2 (-1074)) = 0%Q /\
  b64 ((2 # 3) * pow2 (-1074)) = Qred (pow2 (-1074)).
Proof. vm_compute. repeat split; reflexivity. Qed.

(** ** Store and dict lemmas *)

Lemma dict_get_set_eq {V} k (v : V) d : dict_get k (dict_set k v d) = Some v.
Proof.
  induction d as [|[k' v'] d IH]; cbn.
  - now rewrite String.eqb_refl.
  - destruct (String.eqb k k') eqn:E; cbn; rewrite E; auto.
Qed.

Lemma dict_get_set_ne {V} k k' (v : V) d :
  k <> k' -> dict_get k' (dict_set k v d) = dict_get k' d.
Proof.
  intros Hne. induction d as [|[k2 v2] d IH]; cbn.
  - destruct (String.eqb k' k) eqn:E; [|reflexivity].
    apply String.eqb_eq in E. congruence.
  - destruct (String.eqb k k2) eqn:E; cbn.
    + apply String.eqb_eq in E. subst k2.
      destruct (String.eqb k' k) eqn:E2; [|reflexivity].
      apply String.eqb_eq in E2. congruence.
    + destruct (String.eqb k' k2); auto.
Qed.

Lemma lookup_map {A B} (f : A -> B) (l : list A) (i : nat) :
  map f l !! i = f <$> l !! i.
Proof. revert i. induction l; intros [|i]; cbn; auto. Qed.

Lemma lookup_insert_same {A} (l : list A) i j x :
  i = j -> (i < length l)%nat -> <[i:=x]> l !! j = Some x.
Proof. intros <- ?. now apply list_lookup_insert_eq. Qed.

Lemma lookup_app_new {A} (l : list A) x j :
  j = length l -> (l ++ [x]) !! j = Some x.
Proof. intros ->. now apply list_lookup_middle. Qed.

Lemma py_index_nat {A} (xs : list A) (i : nat) z :
  z = Z.of_nat i -> (i < length xs)%nat -> py_index xs z = xs !! i.
Proof.
  intros -> Hi. unfold py_index.
  replace (0 <=? Z.of_nat i) with true by (symmetry; apply Z.leb_le; lia).
  replace (Z.of_nat i <? Z.of_nat (length xs)) with true
    by (symmetry; apply Z.ltb_lt; lia).
  cbn. now rewrite Nat2Z.id.
Qed.

Lemma py_index_None_iff {A} (xs : list A) i :
  py_index xs i = None <->
  (i < - Z.of_nat (length xs) \/ Z.of_nat (length xs) <= i).
Proof.
  unfold py_index.
  destruct (0 <=? i) eqn:E1, (i <? Z.of_nat (length xs)) eqn:E2; cbn;
    try (apply Z.leb_le in E1); try (apply Z.leb_gt in E1);
    try (apply Z.ltb_lt in E2); try (apply Z.ltb_ge in E2).
  - rewrite lookup_ge_None. lia.
  - destruct (- Z.of_nat (length xs) <=? i) eqn:E3, (i <? 0) eqn:E4; cbn;
      try (apply Z.leb_le in E3); try (apply Z.ltb_lt in E4); try lia;
      split; auto; lia.
  - destruct (- Z.of_nat (length xs) <=? i) eqn:E3, (i <? 0) eqn:E4; cbn;
      try (apply Z.leb_le in E3); try (apply Z.leb_gt in E3);
      try (apply Z.ltb_lt in E4); try (apply Z.ltb_ge in E4); try lia.
    + rewrite lookup_ge_None. lia.
    + split; auto; lia.
  - lia.
Qed.

(** ** Running the store operations *)

Lemma bind_ok {A B} (m : M A) (k : A -> M B) h a h' :
  m h = (Ok a, h') -> bind m k h = k a h'.
Proof. unfold bind. now intros ->. Qed.

Lemma bind_inv_ok {A B} (m : M A) (k : A -> M B) h b h' :
  bind m k h = (Ok b, h') ->
  exists a h1, m h = (Ok a, h1) /\ k a h1 = (Ok b, h').
Proof.
  unfold bind. destruct (m h) as [[a|e] h1]; [eauto|discriminate].
Qed.

Lemma alloc_run o (h : heap) : alloc o h = (Ok (VRef (length h)), h ++ [o]).
Proof. reflexivity. Qed.

Lemma getitem_s_run (h : heap) l d k v :
  h !! l = Some (ODict d) -> dict_get k d = Some v ->
  getitem_s (VRef l) k h = (Ok v, h).
Proof.
  intros Hl Hk. unfold getitem_s, bind, read. rewrite Hl. now rewrite Hk.
Qed.

Lemma getitem_i_run (h : heap) l xs z (i : nat) v :
  h !! l = Some (OList xs) -> z = Z.of_nat i -> xs !! i = Some v ->
  getitem_i (VRef l) z h = (Ok v, h).
Proof.
  intros Hl Hz Hi. unfold getitem_i, bind, read, index_or_raise.
  rewrite Hl. rewrite (py_index_nat xs i z Hz), Hi; [reflexivity|].
  now apply lookup_lt_Some in Hi.
Qed.

Lemma setitem_run (h : heap) l d k v :
  h !! l = Some (ODict d) ->
  setitem (VRef l) k v h = (Ok tt, <[l := ODict (dict_set k v d)]> h).
Proof. intros Hl. unfold setitem, bind, read. now rewrite Hl. Qed.

Lemma getattr_append_run (h : heap) l xs :
  h !! l = Some (OList xs) -> getattr_append (VRef l) h = (Ok l, h).
Proof. intros Hl. unfold getattr_append, bind, read. now rewrite Hl. Qed.

Lemma call_append_run (h : heap) l xs v :
  h !! l = Some (OList xs) ->
  call_append l v h = (Ok tt, <[l := OList (xs ++ [v])]> h).
Proof. intros Hl. unfold call_append, bind, read. now rewrite Hl. Qed.

Lemma copy_run (h : heap) l o :
  h !! l = Some o -> copy (VRef l) h = (Ok (VRef (length h)), h ++ [o]).
Proof. intros Hl. unfold copy, bind, read. now rewrite Hl. Qed.

Lemma truediv_run a (b : Z) (h : heap) :
  b <> 0 -> truediv a (of_int b) h = (Ok (fdiv a (of_int b)), h).
Proof.
  intros Hb. unfold truediv.
  destruct (Qeq_bool (of_int b) 0) eqn:E; [|reflexivity].
  apply Qeq_bool_eq in E. unfold of_int, inject_Z, Qeq in E. cbn in E. lia.
Qed.

Lemma truediv_float_run a (n : nat) (h : heap) :
  Z.of_nat n <> 0 ->
  truediv a (to_float (Z.of_nat n)) h
  = (Ok (fdiv a (to_float (Z.of_nat n))), h).
Proof.
  intros Hb. unfold truediv.
  destruct (Qeq_bool (to_float (Z.of_nat n)) 0) eqn:E; [|reflexivity].
  apply Qeq_bool_eq in E.
  pose proof (to_float_pos (Z.of_nat n) ltac:(lia)) as H.
  rewrite E in H. discriminate.
Qed.

Lemma index_or_raise_ok {A} (xs : list A) i x (h : heap) :
  py_index xs i = Some x -> index_or_raise xs i h = (Ok x, h).
Proof. unfold index_or_raise. now intros ->. Qed.

Lemma index_or_raise_none {A} (xs : list A) i (h : heap) :
  py_index xs i = None -> index_or_raise xs i h = (Raise IndexError, h).
Proof. unfold index_or_raise. now intros ->. Qed.

Lemma alloc_dicts_run n (h : heap) :
  alloc_dicts n h =
    (Ok (map VRef (seq (length h) n)), h ++ replicate n (ODict [])).
Proof.
  revert h. induction n as [|n IH]; intros h.
  - cbn. unfold ret. now rewrite app_nil_r.
  - cbn [alloc_dicts seq replicate].
    rewrite (bind_ok _ _ _ _ _ (alloc_run _ _)).
    rewrite (bind_ok _ _ _ _ _ (IH _)).
    unfold ret. rewrite length_app. cbn [length].
    rewrite <- app_assoc. cbn [app].
    now replace (length h + 1)%nat with (S (length h)) by lia.
Qed.

(** ** Axis names *)

Lemma pretty_N_go_nonempty x s : s <> "" -> pretty_N_go x s <> "".
Proof.
  revert s. induction (N.lt_wf_0 x) as [x _ IH]; intros s Hs.
  destruct (N.eq_dec x 0%N) as [->|Hx].
  - now rewrite pretty_N_go_0.
  - rewrite pretty_N_go_step by lia. apply IH; [|discriminate].
    apply N.div_lt; lia.
Qed.

Lemma pretty_Z_nonempty (z : Z) : pretty z <> "".
Proof.
  destruct z as [|p|p]; cbn; try discriminate.
  - unfold pretty, pretty_Z, pretty, pretty_positive, pretty, pretty_N.
    destruct (decide (N.pos p = 0%N)); [discriminate|].
    rewrite pretty_N_go_step by lia. apply pretty_N_go_nonempty. discriminate.
Qed.

Lemma axname_0 : axname 0 = "xaxis".
Proof. reflexivity. Qed.

Lemma axname_S i : axname (S i) = "xaxis" +:+ format_int (Z.of_nat (S i) + 1).
Proof. reflexivity. Qed.

Lemma xaxis_app_inj a b : "xaxis" +:+ a = "xaxis" +:+ b -> a = b.
Proof. intros H. cbn in H. now injection H. Qed.

Lemma axname_inj i j : axname i = axname j -> i = j.
Proof.
  destruct i as [|i], j as [|j]; rewrite ?axname_0, ?axname_S; auto.
  - intros H. apply (xaxis_app_inj "") in H. symmetry in H.
    now apply pretty_Z_nonempty in H.
  - intros H. apply (xaxis_app_inj _ "") in H.
    now apply pretty_Z_nonempty in H.
  - intros H. apply xaxis_app_inj in H.
    apply (inj pretty) in H. lia.
Qed.

Lemma axname_prefix i : exists s, axname i = "xaxis" +:+ s.
Proof.
  destruct i; [exists ""; reflexivity|].
  eexists. apply axname_S.
Qed.

Lemma axname_not_annotations i : axname i <> "annotations".
Proof. destruct (axname_prefix i) as [s ->]. discriminate. Qed.

Lemma axname_not_title i : axname i <> "title".
Proof. destruct (axname_prefix i) as [s ->]. discriminate. Qed.

Lemma axname_not_font i : axname i <> "font".
Proof. destruct (axname_prefix i) as [s ->]. discriminate. Qed.

Lemma bind_assoc {A B C} (m : M A) (f : A -> M B) (g : B -> M C) (h : heap) :
  bind (bind m f) g h = bind m (fun x => bind (f x) g) h.
Proof. unfold bind. destruct (m h) as [[a|e] h1]; reflexivity. Qed.

Lemma ret_run {A} (a : A) (h : heap) : ret a h = (Ok a, h).
Proof. reflexivity. Qed.

Lemma trace_run (h : heap) cl dcur ld xs idx v :
  h !! cl = Some (ODict dcur) -> dict_get "data" dcur = Some (VRef ld) ->
  h !! ld = Some (OList xs) -> xs !! idx = Some v ->
  trace (VRef cl) idx h = (Ok v, h).
Proof.
  intros Hc Hd Hl Hi. unfold trace.
  rewrite (bind_ok _ _ _ _ _ (getitem_s_run _ _ _ _ _ Hc Hd)).
  eapply getitem_i_run; eauto.
Qed.

Lemma annotations_run (h : heap) cl dcur lay dl v :
  h !! cl = Some (ODict dcur) -> dict_get "layout" dcur = Some (VRef lay) ->
  h !! lay = Some (ODict dl) -> dict_get "annotations" dl = Some v ->
  annotations (VRef cl) h = (Ok v, h).
Proof.
  intros Hc Hd Hl Hi. unfold annotations.
  rewrite (bind_ok _ _ _ _ _ (getitem_s_run _ _ _ _ _ Hc Hd)).
  eapply getitem_s_run; eauto.
Qed.

(** ** Reasoning about outcomes *)

Lemma returns_bind {A B} (m : M A) (k : A -> M B) h a h1 Q :
  m h = (Ok a, h1) -> returns (k a h1) Q -> returns (bind m k h) Q.
Proof. intros Hm. unfold bind. now rewrite Hm. Qed.

Lemma returns_last {A} (m : M A) h a h1 (Q : A -> heap -> Prop) :
  m h = (Ok a, h1) -> Q a h1 -> returns (m h) Q.
Proof. intros ->. auto. Qed.

Lemma returns_assoc {A B C} (m : M A) (f : A -> M B) (g : B -> M C) h Q :
  returns (bind m (fun x => bind (f x) g) h) Q ->
  returns (bind (bind m f) g h) Q.
Proof. now rewrite bind_assoc. Qed.

Lemma returns_seq {A B} (m : M A) (k : A -> M B) h (P : A -> heap -> Prop) Q :
  returns (m h) P -> (forall a h1, P a h1 -> returns (k a h1) Q) ->
  returns (bind m k h) Q.
Proof. unfold bind. destruct (m h) as [[a|e] h1]; cbn; [auto|tauto]. Qed.

Lemma returns_impl {A} (r : result A * heap) (P Q : A -> heap -> Prop) :
  returns r P -> (forall a h, P a h -> Q a h) -> returns r Q.
Proof. destruct r as [[a|e] h]; cbn; auto. Qed.

Lemma raises_bind {A B} (m : M A) (k : A -> M B) h a h1 e :
  m h = (Ok a, h1) -> raises (k a h1) e -> raises (bind m k h) e.
Proof. intros Hm. unfold bind. now rewrite Hm. Qed.

Lemma raises_now {A B} (m : M A) (k : A -> M B) h h1 e :
  m h = (Raise e, h1) -> raises (bind m k h) e.
Proof. intros Hm. unfold bind. now rewrite Hm. Qed.

Lemma raises_first {A B} (m : M A) (k : A -> M B) h e :
  raises (m h) e -> raises (bind m k h) e.
Proof. unfold bind. destruct (m h) as [[a|e'] h1]; cbn; [tauto|auto]. Qed.

Lemma raises_seq {A B} (m : M A) (k : A -> M B) h (P : A -> heap -> Prop) e :
  returns (m h) P -> (forall a h1, P a h1 -> raises (k a h1) e) ->
  raises (bind m k h) e.
Proof. unfold bind. destruct (m h) as [[a|e'] h1]; cbn; [auto|tauto]. Qed.

Lemma raises_assoc {A B C} (m : M A) (f : A -> M B) (g : B -> M C) h e :
  raises (bind m (fun x => bind (f x) g) h) e ->
  raises (bind (bind m f) g h) e.
Proof. now rewrite bind_assoc. Qed.

Lemma returns_inv {A} (r : result A * heap) Q :
  returns r Q -> exists a h', r = (Ok a, h') /\ Q a h'.
Proof. destruct r as [[a|e] h']; cbn; [eauto|tauto]. Qed.

Lemma raises_inv {A} (r : result A * heap) e :
  raises r e -> exists h', r = (Raise e, h').
Proof. destruct r as [[a|e'] h']; cbn; [tauto|intros ->; eauto]. Qed.

Lemma lookup_insert_ne' {A} (l : list A) i j x v :
  i <> j -> l !! j = v -> <[i:=x]> l !! j = v.
Proof. intros Hne <-. now apply list_lookup_insert_ne. Qed.

Lemma lookup_app_l' {A} (l k : list A) j v :
  (j < length l)%nat -> l !! j = v -> (l ++ k) !! j = v.
Proof. intros Hlt <-. now apply lookup_app_l. Qed.

(** ** Symbolic execution

    A program is run statement by statement; every store reached is given
    a name and its length is recorded, so that a lookup walks back through
    the writes and allocations to the store the run started from. *)

(** Arithmetic side conditions follow from bounds alone; the known
    disequalities are used as they are. *)
Ltac slia := repeat match goal with H : _ <> _ |- _ => clear H end; lia.
Ltac ne := first [assumption | apply not_eq_sym; assumption | slia].

(** [hl] solves a lookup in the current store, [dk] a lookup in a dict,
    [prim] the run of one operation, [step] moves past one statement. *)
Ltac hl :=
  repeat lazymatch goal with
  | |- <[_:=_]> _ !! _ = _ =>
      first [ apply lookup_insert_same; [slia | slia]
            | apply lookup_insert_ne'; [ne | ] ]
  | |- (_ ++ [_]) !! _ = _ =>
      first [ apply lookup_app_new; slia
            | apply lookup_app_l'; [slia | ] ]
  | |- ?hv !! _ = _ =>
      first [ unfold hv | eassumption | reflexivity ]
  end.

Ltac dk :=
  repeat first
    [ rewrite dict_get_set_eq
    | rewrite dict_get_set_ne by
        first [discriminate | apply axname_not_annotations] ];
  first [eassumption | reflexivity].

Ltac prim :=
  lazymatch goal with
  | |- trace _ _ _ = _ => eapply trace_run; [hl | dk | hl | eassumption]
  | |- annotations _ _ = _ => eapply annotations_run; [hl | dk | hl | dk]
  | |- setitem _ _ _ _ = _ => eapply setitem_run; hl
  | |- getitem_s _ _ _ = _ => eapply getitem_s_run; [hl | dk]
  | |- getitem_i _ _ _ = _ =>
      eapply getitem_i_run; [hl | first [reflexivity | slia] | solve [eauto 2] ]
  | |- alloc _ _ = _ => apply alloc_run
  | |- ret _ _ = _ => apply ret_run
  | |- copy _ _ = _ => eapply copy_run; hl
  | |- getattr_append _ _ = _ => eapply getattr_append_run; hl
  | |- call_append _ _ _ = _ => eapply call_append_run; hl
  | |- truediv _ (to_float _) _ = _ => apply truediv_float_run; assumption
  | |- truediv _ _ _ = _ => apply truediv_run; assumption
  | |- index_or_raise _ _ _ = _ => apply index_or_raise_ok; eassumption
  end.

Ltac name_heap H :=
  first
    [ is_var H
    | let hn := fresh "hh" in
      let E := fresh "E" in
      set (hn := H);
      lazymatch H with
      | <[?l:=?o]> ?hk =>
          pose proof (length_insert hk l o : length hn = length hk) as E;
          try match goal with Ek : length hk = _ |- _ => rewrite Ek in E end
      | ?hk ++ [?o] =>
          pose proof (length_app hk [o] : length hn = (length hk + 1)%nat) as E;
          try match goal with Ek : length hk = _ |- _ => rewrite Ek in E end
      end ].

Ltac norm_goal :=
  cbv beta; cbn [fst snd];
  repeat match goal with
         | E : length ?x = _ |- context [length ?x] => rewrite E
         end.

Ltac after_step :=
  norm_goal;
  lazymatch goal with
  | |- returns (?g ?H) _ => name_heap H
  | |- raises (?g ?H) _ => name_heap H
  | |- _ => idtac
  end.

Ltac step :=
  lazymatch goal with
  | |- returns (bind (bind _ _) _ _) _ => apply returns_assoc
  | |- raises (bind (bind _ _) _ _) _ => apply raises_assoc
  | |- returns (bind _ _ _) _ => eapply returns_bind; [prim | after_step]
  | |- raises (bind _ _ _) _ => eapply raises_bind; [prim | after_step]
  end.

(** ** The loop of generate_fock_chart *)

Section FockLoop.
Variable h0 : heap.
Variables c lay ann a0 : loc.
Variables dc dl d0 : list (string * value).
Variable modes : list Z.
Variable photonDists : list (list Q).
Variable mean : list Q.
Variable xlabels : value.
Hypothesis WF : wf_template h0 c lay ann a0 dc dl d0.

Local Abbreviation L := (length h0).
Local Abbreviation n := (numplots modes).
Local Abbreviation Inv := (Inv h0 c lay ann a0 dc dl d0 modes photonDists mean xlabels).
Local Abbreviation fresh := (fresh h0 modes).
Local Abbreviation axis_done := (axis_done h0 modes).
Local Abbreviation trace_done := (trace_done h0 modes photonDists xlabels).
Local Abbreviation ann_done := (ann_done d0 modes mean).
Local Abbreviation fock_final := (fock_final h0 c lay ann a0 dc dl d0 modes photonDists mean xlabels).

Lemma wf_bounds : (c < L /\ lay < L /\ ann < L /\ a0 < L)%nat.
Proof.
  destruct WF.
  repeat split; eapply lookup_lt_Some; eassumption.
Qed.

Lemma wf_ann_ne : ann <> c /\ ann <> lay /\ ann <> a0.
Proof. destruct WF. repeat split; intros ->; congruence. Qed.

(** What a step leaves alone carries the finished panels over. *)
Lemma axis_done_mono (h h' : heap) dl1 dl2 j :
  (forall l, fresh h l -> h' !! l = h !! l) ->
  (length h <= length h')%nat ->
  dict_get (axname j) dl2 = dict_get (axname j) dl1 ->
  axis_done h dl1 j -> axis_done h' dl2 j.
Proof.
  intros Hfr Hlen Hk (ax & dm & H1 & H2 & H3 & H4 & H5).
  exists ax, dm. unfold fresh in *.
  rewrite Hk, !Hfr by (unfold fresh; lia).
  repeat split; auto; lia.
Qed.

Lemma trace_done_mono (h h' : heap) j :
  (forall l, fresh h l -> h' !! l = h !! l) ->
  (length h <= length h')%nat ->
  h' !! (L + j)%nat = h !! (L + j)%nat ->
  trace_done h j -> trace_done h' j.
Proof.
  intros Hfr Hlen Hk (mk & ys & H1 & H2 & H3 & H4 & H5).
  exists mk, ys. unfold fresh in *.
  rewrite Hk, !Hfr by (unfold fresh; lia).
  repeat split; auto; lia.
Qed.

Lemma ann_done_mono (h h' : heap) al al' j :
  (forall a, al !! j = Some a -> al' !! j = Some a /\ h' !! a = h !! a) ->
  ann_done h al j -> ann_done h' al' j.
Proof.
  intros H (a & Ha & Hd). destruct (H a Ha) as [H1 H2].
  exists a. now rewrite H2.
Qed.

(** One iteration re-establishes the invariant: it fills trace [idx],
    adds axis [idx] to the layout and finishes annotation [idx]; all
    other objects of the store stay as they were. *)
Lemma Inv_step idx (h h' : heap) dl' al al' mk ys dm ax :
  Inv idx h dl' al ->
  (idx < n)%nat ->
  (length h <= length h')%nat ->
  (forall l, (l < length h)%nat -> l <> lay -> l <> ann ->
             l <> (L + idx)%nat -> (idx = 0%nat -> l <> a0) ->
             h' !! l = h !! l) ->
  (length h <= mk < length h')%nat -> (length h <= ys < length h')%nat ->
  (length h <= dm < length h')%nat -> (length h <= ax < length h')%nat ->
  h' !! (L + idx)%nat = Some (ODict (trace_dict xlabels mk ys idx)) ->
  h' !! mk = Some (ODict [("color", VStr "#1f9094")]) ->
  h' !! ys = Some (OList (map VFloat (row_at modes photonDists idx))) ->
  h' !! dm = Some (OList [VFloat (panel_lo modes idx);
                          VFloat (panel_hi modes idx)]) ->
  h' !! ax = Some (ODict (axis_dict modes dm idx)) ->
  h' !! lay = Some (ODict (dict_set (axname idx) (VRef ax) dl')) ->
  h' !! ann = Some (OList (map VRef al')) ->
  (idx = 0%nat /\ al' = al \/
   exists anew, (0 < idx)%nat /\ al' = al ++ [anew] /\
                (length h <= anew < length h')%nat) ->
  ann_done h' al' idx ->
  Inv (S idx) h' (dict_set (axname idx) (VRef ax) dl') al'.
Proof.
  intros I Hidx Hlen Hsame Hmk Hys Hdm Hax Ftr Fmk Fys Fdm Fax Flay Fann Hal Fan.
  destruct wf_bounds as (Bc & Blay & Bann & Ba0).
  destruct wf_ann_ne as (Nac & Nal & Naa).
  destruct WF as [_ _ _ _ _ _ Ncl Nca Nla].
  destruct I as [Ilen Ic Idata Ilay Iannot Iaxes Irest Iann Iallen Ial0
                 Ialfresh Ianns Ia0 Itodo Itraces Iframe].
  assert (Hold : forall l, fresh h l -> h' !! l = h !! l).
  { intros l [? ?]. apply Hsame; lia. }
  assert (Hal_old : forall j a, al !! j = Some a -> al' !! j = Some a).
  { intros j a Hj. destruct Hal as [[_ ->]|(anew & _ & -> & _)]; auto.
    now apply lookup_app_l_Some. }
  constructor.
  - lia.
  - rewrite Hsame by lia. exact Ic.
  - rewrite Hsame by lia. exact Idata.
  - exact Flay.
  - rewrite dict_get_set_ne by apply axname_not_annotations. exact Iannot.
  - intros j Hj. destruct (Nat.eq_dec j idx) as [->|Hne].
    + exists ax, dm. rewrite dict_get_set_eq. unfold fresh.
      repeat split; auto; lia.
    + eapply axis_done_mono; [exact Hold|exact Hlen| |apply Iaxes; lia].
      apply dict_get_set_ne. intros E. apply axname_inj in E. lia.
  - intros k Hk Ht Hf. rewrite dict_get_set_ne.
    + apply Irest; auto; intros j Hj; apply Hk; lia.
    + intros E. apply (Hk idx); auto.
  - exact Fann.
  - destruct Hal as [[-> ->]|(anew & Hpos & -> & _)].
    + rewrite Iallen. reflexivity.
    + rewrite length_app, Iallen. cbn. lia.
  - now apply Hal_old.
  - intros j a Hj Ha. unfold fresh.
    destruct Hal as [[_ ->]|(anew & Hpos & -> & Hanew)].
    + destruct (Ialfresh j a Hj Ha). lia.
    + apply lookup_app_Some in Ha as [Ha|[Hge Ha]].
      * destruct (Ialfresh j a Hj Ha). lia.
      * apply list_lookup_singleton_Some in Ha as [_ <-]. lia.
  - intros j Hj. destruct (Nat.eq_dec j idx) as [->|Hne]; [exact Fan|].
    eapply ann_done_mono; [|apply Ianns; lia].
    intros a Ha. split; [now apply Hal_old|].
    destruct j as [|j].
    + rewrite Ial0 in Ha. injection Ha as <-. apply Hsame; lia.
    + destruct (Ialfresh (S j) a ltac:(lia) Ha). apply Hsame; lia.
  - discriminate.
  - intros i Hi. rewrite Hsame by lia. apply Itodo. lia.
  - intros j Hj. destruct (Nat.eq_dec j idx) as [->|Hne].
    + exists mk, ys. unfold fresh. repeat split; auto; lia.
    + eapply trace_done_mono; [exact Hold|exact Hlen| |apply Itraces; lia].
      apply Hsame; lia.
  - intros l Hl H1 H2 H3 H4. rewrite Hsame by lia. now apply Iframe.
Qed.

(** One run of the loop body: it raises [IndexError] when the mode is not
    an index of [photonDists] or of [mean], and otherwise returns with the
    invariant of the next iteration. *)
Lemma fock_panel_step idx m h dl' al :
  Inv idx h dl' al -> (idx < n)%nat -> sorted modes !! idx = Some m ->
  match py_index photonDists m, py_index mean m with
  | Some _, Some _ =>
      returns (fock_panel (VRef c) modes photonDists mean xlabels idx m h)
        (fun _ h' => exists dl'' al', Inv (S idx) h' dl'' al')
  | _, _ =>
      raises (fock_panel (VRef c) modes photonDists mean xlabels idx m h)
        IndexError
  end.
Proof.
  intros I Hidx Hm.
  pose proof wf_bounds as (Bc & Blay & Bann & Ba0).
  pose proof wf_ann_ne as (Nac & Nal & Naa).
  pose proof (wf_c_lay _ _ _ _ _ _ _ _ WF) as Ncl.
  pose proof (wf_c_a0 _ _ _ _ _ _ _ _ WF) as Nca.
  pose proof (wf_lay_a0 _ _ _ _ _ _ _ _ WF) as Nla.
  pose proof (wf_layout _ _ _ _ _ _ _ _ WF) as Hlayout.
  pose proof I as I'.
  destruct I as [Ilen Ic Idata Ilay Iannot Iaxes Irest Iann Iallen Ial0
                 Ialfresh Ianns Ia0 Itodo Itraces Iframe].
  assert (Htr : map VRef (seq L n) !! idx = Some (VRef (L + idx)%nat)).
  { rewrite lookup_map, lookup_seq_lt by lia. reflexivity. }
  pose proof (Itodo idx ltac:(lia)) as Ht.
  assert (Hmode : mode_at modes idx = m) by (unfold mode_at; now rewrite Hm).
  unfold fock_panel.
  destruct (py_index photonDists m) as [row|] eqn:Hrow.
  2:{ repeat step. eapply raises_now.
      apply index_or_raise_none; assumption. }
  assert (Hrowat : row_at modes photonDists idx = row)
    by (unfold row_at; now rewrite Hmode, Hrow).
  assert (Hn0 : Z.of_nat n <> 0) by lia.
  destruct idx as [|i].
  - (* the first panel *)
    change (Z.of_nat 0 =? 0) with true. cbv iota.
    pose proof (Ia0 eq_refl) as Ha0.
    assert (Hal0 : map VRef al !! 0%nat = Some (VRef a0)).
    { rewrite lookup_map, Ial0. reflexivity. }
    destruct (py_index mean m) as [mu|] eqn:Hmu.
    2:{ repeat step. eapply raises_now.
        apply index_or_raise_none; assumption. }
    assert (Hmeanat : mean_at modes mean 0 = mu)
      by (unfold mean_at; now rewrite Hmode, Hmu).
    repeat step.
    eapply returns_last; [prim|].
    match goal with |- context [Inv _ ?H] =>
      set (h' := H);
      assert (E' : length h' = (length h + 1 + 1 + 1 + 1)%nat)
        by (unfold h'; rewrite length_insert; slia)
    end.
    eexists. exists al.
    apply (Inv_step 0%nat h h' dl' al al
             (length h) (length h + 1)%nat (length h + 1 + 1)%nat
             (length h + 1 + 1 + 1)%nat I' Hidx); try slia.
    + intros; hl.
    + hl.
    + hl.
    + rewrite Hrowat. hl.
    + hl.
    + unfold axis_dict. rewrite Hmode. hl.
    + hl.
    + hl.
    + left. auto.
    + exists a0. split; [assumption|].
      cbn [ann_dict]. unfold caption, ann_x, panel_lo. rewrite Hmeanat.
      hl.
  - (* a later panel: its annotation is a copy of the previous one *)
    change (Z.of_nat (S i) =? 0) with false. cbv iota.
    replace (Z.of_nat (S i) - 1) with (Z.of_nat i) by lia.
    destruct (Ianns i ltac:(lia)) as (ap & Hap & Hapd).
    assert (Bap : (ap < length h)%nat /\ ap <> lay /\ ap <> ann /\
                  ap <> (L + S i)%nat /\ ap <> c).
    { destruct i as [|i].
      - rewrite Ial0 in Hap. injection Hap as <-. repeat split; lia.
      - destruct (Ialfresh (S i) ap ltac:(lia) Hap). repeat split; lia. }
    destruct Bap as (Bap1 & Bap2 & Bap3 & Bap4 & Bap5).
    assert (Hprev : map VRef al !! i = Some (VRef ap)).
    { rewrite lookup_map, Hap. reflexivity. }
    assert (Hnew : forall X, (map VRef al ++ [X]) !! S i = Some X).
    { intros X. apply lookup_app_new. rewrite length_map, Iallen. lia. }
    destruct (py_index mean m) as [mu|] eqn:Hmu.
    2:{ repeat step. eapply raises_now.
        apply index_or_raise_none; assumption. }
    assert (Hmeanat : mean_at modes mean (S i) = mu)
      by (unfold mean_at; now rewrite Hmode, Hmu).
    repeat step.
    eapply returns_last; [prim|].
    match goal with |- context [Inv _ ?H] =>
      set (h' := H);
      assert (E' : length h' = (length h + 1 + 1 + 1 + 1 + 1)%nat)
        by (unfold h'; rewrite length_insert; slia)
    end.
    eexists. exists (al ++ [(length h + 1 + 1)%nat]).
    apply (Inv_step (S i) h h' dl' al _
             (length h) (length h + 1)%nat (length h + 1 + 1 + 1)%nat
             (length h + 1 + 1 + 1 + 1)%nat I' Hidx); try slia.
    + intros; hl.
    + hl.
    + hl.
    + rewrite Hrowat. hl.
    + hl.
    + unfold axis_dict. rewrite Hmode. hl.
    + hl.
    + rewrite map_app. hl.
    + right. eexists. split; [slia|]. split; [reflexivity|]. slia.
    + exists (length h + 1 + 1)%nat. split.
      * apply lookup_app_new. rewrite Iallen. slia.
      * cbn [ann_dict]. unfold caption, ann_x, panel_lo. rewrite Hmeanat.
        hl.
Qed.

Lemma sorted_length : length (sorted modes) = n.
Proof. unfold sorted. now rewrite merge_sort_Permutation. Qed.

Lemma drop_cons_inv {A} (l : list A) i x xs :
  drop i l = x :: xs -> l !! i = Some x /\ drop (S i) l = xs.
Proof.
  intros H. split.
  - rewrite <- (Nat.add_0_r i). rewrite <- (lookup_drop l i 0), H. reflexivity.
  - replace (S i) with (i + 1)%nat by lia.
    rewrite <- drop_drop, H. reflexivity.
Qed.

(** The loop from iteration [idx] on: it runs to the end when all the
    remaining modes are in range, and raises [IndexError] when one of
    them is not. *)
Lemma fock_loop xs : forall idx h dl' al,
  drop idx (sorted modes) = xs -> (idx <= n)%nat -> Inv idx h dl' al ->
  (Forall (fun m => py_index photonDists m <> None /\
                    py_index mean m <> None) xs ->
   returns (for_enumerate (fock_panel (VRef c) modes photonDists mean xlabels)
              idx xs h)
     (fun _ h' => exists dl'' al', Inv n h' dl'' al')) /\
  (Exists (fun m => py_index photonDists m = None \/
                    py_index mean m = None) xs ->
   raises (for_enumerate (fock_panel (VRef c) modes photonDists mean xlabels)
             idx xs h) IndexError).
Proof.
  induction xs as [|x xs IH]; intros idx h dl' al Hdrop Hle I.
  - split.
    + intros _. cbn.
      assert (idx = n) as ->.
      { apply (f_equal length) in Hdrop.
        rewrite length_drop, sorted_length in Hdrop. cbn in Hdrop. lia. }
      eauto.
    + intros H. inversion H.
  - apply drop_cons_inv in Hdrop as [Hx Hdrop].
    assert (Hidx : (idx < n)%nat).
    { apply lookup_lt_Some in Hx. now rewrite sorted_length in Hx. }
    pose proof (fock_panel_step idx x h dl' al I Hidx Hx) as Hstep.
    cbn [for_enumerate].
    split.
    + intros HF. apply Forall_cons in HF as [[Hg1 Hg2] HF].
      destruct (py_index photonDists x); [|congruence].
      destruct (py_index mean x); [|congruence].
      eapply returns_seq; [exact Hstep|].
      intros _ h1 (dl1 & al1 & I1). cbv beta.
      now apply (IH (S idx) h1 dl1 al1).
    + intros HE. apply Exists_cons in HE.
      destruct (py_index photonDists x) eqn:E1.
      2:{ now apply raises_first. }
      destruct (py_index mean x) eqn:E2.
      2:{ now apply raises_first. }
      destruct HE as [[HE|HE]|HE]; try discriminate.
      eapply raises_seq; [exact Hstep|].
      intros _ h1 (dl1 & al1 & I1). cbv beta.
      now apply (IH (S idx) h1 dl1 al1).
Qed.

(** The statements before the loop establish the invariant. *)
Lemma fock_init :
  let h1 := <[c := ODict (dict_set "data" (VRef (L + n)%nat) dc)]>
              ((h0 ++ replicate n (ODict [])) ++ [OList (map VRef (seq L n))]) in
  Inv 0 h1 dl [a0].
Proof.
  intros h1.
  pose proof wf_bounds as (Bc & Blay & Bann & Ba0).
  pose proof wf_ann_ne as (Nac & Nal & Naa).
  destruct WF as [Hc Hlayout Hlay Hannot Hann Ha0 Ncl Nca Nla].
  assert (Hlen : length h1 = (L + n + 1)%nat).
  { unfold h1. rewrite length_insert, !length_app, length_replicate.
    reflexivity. }
  assert (Hold : forall l, (l < L)%nat -> l <> c -> h1 !! l = h0 !! l).
  { intros l Hl Hne. unfold h1.
    rewrite list_lookup_insert_ne by auto.
    rewrite <- app_assoc. now apply lookup_app_l. }
  constructor.
  - lia.
  - unfold h1. apply list_lookup_insert_eq.
    rewrite !length_app. lia.
  - unfold h1. rewrite list_lookup_insert_ne by lia.
    apply lookup_app_new. rewrite length_app, length_replicate. reflexivity.
  - rewrite Hold by auto. exact Hlay.
  - exact Hannot.
  - intros j Hj. lia.
  - auto.
  - rewrite Hold by auto. exact Hann.
  - reflexivity.
  - reflexivity.
  - intros [|[|j]] a Hj Ha; [lia|discriminate|discriminate].
  - intros j Hj. lia.
  - intros _. rewrite Hold by auto. exact Ha0.
  - intros i Hi. unfold h1. rewrite list_lookup_insert_ne by lia.
    rewrite lookup_app_l by (rewrite length_app, length_replicate; lia).
    rewrite lookup_app_r by lia.
    apply lookup_replicate_2. lia.
  - intros j Hj. lia.
  - intros l Hl H1 H2 H3 H4. now apply Hold.
Qed.

(** Writes to the layout under keys other than the axes and
    ['annotations'], and allocations, keep the invariant. *)
Lemma Inv_update idx (h h' : heap) dl' dl'' al :
  Inv idx h dl' al ->
  (length h <= length h')%nat ->
  (forall l, (l < length h)%nat -> l <> lay -> h' !! l = h !! l) ->
  h' !! lay = Some (ODict dl'') ->
  (forall k, k <> "title" -> k <> "font" ->
             dict_get k dl'' = dict_get k dl') ->
  Inv idx h' dl'' al.
Proof.
  intros I Hlen Hsame Flay Hkeys.
  pose proof wf_bounds as (Bc & Blay & Bann & Ba0).
  pose proof wf_ann_ne as (Nac & Nal & Naa).
  destruct WF as [_ _ _ _ _ _ Ncl Nca Nla].
  destruct I as [Ilen Ic Idata Ilay Iannot Iaxes Irest Iann Iallen Ial0
                 Ialfresh Ianns Ia0 Itodo Itraces Iframe].
  assert (Hold : forall l, fresh h l -> h' !! l = h !! l).
  { intros l [? ?]. apply Hsame; lia. }
  constructor; auto.
  - lia.
  - rewrite Hsame by lia. exact Ic.
  - rewrite Hsame by lia. exact Idata.
  - rewrite Hkeys by discriminate. exact Iannot.
  - intros j Hj. eapply axis_done_mono; [exact Hold|exact Hlen| |auto].
    apply Hkeys; [apply axname_not_title|apply axname_not_font].
  - intros k Hk Ht Hf. rewrite Hkeys by auto. now apply Irest.
  - rewrite Hsame by lia. exact Iann.
  - intros j a Hj Ha. destruct (Ialfresh j a Hj Ha). split; lia.
  - intros j Hj. eapply ann_done_mono; [|apply Ianns; lia].
    intros a Ha. split; [assumption|].
    destruct j as [|j].
    + rewrite Ial0 in Ha. injection Ha as <-. apply Hsame; lia.
    + destruct (Ialfresh (S j) a ltac:(lia) Ha). apply Hsame; lia.
  - intros ->. rewrite Hsame by lia. auto.
  - intros i Hi. rewrite Hsame by lia. now apply Itodo.
  - intros j Hj. eapply trace_done_mono; [exact Hold|exact Hlen| |auto].
    destruct (Itraces j Hj) as (mk & ys & H1 & _).
    apply lookup_lt_Some in H1. apply Hsame; lia.
  - intros l Hl H1 H2 H3 H4. rewrite Hsame by lia. now apply Iframe.
Qed.

Lemma in_sorted m : In m (sorted modes) <-> In m modes.
Proof.
  unfold sorted. split; apply Permutation_in.
  - apply merge_sort_Permutation.
  - symmetry. apply merge_sort_Permutation.
Qed.

(** The statements before the loop reset ['data']. *)
Lemma fock_prologue :
  generate_fock_chart (VRef c) modes photonDists mean xlabels h0 =
  bind (for_enumerate (fock_panel (VRef c) modes photonDists mean xlabels)
          0 (sorted modes))
       (fun _ => fock_epilogue (VRef c))
       (<[c := ODict (dict_set "data" (VRef (L + n)%nat) dc)]>
          ((h0 ++ replicate n (ODict [])) ++ [OList (map VRef (seq L n))])).
Proof.
  unfold generate_fock_chart.
  pose proof wf_bounds as (Bc & _).
  rewrite (bind_ok _ _ _ _ _ (alloc_dicts_run _ _)).
  rewrite (bind_ok _ _ _ _ _ (alloc_run _ _)).
  erewrite bind_ok.
  2:{ eapply setitem_run. rewrite <- app_assoc.
      rewrite lookup_app_l by exact Bc. apply (wf_c _ _ _ _ _ _ _ _ WF). }
  rewrite length_app, length_replicate. reflexivity.
Qed.

Lemma fock_epilogue_spec h dl' al :
  Inv n h dl' al -> (0 < n)%nat ->
  returns (fock_epilogue (VRef c) h)
    (fun v h' => v = VRef c /\ exists dl'', fock_final h' dl'' al).
Proof.
  intros I Hn.
  pose proof wf_bounds as (Bc & Blay & Bann & Ba0).
  pose proof (wf_c_lay _ _ _ _ _ _ _ _ WF) as Ncl.
  pose proof (wf_layout _ _ _ _ _ _ _ _ WF) as Hlayout.
  pose proof I as I'.
  destruct I as [Ilen Ic Idata Ilay Iannot Iaxes Irest Iann Iallen Ial0
                 Ialfresh Ianns Ia0 Itodo Itraces Iframe].
  destruct (Iaxes 0%nat Hn) as (ax & dm & Hax0 & [Fax1 Fax2] & Hax & _).
  rewrite axname_0 in Hax0.
  unfold fock_epilogue.
  do 3 step.
  match goal with
  | hv := <[ax:=_]> h |- _ =>
      assert (Ehh : hv = h) by (apply list_insert_id; exact Hax);
      clearbody hv; subst hv
  end.
  repeat step.
  unfold ret. cbn [returns]. split; [reflexivity|].
  eexists. split; [|split].
  - eapply (Inv_update n h _ dl' _ al I'); [slia| |hl|].
    + intros; hl.
    + intros k Ht Hf. now rewrite !dict_get_set_ne by auto.
  - rewrite !dict_get_set_ne by discriminate. apply dict_get_set_eq.
  - eexists. split; [apply dict_get_set_eq|]. hl.
Qed.

(** generate_fock_chart on a well-formed template and modes in range:
    it returns the chart it was given, in a store described by
    [fock_final]. *)
Lemma fock_chart_returns :
  modes <> [] -> modes_in_range modes photonDists mean ->
  returns (generate_fock_chart (VRef c) modes photonDists mean xlabels h0)
    (fun v h' => v = VRef c /\ exists dl' al, fock_final h' dl' al).
Proof.
  intros Hne Hrange. rewrite fock_prologue.
  assert (Hn : (0 < n)%nat).
  { unfold numplots. destruct modes; [congruence|cbn; lia]. }
  destruct (fock_loop (sorted modes) 0%nat _ dl [a0] eq_refl (Nat.le_0_l _)
              fock_init) as [HR _].
  eapply returns_seq.
  - apply HR. apply Forall_forall. intros m Hm%list_elem_of_In.
    apply Hrange. now apply in_sorted.
  - intros _ h1 (dl1 & al1 & I1). cbv beta.
    eapply returns_impl; [apply (fock_epilogue_spec h1 dl1 al1 I1 Hn)|].
    cbv beta. intros v h' [-> [dl2 F]]. eauto.
Qed.

(** A mode that is not an index of [photonDists] or of [mean] makes the
    call raise [IndexError]. *)
Lemma fock_chart_raises m :
  In m modes -> py_index photonDists m = None \/ py_index mean m = None ->
  raises (generate_fock_chart (VRef c) modes photonDists mean xlabels h0)
    IndexError.
Proof.
  intros Hin Hbad. rewrite fock_prologue.
  destruct (fock_loop (sorted modes) 0%nat _ dl [a0] eq_refl (Nat.le_0_l _)
              fock_init) as [_ HX].
  apply raises_first. apply HX.
  apply Exists_exists. exists m.
  split; [apply list_elem_of_In; now apply in_sorted|exact Hbad].
Qed.
End FockLoop.

(** ** The panel domains as numbers *)

Lemma float_lit_001 :
  float_lit (1 # 100) = (5764607523034235 # 576460752303423488)%Q.
Proof. vm_compute. reflexivity. Qed.

Lemma float_lit_half : float_lit (1 # 2) = (1 # 2)%Q.
Proof. vm_compute. reflexivity. Qed.

Section Domains.
Variable modes : list Z.
Local Abbreviation n := (numplots modes).
Hypothesis Hn : (0 < n)%nat.

Local Abbreviation p := (Z.to_pos (Z.of_nat n)).
Local Abbreviation eps := (1 # 9007199254740992)%Q.

(** The fraction [i/n] as a quotient of integers. *)
Lemma frac_eq (i : Z) :
  (of_int i / of_int (Z.of_nat n) == i # Z.to_pos (Z.of_nat n))%Q.
Proof.
  unfold of_int. rewrite Qmake_Qdiv.
  now rewrite Z2Pos.id by lia.
Qed.

Lemma frac_bounds (i : Z) :
  0 <= i <= Z.of_nat n -> (0 <= i # p)%Q /\ (i # p <= 1)%Q.
Proof.
  intros Hi. unfold Qle. cbn. rewrite Z2Pos.id by lia. lia.
Qed.

Lemma frac_le (i j : Z) : i <= j -> (i # p <= j # p)%Q.
Proof. intros H. unfold Qle. cbn. nia. Qed.

Lemma frac_succ (i : Z) : (i + 1 # p == (i # p) + (1 # p))%Q.
Proof. unfold Qeq, Qplus. cbn. nia. Qed.

Lemma dXa_cases i :
  (i = 0%nat /\ dXa i = 0%Q) \/
  (i <> 0%nat /\ dXa i = (5764607523034235 # 576460752303423488)%Q).
Proof.
  unfold dXa. rewrite float_lit_001.
  destruct (Z.eqb_spec (Z.of_nat i) 0); cbn; [left|right];
    split; auto; lia.
Qed.

Lemma dXb_cases i :
  (S i = n /\ dXb modes i = 0%Q) \/
  (S i <> n /\ dXb modes i = (5764607523034235 # 576460752303423488)%Q).
Proof.
  unfold dXb. rewrite float_lit_001.
  destruct (Z.eqb_spec (Z.of_nat i) (Z.of_nat n - 1)); cbn;
    [left|right]; split; auto; lia.
Qed.

(** The quotient [i/n] of two ints, rounded once. *)
Lemma fdiv_frac (i : Z) :
  0 <= i <= Z.of_nat n ->
  (Qabs (fdiv (of_int i) (of_int (Z.of_nat n)) - (i # p)) <= eps)%Q.
Proof.
  intros Hi. unfold fdiv. rewrite (b64_compat _ _ (frac_eq i)).
  destruct (frac_bounds i Hi) as [H0 H1].
  apply b64_near_2; lra.
Qed.

Lemma panel_lo_near i :
  (i < n)%nat ->
  (Qabs (panel_lo modes i - ((Z.of_nat i # p) + dXa i)) <= 2 * eps)%Q.
Proof.
  intros Hi. unfold panel_lo, fadd.
  pose proof (fdiv_frac (Z.of_nat i) ltac:(lia)) as Ha.
  destruct (frac_bounds (Z.of_nat i) ltac:(lia)) as [H0 H1].
  set (a := fdiv _ _) in *. set (r := (Z.of_nat i # p)%Q) in *.
  apply Qabs_Qle_condition in Ha as [Ha1 Ha2].
  assert (Hb : (Qabs (b64 (a + dXa i) - (a + dXa i)) <= eps)%Q).
  { apply b64_near_2;
      destruct (dXa_cases i) as [[_ ->]|[_ ->]]; lra. }
  apply Qabs_Qle_condition in Hb as [Hb1 Hb2].
  apply Qabs_Qle_condition. split; lra.
Qed.

Lemma panel_hi_near i :
  (i < n)%nat ->
  (Qabs (panel_hi modes i - ((Z.of_nat i + 1 # p) - dXb modes i))
   <= 2 * eps)%Q.
Proof.
  intros Hi. unfold panel_hi, fsub.
  pose proof (fdiv_frac (Z.of_nat i + 1) ltac:(lia)) as Ha.
  destruct (frac_bounds (Z.of_nat i + 1) ltac:(lia)) as [H0 H1].
  set (a := fdiv _ _) in *. set (r := (Z.of_nat i + 1 # p)%Q) in *.
  apply Qabs_Qle_condition in Ha as [Ha1 Ha2].
  assert (Hb : (Qabs (b64 (a - dXb modes i) - (a - dXb modes i)) <= eps)%Q).
  { apply b64_near_2;
      destruct (dXb_cases i) as [[_ ->]|[_ ->]]; lra. }
  apply Qabs_Qle_condition in Hb as [Hb1 Hb2].
  apply Qabs_Qle_condition. split; lra.
Qed.

Lemma panel_lo_first : panel_lo modes 0 = 0%Q.
Proof.
  unfold panel_lo, fadd, fdiv. change (dXa 0) with 0%Q.
  rewrite (b64_compat _ _ (frac_eq (Z.of_nat 0))).
  rewrite (b64_compat (Z.of_nat 0 # p) 0) by reflexivity.
  reflexivity.
Qed.

Lemma panel_hi_last : panel_hi modes (n - 1) = 1%Q.
Proof.
  unfold panel_hi, fsub, fdiv.
  destruct (dXb_cases (n - 1)) as [[_ ->]|[H _]]; [|lia].
  rewrite (b64_compat _ _ (frac_eq _)).
  rewrite (b64_compat (_ # p) 1).
  - vm_compute. reflexivity.
  - unfold Qeq. cbn. rewrite Z2Pos.id by lia. lia.
Qed.

(** Panels to the left end before panels to the right begin. *)
Lemma panel_disjoint i j :
  (i < j < n)%nat -> (panel_hi modes i < panel_lo modes j)%Q.
Proof.
  intros Hij.
  pose proof (panel_hi_near i ltac:(lia)) as Hh.
  pose proof (panel_lo_near j ltac:(lia)) as Hl.
  destruct (dXb_cases i) as [[H _]|[_ Eb]]; [lia|]. rewrite Eb in Hh.
  destruct (dXa_cases j) as [[H _]|[_ Ea]]; [lia|]. rewrite Ea in Hl.
  pose proof (frac_le (Z.of_nat i + 1) (Z.of_nat j) ltac:(lia)) as Hle.
  apply Qabs_Qle_condition in Hh as [Hh1 Hh2].
  apply Qabs_Qle_condition in Hl as [Hl1 Hl2].
  lra.
Qed.

(** The double [0.01] is [0.01] to within [2^-60]. *)
Lemma gap_near :
  (Qabs ((5764607523034235 # 576460752303423488) - (1 # 100)) <= eps)%Q.
Proof. apply Qabs_Qle_condition. split; reflexivity || discriminate. Qed.

(** The width [0.5/n] between the left edge and the caption. *)
Lemma half_width_near :
  (Qabs (fdiv (float_lit (1 # 2)) (to_float (Z.of_nat n)) - (1 # 2 * p))
   <= 2 * eps)%Q.
Proof.
  rewrite float_lit_half. unfold fdiv, to_float.
  assert (Hq : (1 <= inject_Z (Z.of_nat n))%Q).
  { change 1%Q with (inject_Z 1). rewrite <- Zle_Qle. lia. }
  pose proof (b64_relative _ Hq) as Hf. rewrite pow2_m53 in Hf.
  set (f := b64 (inject_Z (Z.of_nat n))) in *.
  set (m := inject_Z (Z.of_nat n)) in *.
  apply Qabs_Qle_condition in Hf as [Hf1 Hf2].
  assert (Hfpos : (0 < f)%Q) by lra.
  assert (Hm0 : ~ (m == 0)%Q) by (intros H; lra).
  assert (Hf0 : ~ (f == 0)%Q) by (intros H; lra).
  assert (Em : (1 # 2 * p == (1 # 2) / m)%Q).
  { unfold m. rewrite Qmake_Qdiv. rewrite Pos2Z.inj_mul, Z2Pos.id by lia.
    rewrite inject_Z_mult. field. exact Hm0. }
  (* the quotient by the rounded divisor *)
  assert (Hd : (Qabs ((1 # 2) / f - (1 # 2) / m) <= eps)%Q).
  { assert (E : ((1 # 2) / f - (1 # 2) / m == (1 # 2) * (m - f) / (m * f))%Q).
    { field. split; assumption. }
    rewrite E. apply Qabs_Qle_condition.
    assert (Hmf : (0 < m * f)%Q) by (apply Qmult_lt_0_compat; lra).
    split.
    - apply Qle_shift_div_l; [exact Hmf|]. nra.
    - apply Qle_shift_div_r; [exact Hmf|]. nra. }
  assert (Hq2 : (0 < (1 # 2) / f)%Q /\ ((1 # 2) / f <= 1)%Q).
  { split.
    - apply Qlt_shift_div_l; [exact Hfpos|]. lra.
    - apply Qle_shift_div_r; [exact Hfpos|]. lra. }
  destruct Hq2 as [Hq2 Hq3].
  pose proof (b64_near_2 ((1 # 2) / f) ltac:(lra) ltac:(lra)) as Hb.
  rewrite Em.
  apply Qabs_Qle_condition in Hb as [Hb1 Hb2].
  apply Qabs_Qle_condition in Hd as [Hd1 Hd2].
  apply Qabs_Qle_condition. split; lra.
Qed.

Lemma ann_x_near i :
  (i < n)%nat ->
  (Qabs (ann_x modes i - ((Z.of_nat i # p) + dXa i + (1 # 2 * p)))
   <= 5 * eps)%Q.
Proof.
  intros Hi. unfold ann_x, fadd.
  pose proof (panel_lo_near i Hi) as Hl.
  pose proof half_width_near as Hw.
  destruct (frac_bounds (Z.of_nat i) ltac:(lia)) as [H0 H1].
  assert (Hh : (0 < 1 # 2 * p)%Q /\ (1 # 2 * p <= 1 # 2)%Q).
  { unfold Qlt, Qle. cbn. lia. }
  destruct Hh as [Hh0 Hh1].
  set (lo := panel_lo modes i) in *. set (w := fdiv _ _) in *.
  set (r := (Z.of_nat i # p)%Q) in *. set (hw := (1 # 2 * p)%Q) in *.
  apply Qabs_Qle_condition in Hl as [Hl1 Hl2].
  apply Qabs_Qle_condition in Hw as [Hw1 Hw2].
  assert (Hb : (Qabs (b64 (lo + w) - (lo + w)) <= eps)%Q).
  { apply b64_near_2;
      destruct (dXa_cases i) as [[_ E]|[_ E]]; rewrite E in *; lra. }
  apply Qabs_Qle_condition in Hb as [Hb1 Hb2].
  apply Qabs_Qle_condition. split; lra.
Qed.
End Domains.

Section Covering.
Variable modes : list Z.
Local Abbreviation n := (numplots modes).
Hypothesis Hn : (0 < n)%nat.

Lemma panel_cover_from k : forall i, (i + k = n - 1)%nat ->
  forall x, (panel_lo modes i <= x)%Q -> (x <= 1)%Q ->
  exists j, (j < n)%nat /\
    ((panel_lo modes j <= x /\ x <= panel_hi modes j)%Q \/
     ((S j < n)%nat /\ (panel_hi modes j < x /\ x < panel_lo modes (S j))%Q)).
Proof.
  induction k as [|k IH]; intros i Hi x Hlo Hx.
  - exists i. split; [lia|]. left. split; [assumption|].
    replace i with (n - 1)%nat by lia. now rewrite panel_hi_last.
  - destruct (Qlt_le_dec (panel_hi modes i) x) as [Hgt|Hle].
    + destruct (Qlt_le_dec x (panel_lo modes (S i))) as [Hlt|Hge].
      * exists i. split; [lia|]. right. split; [lia|]. split; assumption.
      * apply (IH (S i)); [lia|assumption|assumption].
    + exists i. split; [lia|]. left. split; assumption.
Qed.

(** Every point of [0, 1] lies in a panel or in a seam between
    neighbours. *)
Lemma panel_cover x :
  (0 <= x)%Q -> (x <= 1)%Q ->
  exists j, (j < n)%nat /\
    ((panel_lo modes j <= x /\ x <= panel_hi modes j)%Q \/
     ((S j < n)%nat /\ (panel_hi modes j < x /\ x < panel_lo modes (S j))%Q)).
Proof.
  intros H0 H1. apply (panel_cover_from (n - 1) 0%nat); [lia| |assumption].
  now rewrite panel_lo_first.
Qed.
End Covering.

(** ** The returned bar chart *)

Lemma at_path_nil (h : heap) v : at_path h v [] v.
Proof. reflexivity. Qed.

Lemma at_path_str (h : heap) l d k x path w :
  h !! l = Some (ODict d) -> dict_get k d = Some x ->
  at_path h x path w -> at_path h (VRef l) (KStr k :: path) w.
Proof.
  intros Hl Hk Hp. unfold at_path. cbn [subscript].
  now rewrite (bind_ok _ _ _ _ _ (getitem_s_run _ _ _ _ _ Hl Hk)).
Qed.

Lemma at_path_idx (h : heap) l xs (i : nat) x path w :
  h !! l = Some (OList xs) -> xs !! i = Some x ->
  at_path h x path w -> at_path h (VRef l) (KIdx (Z.of_nat i) :: path) w.
Proof.
  intros Hl Hk Hp. unfold at_path. cbn [subscript].
  now rewrite (bind_ok _ _ _ _ _ (getitem_i_run _ _ _ _ _ _ Hl eq_refl Hk)).
Qed.

Lemma getitem_s_pure v k (h : heap) : snd (getitem_s v k h) = h.
Proof.
  destruct v; try reflexivity. unfold getitem_s, bind, read.
  destruct (h !! l) as [[d|xs]|]; try reflexivity.
  destruct (dict_get k d); reflexivity.
Qed.

Lemma getitem_i_pure v i (h : heap) : snd (getitem_i v i h) = h.
Proof.
  destruct v; try reflexivity.
  - unfold getitem_i, bind, index_or_raise.
    destruct (py_index (list_ascii_of_string s) i); reflexivity.
  - unfold getitem_i, bind, read, index_or_raise.
    destruct (h !! l) as [[d|xs]|]; try reflexivity.
    destruct (py_index xs i); reflexivity.
Qed.

Lemma at_path_app (h : heap) v p x q w :
  at_path h v p x -> at_path h x q w -> at_path h v (p ++ q) w.
Proof.
  unfold at_path. revert v. induction p as [|k p IH]; intros v Hp Hq.
  - cbn in Hp. injection Hp as ->. exact Hq.
  - destruct k as [s|i]; cbn [subscript app] in *.
    + apply bind_inv_ok in Hp as (y & h1 & E & Hp).
      pose proof (getitem_s_pure v s h) as Hh. rewrite E in Hh. cbn in Hh.
      subst h1. rewrite (bind_ok _ _ _ _ _ E). now apply IH.
    + apply bind_inv_ok in Hp as (y & h1 & E & Hp).
      pose proof (getitem_i_pure v i h) as Hh. rewrite E in Hh. cbn in Hh.
      subst h1. rewrite (bind_ok _ _ _ _ _ E). now apply IH.
Qed.

Section FockClaims.
Variable h0 : heap.
Variables c lay ann a0 : loc.
Variables dc dl d0 : list (string * value).
Variable modes : list Z.
Variable photonDists : list (list Q).
Variable mean : list Q.
Variable xlabels : value.
Hypothesis WF : wf_template h0 c lay ann a0 dc dl d0.
Hypothesis RANGE : modes_in_range modes photonDists mean.

Local Abbreviation n := (numplots modes).
Local Abbreviation run :=
  (generate_fock_chart (VRef c) modes photonDists mean xlabels h0).

(** What the returned chart looks like, panel by panel. *)
Lemma fock_chart_panels :
  modes <> [] ->
  exists h' al,
    run = (Ok (VRef c), h') /\
    at_path h' (VRef c) [KStr "layout"; KStr "annotations"] (VRef ann) /\
    h' !! ann = Some (OList (map VRef al)) /\
    length al = n /\
    (forall l, (l < length h0)%nat -> l <> c -> l <> lay -> l <> ann ->
               l <> a0 -> h' !! l = h0 !! l) /\
    forall idx, (idx < n)%nat ->
      exists t mk ys ax dm a,
        at_path h' (VRef c) [KStr "data"; KIdx (Z.of_nat idx)] (VRef t) /\
        h' !! t = Some (ODict (trace_dict xlabels mk ys idx)) /\
        h' !! ys = Some (OList (map VFloat (row_at modes photonDists idx))) /\
        at_path h' (VRef c) [KStr "layout"; KStr (axname idx)] (VRef ax) /\
        h' !! ax = Some (ODict (axis_dict modes dm idx)) /\
        h' !! dm = Some (OList [VFloat (panel_lo modes idx);
                                VFloat (panel_hi modes idx)]) /\
        al !! idx = Some a /\
        h' !! a = Some (ODict (ann_dict modes mean d0 idx)).
Proof.
  intros Hne.
  pose proof (fock_chart_returns h0 c lay ann a0 dc dl d0 modes photonDists
                mean xlabels WF Hne RANGE) as H.
  apply returns_inv in H as (v & h' & Hrun & -> & dl' & al & I & _).
  assert (Hn : (0 < n)%nat).
  { unfold numplots. destruct modes; [congruence|cbn; lia]. }
  destruct I as [Ilen Ic Idata Ilay Iannot Iaxes Irest Iann Iallen Ial0
                 Ialfresh Ianns Ia0 Itodo Itraces Iframe].
  pose proof (wf_layout _ _ _ _ _ _ _ _ WF) as Hlayout.
  assert (Hlay' : dict_get "layout" (dict_set "data" (VRef (length h0 + n)%nat) dc)
                  = Some (VRef lay)).
  { now rewrite dict_get_set_ne by discriminate. }
  exists h', al. split; [exact Hrun|].
  split. { eapply at_path_str; eauto. eapply at_path_str; eauto. apply at_path_nil. }
  split; [exact Iann|].
  split. { rewrite Iallen. lia. }
  split; [exact Iframe|].
  intros idx Hidx.
  destruct (Itraces idx Hidx) as (mk & ys & Ht & _ & _ & _ & Hys).
  destruct (Iaxes idx Hidx) as (ax & dm & Hk & _ & Hax & _ & Hdm).
  destruct (Ianns idx Hidx) as (a & Ha & Had).
  exists (length h0 + idx)%nat, mk, ys, ax, dm, a.
  repeat split; auto.
  - eapply at_path_str; [exact Ic|apply dict_get_set_eq|].
    eapply at_path_idx; [exact Idata| |apply at_path_nil].
    rewrite lookup_map, lookup_seq_lt by lia. reflexivity.
  - eapply at_path_str; eauto. eapply at_path_str; eauto. apply at_path_nil.
Qed.

Lemma mode_at_lookup idx m :
  sorted modes !! idx = Some m -> mode_at modes idx = m.
Proof. unfold mode_at. now intros ->. Qed.

Lemma sorted_lookup_range idx m :
  sorted modes !! idx = Some m ->
  exists row mu, py_index photonDists m = Some row /\
                 py_index mean m = Some mu.
Proof.
  intros Hm. apply list_elem_of_lookup_2, list_elem_of_In in Hm.
  apply (in_sorted modes) in Hm. destruct (RANGE m Hm) as [H1 H2].
  destruct (py_index photonDists m), (py_index mean m); try congruence.
  eauto.
Qed.

Lemma sorted_lookup_lt idx :
  (idx < n)%nat -> exists m, sorted modes !! idx = Some m.
Proof.
  intros H. apply lookup_lt_is_Some. now rewrite sorted_length.
Qed.

Lemma ann_dict_text idx :
  dict_get "text" (ann_dict modes mean d0 idx)
  = Some (VStr (caption modes mean idx)).
Proof.
  destruct idx; cbn [ann_dict];
    rewrite dict_get_set_ne by discriminate; apply dict_get_set_eq.
Qed.

Lemma ann_dict_x idx :
  dict_get "x" (ann_dict modes mean d0 idx) = Some (VFloat (ann_x modes idx)).
Proof. destruct idx; cbn [ann_dict]; apply dict_get_set_eq. Qed.
End FockClaims.

Lemma nonempty_of_lt (modes : list Z) idx :
  (idx < length modes)%nat -> modes <> [].
Proof. intros H ->. cbn in H. lia. Qed.

(** The gaps the code adds are the double [0.01], which is [0.01] to
    within [2^-53]. *)
Lemma gap_left_dXa idx :
  (Qabs (dXa idx - gap_left idx) <= 1 # 9007199254740992)%Q.
Proof.
  unfold dXa, gap_left. destruct idx.
  - vm_compute. discriminate.
  - change (Z.of_nat (S idx) =? 0) with false. cbn [negb Nat.eqb].
    rewrite float_lit_001. apply gap_near.
Qed.

Lemma gap_right_dXb modes idx :
  (0 < length modes)%nat ->
  (Qabs (dXb modes idx - gap_right (length modes) idx)
   <= 1 # 9007199254740992)%Q.
Proof.
  intros Hn. unfold dXb, gap_right, numplots.
  destruct (Z.eqb_spec (Z.of_nat idx) (Z.of_nat (length modes) - 1)),
    (Nat.eqb_spec idx (length modes - 1)); cbn [negb]; try lia.
  - vm_compute. discriminate.
  - rewrite float_lit_001. apply gap_near.
Qed.

Lemma frac_div (modes : list Z) (i : Z) :
  (0 < numplots modes)%nat ->
  (inject_Z i / inject_Z (Z.of_nat (length modes))
   == i # Z.to_pos (Z.of_nat (numplots modes)))%Q.
Proof.
  intros Hn. unfold numplots in *.
  rewrite (Qmake_Qdiv i), Z2Pos.id by lia. reflexivity.
Qed.

Lemma half_div (modes : list Z) :
  (0 < numplots modes)%nat ->
  ((1 # 2) / inject_Z (Z.of_nat (length modes))
   == 1 # 2 * Z.to_pos (Z.of_nat (numplots modes)))%Q.
Proof.
  intros Hn. unfold numplots in *.
  rewrite (Qmake_Qdiv 1 (2 * _)), Pos2Z.inj_mul, Z2Pos.id by lia.
  rewrite inject_Z_mult. field.
  intros H. unfold Qeq in H. cbn in H. lia.
Qed.

(** The bounds of a panel, against the exact values of the
    specification. *)
Lemma panel_bounds_near (modes : list Z) idx :
  (idx < length modes)%nat ->
  let n := length modes in
  (Qabs (panel_lo modes idx
         - (inject_Z (Z.of_nat idx) / inject_Z (Z.of_nat n) + gap_left idx))
   <= 1 # 2251799813685248)%Q /\
  (Qabs (panel_hi modes idx
         - (inject_Z (Z.of_nat idx + 1) / inject_Z (Z.of_nat n)
            - gap_right n idx))
   <= 1 # 2251799813685248)%Q /\
  (Qabs (ann_x modes idx
         - (inject_Z (Z.of_nat idx) / inject_Z (Z.of_nat n) + gap_left idx
            + (1 # 2) / inject_Z (Z.of_nat n)))
   <= 1 # 1125899906842624)%Q.
Proof.
  intros Hidx n. subst n.
  assert (Hn : (0 < numplots modes)%nat) by (unfold numplots; lia).
  pose proof (panel_lo_near modes Hn idx Hidx) as Hlo.
  pose proof (panel_hi_near modes Hn idx Hidx) as Hhi.
  pose proof (ann_x_near modes Hn idx Hidx) as Hx.
  pose proof (gap_left_dXa idx) as Ga.
  pose proof (gap_right_dXb modes idx ltac:(lia)) as Gb.
  rewrite !(frac_div modes _ Hn), (half_div modes Hn).
  set (p := Z.to_pos (Z.of_nat (numplots modes))) in *.
  apply Qabs_Qle_condition in Hlo as [? ?].
  apply Qabs_Qle_condition in Hhi as [? ?].
  apply Qabs_Qle_condition in Hx as [? ?].
  apply Qabs_Qle_condition in Ga as [? ?].
  apply Qabs_Qle_condition in Gb as [? ?].
  repeat split; apply Qabs_Qle_condition; split; lra.
Qed.

(** C2: the x axis of the panel at position [idx] has the domain
    [idx/n + gapLeft, (idx+1)/n - gapRight], computed in binary64: each
    bound is the rounded sum or difference of the rounded quotient and the
    double 0.01, every rounding being to the nearest binary64 number, ties
    to even, and lies within [2^-51] of the exact value.  Panels further
    left end before panels further right begin, neighbours are separated by
    a seam of 0.01 on either side of their boundary, the first panel starts
    at 0 and the last ends at 1, exactly, and panels and seams together
    cover [0, 1]. *)
Theorem fock_panel_domain (h0 : heap) (c lay ann a0 : loc)
    (dc dl d0 : list (string * value)) (modes : list Z)
    (photonDists : list (list Q)) (mean : list Q) (xlabels : value)
    (idx : nat) :
  wf_template h0 c lay ann a0 dc dl d0 ->
  modes_in_range modes photonDists mean ->
  (idx < length modes)%nat ->
  let n := length modes in
  let quot := fun i : Z => b64 (inject_Z i / inject_Z (Z.of_nat n)) in
  exists h' dom lo hi,
    generate_fock_chart (VRef c) modes photonDists mean xlabels h0
      = (Ok (VRef c), h') /\
    at_path h' (VRef c) [KStr "layout"; KStr (axname idx); KStr "domain"] dom /\
    list_at h' dom [VFloat lo; VFloat hi] /\
    lo = panel_lo modes idx /\ hi = panel_hi modes idx /\
    lo = b64 (quot (Z.of_nat idx)
              + (if (idx =? 0)%nat then 0 else b64 (1 # 100))) /\
    hi = b64 (quot (Z.of_nat idx + 1)
              - (if (idx =? n - 1)%nat then 0 else b64 (1 # 100))) /\
    (exists ql qh g : Q,
       nearest64 (inject_Z (Z.of_nat idx) / inject_Z (Z.of_nat n)) ql /\
       nearest64 (inject_Z (Z.of_nat idx + 1) / inject_Z (Z.of_nat n)) qh /\
       nearest64 (1 # 100) g /\
       nearest64 (ql + (if (idx =? 0)%nat then 0 else g)) lo /\
       nearest64 (qh - (if (idx =? n - 1)%nat then 0 else g)) hi) /\
    (Qabs (lo - (inject_Z (Z.of_nat idx) / inject_Z (Z.of_nat n)
                 + gap_left idx))
     <= 1 # 2251799813685248)%Q /\
    (Qabs (hi - (inject_Z (Z.of_nat idx + 1) / inject_Z (Z.of_nat n)
                 - gap_right n idx))
     <= 1 # 2251799813685248)%Q /\
    panel_lo modes 0 = 0%Q /\
    panel_hi modes (n - 1) = 1%Q /\
    (forall i j, (i < j < n)%nat -> (panel_hi modes i < panel_lo modes j)%Q) /\
    (forall i, (S i < n)%nat ->
       (Qabs (panel_hi modes i
              - (inject_Z (Z.of_nat (S i)) / inject_Z (Z.of_nat n)
                 - (1 # 100)))
        <= 1 # 2251799813685248)%Q /\
       (Qabs (panel_lo modes (S i)
              - (inject_Z (Z.of_nat (S i)) / inject_Z (Z.of_nat n)
                 + (1 # 100)))
        <= 1 # 2251799813685248)%Q) /\
    (forall x, (0 <= x)%Q -> (x <= 1)%Q ->
       exists j, (j < n)%nat /\
         ((panel_lo modes j <= x /\ x <= panel_hi modes j)%Q \/
          ((S j < n)%nat /\
           (panel_hi modes j < x /\ x < panel_lo modes (S j))%Q))).
Proof.
  intros WF RANGE Hidx n quot. subst n quot.
  assert (Hn : (0 < numplots modes)%nat) by (unfold numplots; lia).
  destruct (fock_chart_panels h0 c lay ann a0 dc dl d0 modes photonDists mean
              xlabels WF RANGE (nonempty_of_lt _ _ Hidx))
    as (h' & al & Hrun & _ & _ & _ & _ & Hpanels).
  destruct (Hpanels idx Hidx)
    as (t & mk & ys & ax & dm & a & _ & _ & _ & Hax & Haxd & Hdm & _).
  exists h', (VRef dm), (panel_lo modes idx), (panel_hi modes idx).
  split; [exact Hrun|].
  split.
  { apply (at_path_app h' (VRef c) [KStr "layout"; KStr (axname idx)]
             (VRef ax) [KStr "domain"]); [exact Hax|].
    eapply at_path_str; [exact Haxd|reflexivity|apply at_path_nil]. }
  split. { exists dm. auto. }
  do 2 (split; [reflexivity|]).
  assert (Elo : panel_lo modes idx
                = b64 (b64 (inject_Z (Z.of_nat idx)
                            / inject_Z (Z.of_nat (length modes)))
                       + (if (idx =? 0)%nat then 0 else b64 (1 # 100)))).
  { unfold panel_lo, fadd, fdiv, dXa, of_int, float_lit, numplots.
    destruct idx; reflexivity. }
  assert (Ehi : panel_hi modes idx
                = b64 (b64 (inject_Z (Z.of_nat idx + 1)
                            / inject_Z (Z.of_nat (length modes)))
                       - (if (idx =? length modes - 1)%nat
                          then 0 else b64 (1 # 100)))).
  { unfold panel_hi, fsub, fdiv, dXb, of_int, float_lit, numplots.
    destruct (Z.eqb_spec (Z.of_nat idx) (Z.of_nat (length modes) - 1)),
      (Nat.eqb_spec idx (length modes - 1)); cbn [negb]; try lia;
      reflexivity. }
  split; [exact Elo|]. split; [exact Ehi|].
  split.
  { do 3 eexists.
    split; [apply b64_nearest|]. split; [apply b64_nearest|].
    split; [apply b64_nearest|].
    split; [rewrite Elo|rewrite Ehi]; apply b64_nearest. }
  destruct (panel_bounds_near modes idx Hidx) as (Blo & Bhi & _).
  split; [exact Blo|]. split; [exact Bhi|].
  split; [apply (panel_lo_first modes Hn)|].
  split; [apply (panel_hi_last modes Hn)|].
  split; [apply (panel_disjoint modes Hn)|].
  split.
  { intros i Hi.
    destruct (panel_bounds_near modes i ltac:(lia)) as (_ & Bh & _).
    destruct (panel_bounds_near modes (S i) ltac:(lia)) as (Bl & _ & _).
    cbv zeta in Bh, Bl.
    replace (gap_right (length modes) i) with (1 # 100)%Q in Bh.
    2:{ unfold gap_right. destruct (Nat.eqb_spec i (length modes - 1)); [lia|].
        reflexivity. }
    change (gap_left (S i)) with (1 # 100)%Q in Bl.
    replace (Z.of_nat i + 1) with (Z.of_nat (S i)) in Bh by lia.
    split; assumption. }
  apply (panel_cover modes Hn).
Qed.

Lemma format_3f_shape (q : Q) :
  exists ip d1 d2 d3,
    format_3f q = ip +:+ "." +:+ String d1 (String d2 (String d3 "")) /\
    is_digit d1 /\ is_digit d2 /\ is_digit d3.
Proof.
  unfold format_3f.
  set (m := round_half_even (Qabs q * 1000)).
  set (fp := m mod 1000).
  assert (Hfp : 0 <= fp < 1000) by (apply Z.mod_pos_bound; lia).
  exists ((if Qnum q <? 0 then "-" else "") +:+ pretty (m / 1000)),
    (digit (fp / 100)), (digit (fp / 10 mod 10)), (digit (fp mod 10)).
  split.
  - destruct (Qnum q <? 0); cbn [String.append]; [|reflexivity].
    reflexivity.
  - repeat split; eexists; (split; [|reflexivity]).
    + split; [apply Z.div_pos; lia|apply Z.div_lt_upper_bound; lia].
    + apply Z.mod_pos_bound; lia.
    + apply Z.mod_pos_bound; lia.
Qed.

(** ** The caption *)

Lemma digit_char (k : Z) :
  0 <= k < 10 -> digit k = ascii_of_nat (48 + Z.to_nat k).
Proof.
  intros Hk.
  assert (H : k = 0 \/ k = 1 \/ k = 2 \/ k = 3 \/ k = 4 \/ k = 5 \/ k = 6 \/
              k = 7 \/ k = 8 \/ k = 9) by lia.
  repeat (destruct H as [->|H]; [reflexivity|]). subst k. reflexivity.
Qed.

(** What ["{:.3f}"] spells: with [k] the nearest number of thousandths to
    the absolute value, ties to even, the sign if the value is negative,
    the integer part [k / 1000], a point, and the three decimals of [k]. *)
Lemma format_3f_value (q : Q) :
  exists (sign : string) (k : Z),
    format_3f q =
      sign +:+ pretty (k / 1000) +:+ "." +:+
      String (ascii_of_nat (48 + Z.to_nat (k / 100 mod 10)))
        (String (ascii_of_nat (48 + Z.to_nat (k / 10 mod 10)))
          (String (ascii_of_nat (48 + Z.to_nat (k mod 10))) "")) /\
    ((sign = "-" /\ (q < 0)%Q) \/ (sign = "" /\ (0 <= q)%Q)) /\
    0 <= k /\
    (Qabs (inject_Z k - Qabs q * 1000) <= 1 # 2)%Q /\
    ((Qabs (inject_Z k - Qabs q * 1000) == 1 # 2)%Q -> Z.even k = true).
Proof.
  set (k := round_half_even (Qabs q * 1000)).
  assert (Hk : 0 <= k).
  { apply round_half_even_nonneg.
    apply Qmult_le_0_compat; [apply Qabs_nonneg|discriminate]. }
  exists (if Qnum q <? 0 then "-" else ""), k.
  split.
  { unfold format_3f. fold k.
    replace (k mod 1000 / 100) with (k / 100 mod 10)
      by (Z.to_euclidean_division_equations; lia).
    replace (k mod 1000 / 10 mod 10) with (k / 10 mod 10)
      by (Z.to_euclidean_division_equations; lia).
    replace (k mod 1000 mod 10) with (k mod 10)
      by (Z.to_euclidean_division_equations; lia).
    rewrite (digit_char (k / 100 mod 10)) by (apply Z.mod_pos_bound; lia).
    rewrite (digit_char (k / 10 mod 10)) by (apply Z.mod_pos_bound; lia).
    rewrite (digit_char (k mod 10)) by (apply Z.mod_pos_bound; lia).
    reflexivity. }
  split.
  { destruct (Z.ltb_spec (Qnum q) 0) as [H|H]; [left|right];
      (split; [reflexivity|]); destruct q as [n d];
      unfold Qlt, Qle; cbn in *; lia. }
  split; [exact Hk|].
  split; [apply round_half_even_near|apply round_half_even_tie].
Qed.

(** C4: the bar trace at position [idx], showing mode [m], takes its y
    values from [photonDists[m]] and its caption from [mean[m]], and the
    title of its x axis names [m]. *)
Theorem fock_trace_by_mode (h0 : heap) (c lay ann a0 : loc)
    (dc dl d0 : list (string * value)) (modes : list Z)
    (photonDists : list (list Q)) (mean : list Q) (xlabels : value)
    (idx : nat) (m : Z) :
  wf_template h0 c lay ann a0 dc dl d0 ->
  modes_in_range modes photonDists mean ->
  sorted modes !! idx = Some m ->
  exists h' row mu ys,
    generate_fock_chart (VRef c) modes photonDists mean xlabels h0
      = (Ok (VRef c), h') /\
    py_index photonDists m = Some row /\
    py_index mean m = Some mu /\
    at_path h' (VRef c) [KStr "data"; KIdx (Z.of_nat idx); KStr "type"]
      (VStr "bar") /\
    at_path h' (VRef c) [KStr "data"; KIdx (Z.of_nat idx); KStr "y"] ys /\
    list_at h' ys (map VFloat row) /\
    at_path h' (VRef c) [KStr "data"; KIdx (Z.of_nat idx); KStr "xaxis"]
      (VStr (xname idx)) /\
    at_path h' (VRef c) [KStr "layout"; KStr (axname idx); KStr "title"]
      (VStr ("mode " +:+ format_int m)) /\
    at_path h' (VRef c)
      [KStr "layout"; KStr "annotations"; KIdx (Z.of_nat idx); KStr "text"]
      (VStr ("Mean: " +:+ format_3f mu)).
Proof.
  intros WF RANGE Hm.
  assert (Hidx : (idx < length modes)%nat).
  { apply lookup_lt_Some in Hm. now rewrite sorted_length in Hm. }
  destruct (sorted_lookup_range modes photonDists mean RANGE idx m Hm)
    as (row & mu & Hrow & Hmu).
  destruct (fock_chart_panels h0 c lay ann a0 dc dl d0 modes photonDists mean
              xlabels WF RANGE (nonempty_of_lt _ _ Hidx))
    as (h' & al & Hrun & Hanns & Hann & _ & _ & Hpanels).
  destruct (Hpanels idx Hidx)
    as (t & mk & ys & ax & dm & a & Ht & Htd & Hys & Hax & Haxd & _ & Ha & Had).
  pose proof (mode_at_lookup modes idx m Hm) as Hmode.
  assert (Hrowat : row_at modes photonDists idx = row)
    by (unfold row_at; now rewrite Hmode, Hrow).
  assert (Hmeanat : mean_at modes mean idx = mu)
    by (unfold mean_at; now rewrite Hmode, Hmu).
  exists h', row, mu, (VRef ys).
  split; [exact Hrun|]. split; [exact Hrow|]. split; [exact Hmu|].
  split.
  { apply (at_path_app h' (VRef c) [KStr "data"; KIdx (Z.of_nat idx)]
             (VRef t) [KStr "type"]); [exact Ht|].
    eapply at_path_str; [exact Htd|reflexivity|apply at_path_nil]. }
  split.
  { apply (at_path_app h' (VRef c) [KStr "data"; KIdx (Z.of_nat idx)]
             (VRef t) [KStr "y"]); [exact Ht|].
    eapply at_path_str; [exact Htd|reflexivity|apply at_path_nil]. }
  split. { exists ys. rewrite <- Hrowat. auto. }
  split.
  { apply (at_path_app h' (VRef c) [KStr "data"; KIdx (Z.of_nat idx)]
             (VRef t) [KStr "xaxis"]); [exact Ht|].
    eapply at_path_str; [exact Htd|reflexivity|apply at_path_nil]. }
  split.
  { apply (at_path_app h' (VRef c) [KStr "layout"; KStr (axname idx)]
             (VRef ax) [KStr "title"]); [exact Hax|].
    eapply at_path_str; [exact Haxd| |apply at_path_nil].
    unfold axis_dict. rewrite Hmode. reflexivity. }
  apply (at_path_app h' (VRef c) [KStr "layout"; KStr "annotations"]
           (VRef ann) [KIdx (Z.of_nat idx); KStr "text"]); [exact Hanns|].
  eapply at_path_idx; [exact Hann|rewrite lookup_map, Ha; reflexivity|].
  eapply at_path_str; [exact Had| |apply at_path_nil].
  rewrite ann_dict_text. unfold caption. now rewrite Hmeanat.
Qed.

(** C5: from a template with one seed annotation the chart gets one
    annotation per panel; the items of annotation [idx] are those of its
    predecessor (of the seed for the first), with ['text'] and ['x']
    assigned.  The text is "Mean: " and the mean of the panel's mode to
    three decimals: the nearest number of thousandths, ties to even.  The x
    coordinate is [idx/n + gapLeft + 0.5/n] computed in binary64, every
    operation rounded to the nearest binary64 number, ties to even; it is
    within [2^-50] of the exact value. *)
Theorem fock_annotation_chain (h0 : heap) (c lay ann a0 : loc)
    (dc dl d0 : list (string * value)) (modes : list Z)
    (photonDists : list (list Q)) (mean : list Q) (xlabels : value)
    (idx : nat) (m : Z) :
  wf_template h0 c lay ann a0 dc dl d0 ->
  modes_in_range modes photonDists mean ->
  sorted modes !! idx = Some m ->
  let n := length modes in
  let quot := b64 (inject_Z (Z.of_nat idx) / inject_Z (Z.of_nat n)) in
  let gap := if (idx =? 0)%nat then 0%Q else b64 (1 # 100) in
  exists h' anns al a mu text x prev,
    generate_fock_chart (VRef c) modes photonDists mean xlabels h0
      = (Ok (VRef c), h') /\
    at_path h' (VRef c) [KStr "layout"; KStr "annotations"] anns /\
    list_at h' anns (map VRef al) /\
    length al = n /\
    al !! idx = Some a /\
    py_index mean m = Some mu /\
    h' !! a = Some (ODict (dict_set "x" (VFloat x)
                            (dict_set "text" (VStr ("Mean: " +:+ text))
                               prev))) /\
    text = format_3f mu /\
    (exists (sign : string) (k : Z),
       text =
         sign +:+ pretty (k / 1000) +:+ "." +:+
         String (ascii_of_nat (48 + Z.to_nat (k / 100 mod 10)))
           (String (ascii_of_nat (48 + Z.to_nat (k / 10 mod 10)))
             (String (ascii_of_nat (48 + Z.to_nat (k mod 10))) "")) /\
       ((sign = "-" /\ (mu < 0)%Q) \/ (sign = "" /\ (0 <= mu)%Q)) /\
       0 <= k /\
       (Qabs (inject_Z k - Qabs mu * 1000) <= 1 # 2)%Q /\
       ((Qabs (inject_Z k - Qabs mu * 1000) == 1 # 2)%Q -> Z.even k = true)) /\
    x = ann_x modes idx /\
    x = b64 (b64 (quot + gap)
             + b64 (b64 (1 # 2) / b64 (inject_Z (Z.of_nat n)))) /\
    (exists ql g s hf nf w : Q,
       nearest64 (inject_Z (Z.of_nat idx) / inject_Z (Z.of_nat n)) ql /\
       nearest64 (1 # 100) g /\
       nearest64 (ql + (if (idx =? 0)%nat then 0 else g)) s /\
       nearest64 (1 # 2) hf /\
       nearest64 (inject_Z (Z.of_nat n)) nf /\
       nearest64 (hf / nf) w /\
       nearest64 (s + w) x) /\
    (Qabs (x - (inject_Z (Z.of_nat idx) / inject_Z (Z.of_nat n)
                + gap_left idx + (1 # 2) / inject_Z (Z.of_nat n)))
     <= 1 # 1125899906842624)%Q /\
    match idx with
    | O => prev = d0
    | S j => exists a', al !! j = Some a' /\ h' !! a' = Some (ODict prev)
    end.
Proof.
  intros WF RANGE Hm n quot gap. subst n quot gap.
  assert (Hidx : (idx < length modes)%nat).
  { apply lookup_lt_Some in Hm. now rewrite sorted_length in Hm. }
  assert (Hn : (0 < numplots modes)%nat) by (unfold numplots; lia).
  destruct (sorted_lookup_range modes photonDists mean RANGE idx m Hm)
    as (row & mu & Hrow & Hmu).
  destruct (fock_chart_panels h0 c lay ann a0 dc dl d0 modes photonDists mean
              xlabels WF RANGE (nonempty_of_lt _ _ Hidx))
    as (h' & al & Hrun & Hanns & Hann & Hlen & _ & Hpanels).
  destruct (Hpanels idx Hidx)
    as (t & mk & ys & ax & dm & a & _ & _ & _ & _ & _ & _ & Ha & Had).
  pose proof (mode_at_lookup modes idx m Hm) as Hmode.
  assert (Hmeanat : mean_at modes mean idx = mu)
    by (unfold mean_at; now rewrite Hmode, Hmu).
  exists h', (VRef ann), al, a, mu, (format_3f mu), (ann_x modes idx),
    (match idx with O => d0 | S j => ann_dict modes mean d0 j end).
  split; [exact Hrun|]. split; [exact Hanns|].
  split. { exists ann. auto. }
  split; [exact Hlen|]. split; [exact Ha|]. split; [exact Hmu|].
  split.
  { rewrite Had. destruct idx; cbn [ann_dict]; unfold caption;
      now rewrite Hmeanat. }
  split; [reflexivity|].
  split; [apply format_3f_value|].
  split; [reflexivity|].
  assert (Ex : ann_x modes idx
               = b64 (b64 (b64 (inject_Z (Z.of_nat idx)
                                / inject_Z (Z.of_nat (length modes)))
                           + (if (idx =? 0)%nat then 0 else b64 (1 # 100)))
                      + b64 (b64 (1 # 2)
                             / b64 (inject_Z (Z.of_nat (length modes)))))).
  { unfold ann_x, panel_lo, fadd, fdiv, dXa, of_int, float_lit, to_float,
      numplots.
    destruct idx; reflexivity. }
  split; [exact Ex|].
  split.
  { do 6 eexists.
    do 6 (split; [apply b64_nearest|]).
    rewrite Ex. apply b64_nearest. }
  split.
  { destruct (panel_bounds_near modes idx Hidx) as (_ & _ & Bx). exact Bx. }
  destruct idx as [|j]; [reflexivity|].
  destruct (Hpanels j ltac:(unfold numplots; lia))
    as (_ & _ & _ & _ & _ & a' & _ & _ & _ & _ & _ & _ & Ha' & Had').
  eauto.
Qed.

(** ** Order of the modes *)

Lemma sorted_Permutation (modes1 modes2 : list Z) :
  Permutation modes1 modes2 -> sorted modes1 = sorted modes2.
Proof.
  intros HP. unfold sorted.
  apply (Sorted_unique Z.le).
  - apply Sorted_merge_sort; apply _.
  - apply Sorted_merge_sort; apply _.
  - now rewrite !merge_sort_Permutation.
Qed.

Lemma sorted_is_sorted (modes : list Z) : Sorted Z.le (sorted modes).
Proof. apply Sorted_merge_sort; apply _. Qed.

Lemma fock_panel_numplots chart (modes1 modes2 : list Z) pd mean xl :
  length modes1 = length modes2 ->
  fock_panel chart modes1 pd mean xl = fock_panel chart modes2 pd mean xl.
Proof.
  intros H. unfold fock_panel, dXb, numplots. now rewrite H.
Qed.

Lemma fock_chart_permuted chart (modes1 modes2 : list Z) pd mean xl (h : heap) :
  Permutation modes1 modes2 ->
  generate_fock_chart chart modes1 pd mean xl h
  = generate_fock_chart chart modes2 pd mean xl h.
Proof.
  intros HP. unfold generate_fock_chart, numplots.
  rewrite (sorted_Permutation _ _ HP).
  rewrite (fock_panel_numplots chart modes1 modes2)
    by now apply Permutation_length.
  now rewrite (Permutation_length HP).
Qed.

(** C3: the order in which the modes are given does not matter: two lists
    with the same entries give the same result and the same store, whatever
    the chart and the store are.  The panels come in ascending order of
    mode: with [ms] the entries of [modes] in ascending order, the panel at
    position [idx] shows the mode [ms[idx]], its distribution, its mean and
    its name. *)
Theorem fock_modes_order_irrelevant (h0 : heap) (c lay ann a0 : loc)
    (dc dl d0 : list (string * value)) (modes1 modes2 : list Z)
    (photonDists : list (list Q)) (mean : list Q) (xlabels : value) :
  wf_template h0 c lay ann a0 dc dl d0 ->
  modes_in_range modes1 photonDists mean ->
  modes1 <> [] ->
  Permutation modes1 modes2 ->
  (forall chart (h : heap),
     generate_fock_chart chart modes1 photonDists mean xlabels h
     = generate_fock_chart chart modes2 photonDists mean xlabels h) /\
  exists ms h',
    Permutation ms modes1 /\
    Permutation ms modes2 /\
    Sorted Z.le ms /\
    generate_fock_chart (VRef c) modes1 photonDists mean xlabels h0
      = (Ok (VRef c), h') /\
    generate_fock_chart (VRef c) modes2 photonDists mean xlabels h0
      = (Ok (VRef c), h') /\
    (exists data ts, at_path h' (VRef c) [KStr "data"] data /\
                     list_at h' data ts /\ length ts = length ms) /\
    forall idx m, ms !! idx = Some m ->
      exists row mu ys,
        py_index photonDists m = Some row /\
        py_index mean m = Some mu /\
        at_path h' (VRef c) [KStr "data"; KIdx (Z.of_nat idx); KStr "y"] ys /\
        list_at h' ys (map VFloat row) /\
        at_path h' (VRef c) [KStr "layout"; KStr (axname idx); KStr "title"]
          (VStr ("mode " +:+ format_int m)) /\
        at_path h' (VRef c)
          [KStr "layout"; KStr "annotations"; KIdx (Z.of_nat idx); KStr "text"]
          (VStr ("Mean: " +:+ format_3f mu)).
Proof.
  intros WF RANGE Hne HP.
  split. { intros chart h. now apply fock_chart_permuted. }
  pose proof (fock_chart_returns h0 c lay ann a0 dc dl d0 modes1 photonDists
                mean xlabels WF Hne RANGE) as HR.
  apply returns_inv in HR as (v & h' & Hrun & -> & dl' & al & I & _).
  destruct (fock_chart_panels h0 c lay ann a0 dc dl d0 modes1 photonDists mean
              xlabels WF RANGE Hne)
    as (h'' & al' & Hrun' & Hanns & Hann & _ & _ & Hpanels).
  rewrite Hrun in Hrun'. injection Hrun' as <-.
  exists (sorted modes1), h'.
  split. { unfold sorted. apply merge_sort_Permutation. }
  split. { unfold sorted. rewrite merge_sort_Permutation. exact HP. }
  split; [apply sorted_is_sorted|].
  split; [exact Hrun|].
  split. { rewrite <- (fock_chart_permuted _ _ _ _ _ _ _ HP). exact Hrun. }
  split.
  { exists (VRef (length h0 + numplots modes1)%nat),
      (map VRef (seq (length h0) (numplots modes1))).
    split.
    - eapply at_path_str;
        [apply (inv_c _ _ _ _ _ _ _ _ _ _ _ _ _ _ _ _ I)
        |apply dict_get_set_eq|apply at_path_nil].
    - split.
      + eexists. split; [reflexivity|].
        apply (inv_data _ _ _ _ _ _ _ _ _ _ _ _ _ _ _ _ I).
      + now rewrite length_map, length_seq, sorted_length. }
  intros idx m Hm.
  assert (Hidx : (idx < length modes1)%nat).
  { apply lookup_lt_Some in Hm. now rewrite sorted_length in Hm. }
  destruct (sorted_lookup_range modes1 photonDists mean RANGE idx m Hm)
    as (row & mu & Hrow & Hmu).
  destruct (Hpanels idx Hidx)
    as (t & mk & ys & ax & dm & a & Ht & Htd & Hys & Hax & Haxd & _ & Ha & Had).
  pose proof (mode_at_lookup modes1 idx m Hm) as Hmode.
  assert (Hrowat : row_at modes1 photonDists idx = row)
    by (unfold row_at; now rewrite Hmode, Hrow).
  assert (Hmeanat : mean_at modes1 mean idx = mu)
    by (unfold mean_at; now rewrite Hmode, Hmu).
  exists row, mu, (VRef ys).
  split; [exact Hrow|]. split; [exact Hmu|].
  split.
  { apply (at_path_app h' (VRef c) [KStr "data"; KIdx (Z.of_nat idx)]
             (VRef t) [KStr "y"]); [exact Ht|].
    eapply at_path_str; [exact Htd|reflexivity|apply at_path_nil]. }
  split. { exists ys. rewrite <- Hrowat. auto. }
  split.
  { apply (at_path_app h' (VRef c) [KStr "layout"; KStr (axname idx)]
             (VRef ax) [KStr "title"]); [exact Hax|].
    eapply at_path_str; [exact Haxd| |apply at_path_nil].
    unfold axis_dict. rewrite Hmode. reflexivity. }
  apply (at_path_app h' (VRef c) [KStr "layout"; KStr "annotations"]
           (VRef ann) [KIdx (Z.of_nat idx); KStr "text"]); [exact Hanns|].
  eapply at_path_idx; [exact Hann|rewrite lookup_map, Ha; reflexivity|].
  eapply at_path_str; [exact Had| |apply at_path_nil].
  rewrite ann_dict_text. unfold caption. now rewrite Hmeanat.
Qed.

Lemma dict_set_twice {V} k (v1 v2 : V) d :
  dict_set k v2 (dict_set k v1 d) = dict_set k v2 d.
Proof.
  induction d as [|[k' v'] d IH]; cbn.
  - now rewrite String.eqb_refl.
  - destruct (String.eqb k k') eqn:E; cbn; rewrite E; [reflexivity|].
    now rewrite IH.
Qed.

(** The call with no modes, run statement by statement. *)
Lemma fock_chart_empty (h0 : heap) (c lay ann a0 xa : loc)
    (dc dl d0 dxa : list (string * value))
    (photonDists : list (list Q)) (mean : list Q) (xlabels : value) :
  wf_template h0 c lay ann a0 dc dl d0 ->
  dict_get "xaxis" dl = Some (VRef xa) ->
  h0 !! xa = Some (ODict dxa) ->
  xa <> c -> xa <> lay -> xa <> a0 ->
  exists h' data font,
    generate_fock_chart (VRef c) [] photonDists mean xlabels h0
      = (Ok (VRef c), h') /\
    h' !! c = Some (ODict (dict_set "data" (VRef data) dc)) /\
    (length h0 <= data)%nat /\
    h' !! data = Some (OList []) /\
    at_path h' (VRef c) [KStr "layout"; KStr "annotations"] (VRef ann) /\
    h' !! ann = Some (OList [VRef a0]) /\
    h' !! a0 = Some (ODict d0) /\
    h' !! xa = Some (ODict (dict_set "type" (VStr "category") dxa)) /\
    h' !! lay =
      Some (ODict (dict_set "font" (VRef font)
                     (dict_set "title"
                        (VStr "Marginal Fock state probabilities") dl))) /\
    (length h0 <= font)%nat /\
    h' !! font = Some (ODict [("color", VStr textcolor)]) /\
    forall l, (l < length h0)%nat -> l <> c -> l <> lay -> l <> xa ->
              h' !! l = h0 !! l.
Proof.
  intros WF Hxaxis Hxa Nxc Nxl Nxa.
  pose proof (wf_bounds _ _ _ _ _ _ _ _ WF) as (Bc & Blay & Bann & Ba0).
  pose proof (wf_ann_ne _ _ _ _ _ _ _ _ WF) as (Nac & Nal & Naa).
  assert (Bxa : (xa < length h0)%nat) by (eapply lookup_lt_Some; eauto).
  assert (Nxn : xa <> ann).
  { intros ->. destruct WF. congruence. }
  destruct WF as [Hc Hlayout Hlay Hannot Hann Ha0 Ncl Nca Nla].
  cut (returns (generate_fock_chart (VRef c) [] photonDists mean xlabels h0)
         (fun v h' => v = VRef c /\
            h' !! c = Some (ODict (dict_set "data" (VRef (length h0)) dc)) /\
            h' !! length h0 = Some (OList []) /\
            h' !! lay = Some (ODict (dict_set "font" (VRef (length h0 + 1 + 1)%nat)
                     (dict_set "title"
                        (VStr "Marginal Fock state probabilities") dl))) /\
            h' !! (length h0 + 1 + 1)%nat = Some (ODict [("color", VStr textcolor)]) /\
            h' !! xa = Some (ODict (dict_set "type" (VStr "category") dxa)) /\
            forall l, (l < length h0)%nat -> l <> c -> l <> lay -> l <> xa ->
                      h' !! l = h0 !! l)).
  { intros H. apply returns_inv in H
      as (v & h' & Hrun & -> & Fc & Fd & Fl & Ff & Fx & Fsame).
    exists h', (length h0), (length h0 + 1 + 1)%nat.
    split; [exact Hrun|]. split; [exact Fc|].
    split; [lia|]. split; [exact Fd|].
    split.
    { eapply at_path_str; [exact Fc| |].
      - rewrite dict_get_set_ne by discriminate. exact Hlayout.
      - eapply at_path_str; [exact Fl| |apply at_path_nil].
        rewrite !dict_get_set_ne by discriminate. exact Hannot. }
    split. { rewrite Fsame by auto. exact Hann. }
    split. { rewrite Fsame by auto. exact Ha0. }
    split; [exact Fx|]. split; [exact Fl|].
    split; [lia|]. split; [exact Ff|exact Fsame]. }
  unfold generate_fock_chart.
  change (numplots []) with 0%nat. change (sorted []) with (@nil Z).
  cbn [alloc_dicts for_enumerate].
  repeat step.
  unfold ret. cbn [returns].
  split; [reflexivity|].
  split; [hl|]. split; [hl|].
  split. { rewrite <- (dict_set_twice "font" (VRef (length h0 + 1)%nat)). hl. }
  split; [hl|]. split; [hl|].
  intros; hl.
Qed.

(** C10: with no modes the call returns the chart with a new, empty data
    list; the annotation list and the seed annotation are as in the
    template; what is written is the type of the primary x axis, the title
    and the font of the layout, and nothing else. *)
Theorem fock_chart_no_modes (h0 : heap) (c lay ann a0 xa : loc)
    (dc dl d0 dxa : list (string * value))
    (photonDists : list (list Q)) (mean : list Q) (xlabels : value) :
  wf_template h0 c lay ann a0 dc dl d0 ->
  dict_get "xaxis" dl = Some (VRef xa) ->
  h0 !! xa = Some (ODict dxa) ->
  xa <> c -> xa <> lay -> xa <> a0 ->
  exists h' data font,
    generate_fock_chart (VRef c) [] photonDists mean xlabels h0
      = (Ok (VRef c), h') /\
    h' !! c = Some (ODict (dict_set "data" (VRef data) dc)) /\
    (length h0 <= data)%nat /\
    h' !! data = Some (OList []) /\
    at_path h' (VRef c) [KStr "layout"; KStr "annotations"] (VRef ann) /\
    h' !! ann = Some (OList [VRef a0]) /\
    h' !! a0 = Some (ODict d0) /\
    h' !! xa = Some (ODict (dict_set "type" (VStr "category") dxa)) /\
    h' !! lay =
      Some (ODict (dict_set "font" (VRef font)
                     (dict_set "title"
                        (VStr "Marginal Fock state probabilities") dl))) /\
    (length h0 <= font)%nat /\
    h' !! font = Some (ODict [("color", VStr textcolor)]) /\
    forall l, (l < length h0)%nat -> l <> c -> l <> lay -> l <> xa ->
              h' !! l = h0 !! l.
Proof.
  intros WF Hxaxis Hxa Nxc Nxl Nxa.
  exact (fock_chart_empty h0 c lay ann a0 xa dc dl d0 dxa photonDists mean
           xlabels WF Hxaxis Hxa Nxc Nxl Nxa).
Qed.

(** ** The template and its copy *)

Lemma reify_agree fuel : forall (h h' : heap) v t,
  (forall l, (l < length h)%nat -> h' !! l = h !! l) ->
  reify fuel h v = Some t -> reify fuel h' v = Some t.
Proof.
  induction fuel as [|fuel IH]; intros h h' v t Hsame Hr.
  - destruct v; cbn in *; congruence.
  - destruct v as [| | | | |l]; cbn [reify] in *; try congruence.
    destruct (h !! l) as [o|] eqn:Hl; [|discriminate].
    rewrite (Hsame l) by (eapply lookup_lt_Some; eauto). rewrite Hl.
    destruct o as [d|xs].
    + destruct (mapM (fun kv => pair kv.1 <$> reify fuel h kv.2) d)
        as [r|] eqn:Hm; [|discriminate].
      apply mapM_Some in Hm.
      assert (Hm' : mapM (fun kv => pair kv.1 <$> reify fuel h' kv.2) d = Some r).
      { apply mapM_Some. eapply Forall2_impl; [exact Hm|].
        intros [k x] y Hy. cbn in *.
        destruct (reify fuel h x) as [tx|] eqn:Hx; [|discriminate].
        now rewrite (IH h h' x tx Hsame Hx). }
      now rewrite Hm'.
    + destruct (mapM (reify fuel h) xs) as [r|] eqn:Hm; [|discriminate].
      apply mapM_Some in Hm.
      assert (Hm' : mapM (reify fuel h') xs = Some r).
      { apply mapM_Some. eapply Forall2_impl; [exact Hm|].
        intros x y Hy. now apply (IH h h'). }
      now rewrite Hm'.
Qed.

Lemma deepcopy_default :
  deepcopy barchartDefault module_heap = (Ok (VRef 14), copied_heap).
Proof. vm_compute. reflexivity. Qed.

Lemma copied_heap_prefix :
  forall l, (l < length module_heap)%nat ->
            copied_heap !! l = module_heap !! l.
Proof.
  intros l Hl. change (length module_heap) with 14%nat in Hl.
  do 14 (destruct l as [|l]; [reflexivity|]). lia.
Qed.

Lemma copied_heap_wf :
  exists dc dl d0 dxa,
    wf_template copied_heap 14 19 23 24 dc dl d0 /\
    dict_get "xaxis" dl = Some (VRef 22) /\
    copied_heap !! 22%nat = Some (ODict dxa) /\
    dict_get "data" dc = Some (VRef 15).
Proof.
  do 4 eexists. split; [|split; [|split]].
  - constructor; try (vm_compute; reflexivity); lia.
  - reflexivity.
  - vm_compute. reflexivity.
  - reflexivity.
Qed.

(** What the call returns, when it returns, is its chart argument. *)
Lemma fock_chart_returns_argument chart modes pd mean xl (h : heap) v h' :
  generate_fock_chart chart modes pd mean xl h = (Ok v, h') -> v = chart.
Proof.
  intros H. unfold generate_fock_chart in H.
  repeat (apply bind_inv_ok in H as (? & ? & ? & H)).
  unfold ret in H. now injection H as <- _.
Qed.

(** C1 (as the code has it): generate_fock_chart takes no copy: what it
    returns is the chart it was given, written in place.  The module's
    template survives because plot_fock passes a deep copy: for modes in
    range, the copy is a new object, the call returns the copy, now
    written, and every object of the module's store, [barchartDefault]
    among them, is as before. *)
Theorem plot_fock_keeps_default (modes : list Z) (photonDists : list (list Q))
    (mean : list Q) (xlabels : value) :
  modes_in_range modes photonDists mean ->
  (forall chart (h : heap) v h',
     generate_fock_chart chart modes photonDists mean xlabels h = (Ok v, h') ->
     v = chart) /\
  exists cp h1 h',
    deepcopy barchartDefault module_heap = (Ok (VRef cp), h1) /\
    generate_fock_chart (VRef cp) modes photonDists mean xlabels h1
      = (Ok (VRef cp), h') /\
    plot_fock_chart modes photonDists mean xlabels module_heap
      = (Ok (VRef cp), h') /\
    VRef cp <> barchartDefault /\
    h' !! cp <> h1 !! cp /\
    (forall l, (l < length module_heap)%nat -> h' !! l = module_heap !! l) /\
    reify 10 h' barchartDefault = reify 10 module_heap barchartDefault.
Proof.
  intros RANGE.
  split.
  { intros chart h v h'. apply fock_chart_returns_argument. }
  destruct copied_heap_wf as (dc & dl & d0 & dxa & WF & Hxaxis & Hxa & Hdata).
  assert (Hrun : exists h',
    generate_fock_chart (VRef 14) modes photonDists mean xlabels copied_heap
      = (Ok (VRef 14), h') /\
    (exists data, h' !! 14%nat = Some (ODict (dict_set "data" (VRef data) dc)) /\
                  (length copied_heap <= data)%nat) /\
    (forall l, (l < length module_heap)%nat -> h' !! l = copied_heap !! l)).
  { destruct modes as [|m0 modes'] eqn:Hmodes.
    - destruct (fock_chart_empty copied_heap 14 19 23 24 22 dc dl d0 dxa
                  photonDists mean xlabels WF Hxaxis Hxa)
        as (h' & data & f & Hr & Fc & Hd & _ & _ & _ & _ & _ & _ & _ & _ & Fs);
        try lia.
      exists h'. split; [exact Hr|]. split.
      + exists data. split; [exact Fc|exact Hd].
      + intros l Hl. change (length module_heap) with 14%nat in Hl.
        apply Fs; change (length copied_heap) with 28%nat; lia.
    - rewrite <- Hmodes in *.
      pose proof (fock_chart_returns copied_heap 14 19 23 24 dc dl d0 modes
                    photonDists mean xlabels WF ltac:(subst; discriminate) RANGE)
        as H.
      apply returns_inv in H as (v & h' & Hr & -> & dl' & al & I & _).
      exists h'. split; [exact Hr|]. split.
      + eexists. split; [apply (inv_c _ _ _ _ _ _ _ _ _ _ _ _ _ _ _ _ I)|]. lia.
      + intros l Hl. change (length module_heap) with 14%nat in Hl.
        apply (inv_frame _ _ _ _ _ _ _ _ _ _ _ _ _ _ _ _ I);
          change (length copied_heap) with 28%nat; lia. }
  destruct Hrun as (h' & Hr & (data & Fc & Hdata') & Fs).
  assert (Fs' : forall l, (l < length module_heap)%nat ->
                          h' !! l = module_heap !! l).
  { intros l Hl. rewrite Fs by assumption. now apply copied_heap_prefix. }
  exists 14%nat, copied_heap, h'.
  split; [exact deepcopy_default|]. split; [exact Hr|].
  split.
  { unfold plot_fock_chart.
    now rewrite (bind_ok _ _ _ _ _ deepcopy_default). }
  split; [discriminate|].
  split.
  { rewrite Fc, (wf_c _ _ _ _ _ _ _ _ WF). intros [= E].
    apply (f_equal (dict_get "data")) in E.
    rewrite dict_get_set_eq, Hdata in E. injection E as ->.
    change (length copied_heap) with 28%nat in Hdata'. lia. }
  split; [exact Fs'|].
  destruct (reify 10 module_heap barchartDefault) as [t|] eqn:Ht;
    [|vm_compute in Ht; discriminate].
  exact (reify_agree 10 module_heap h' barchartDefault t Fs' Ht).
Qed.

(** ** The surface chart *)

Lemma np_pi_bounds :
  (3141592653589793 # 1000000000000000 < np_pi)%Q /\
  (np_pi < 3141592653589794 # 1000000000000000)%Q.
Proof. split; reflexivity. Qed.

(** [numpy.pi] is the binary64 number nearest to pi. *)
Lemma np_pi_nearest (x : Q) :
  (314159265358979323 # 100000000000000000 < x)%Q ->
  (x < 314159265358979324 # 100000000000000000)%Q ->
  nearest64 x np_pi.
Proof.
  intros Hlo Hhi.
  assert (Hx : (x / pow2 (-51) == x * 2251799813685248)%Q).
  { change (pow2 (-51)) with (1 # 2251799813685248)%Q. field. }
  apply (nearest64_compat x x (inject_Z 7074237752028440 * pow2 (-51)));
    [reflexivity|reflexivity|].
  apply (grid_nearest x 1 (-51) 7074237752028440).
  - change (pow2 1) with 2%Q. lra.
  - change (pow2 (1 + 1)) with 4%Q. lra.
  - reflexivity.
  - lia.
  - rewrite Hx. change (inject_Z 7074237752028440) with 7074237752028440%Q.
    apply Qabs_Qle_condition. split; lra.
  - reflexivity.
Qed.

(** The builder has no error path: it returns a chart whatever the shapes
    of its arguments are. *)
Lemma generate_wigner_chart_total data xvec pvec contours :
  exists chart, generate_wigner_chart data xvec pvec contours = Ok chart.
Proof. eexists. reflexivity. Qed.

(** C6: the one surface trace has the five fixed colour stops, in order,
    and the colour range [-1/pi, 1/pi], whatever the field, the axes and
    the contour flag are: [cmax] is the double 5734161139222659 * 2^-54,
    [cmin] its opposite; they are the binary64 quotients of 1 and -1 by
    [numpy.pi], rounded to nearest, and for every [x] between
    3.14159265358979323 and 3.14159265358979324, as pi is, [numpy.pi] is
    the binary64 number nearest to [x], within [2^-52] of it, and [cmax] is
    within [2^-55] of [1/x]. *)
Theorem wigner_colorscale_fixed (data : list (list Q)) (xvec pvec : list Q)
    (contours : bool) :
  exists chart tr cmin cmax,
    generate_wigner_chart data xvec pvec contours = Ok chart /\
    tree_at chart [KStr "data"] = Ok (TList [tr]) /\
    tree_at tr [KStr "type"] = Ok (TStr "surface") /\
    tree_at tr [KStr "colorscale"] =
      Ok (TList [TList [TFloat 0; TStr "purple"];
                 TList [TFloat (1 # 4); TStr "red"];
                 TList [TFloat (1 # 2); TStr "yellow"];
                 TList [TFloat (3 # 4); TStr "green"];
                 TList [TFloat 1; TStr "blue"]]) /\
    tree_at tr [KStr "cmin"] = Ok (TFloat cmin) /\
    tree_at tr [KStr "cmax"] = Ok (TFloat cmax) /\
    cmax = (5734161139222659 # 18014398509481984)%Q /\
    cmin = (- 5734161139222659 # 18014398509481984)%Q /\
    cmax = b64 (1 / np_pi) /\ cmin = b64 (- (1) / np_pi) /\
    nearest64 (1 / np_pi) cmax /\ nearest64 (- (1) / np_pi) cmin /\
    np_pi = (884279719003555 # 281474976710656)%Q /\
    (Qabs (cmax - 1 / np_pi) <= 1 # 36028797018963968)%Q /\
    (Qabs (cmin + 1 / np_pi) <= 1 # 36028797018963968)%Q /\
    forall x : Q,
      (314159265358979323 # 100000000000000000 < x)%Q ->
      (x < 314159265358979324 # 100000000000000000)%Q ->
      nearest64 x np_pi /\
      (Qabs (np_pi - x) <= 1 # 4503599627370496)%Q /\
      (Qabs (cmax - 1 / x) <= 1 # 36028797018963968)%Q /\
      (Qabs (cmin + 1 / x) <= 1 # 36028797018963968)%Q.
Proof.
  exists (match generate_wigner_chart data xvec pvec contours with
          | Ok chart => chart
          | Raise _ => TNone
          end).
  do 3 eexists.
  split; [reflexivity|].
  do 3 (split; [reflexivity|]).
  split; [reflexivity|]. split; [reflexivity|].
  split; [vm_compute; reflexivity|].
  split; [vm_compute; reflexivity|].
  split; [vm_compute; reflexivity|].
  split; [vm_compute; reflexivity|].
  split.
  { assert (E : fdiv (to_float 1) np_pi = b64 (1 / np_pi))
      by (vm_compute; reflexivity).
    rewrite E. apply b64_nearest. }
  split.
  { assert (E : fdiv (to_float (-1)) np_pi = b64 (- (1) / np_pi))
      by (vm_compute; reflexivity).
    rewrite E. apply b64_nearest. }
  split; [reflexivity|].
  assert (E1 : fdiv (to_float 1) np_pi
               = (5734161139222659 # 18014398509481984)%Q)
    by (vm_compute; reflexivity).
  assert (E2 : fdiv (to_float (-1)) np_pi
               = (- 5734161139222659 # 18014398509481984)%Q)
    by (vm_compute; reflexivity).
  rewrite E1, E2.
  split. { apply Qabs_Qle_condition. split; vm_compute; discriminate. }
  split. { apply Qabs_Qle_condition. split; vm_compute; discriminate. }
  intros x Hlo Hhi.
  assert (Hx : (0 < x)%Q) by lra.
  assert (Hinv : (10000000000000000 # 31415926535897933 < 1 / x)%Q /\
                 (1 / x < 10000000000000000 # 31415926535897932)%Q).
  { split.
    - apply Qlt_shift_div_l; [exact Hx|].
      unfold np_pi in *. lra.
    - apply Qlt_shift_div_r; [exact Hx|].
      lra. }
  destruct Hinv as [Hi1 Hi2].
  split; [now apply np_pi_nearest|].
  unfold np_pi.
  repeat split; apply Qabs_Qle_condition; split; lra.
Qed.

(** C7: the chart built with [contours = false] is the chart built with
    [contours = true] with the one flag [contours.z.show] of the surface
    trace assigned again; nothing else differs. *)
Theorem wigner_contours_only_flag (data : list (list Q)) (xvec pvec : list Q) :
  let flag := [KStr "data"; KIdx 0; KStr "contours"; KStr "z"] in
  exists shown hidden,
    generate_wigner_chart data xvec pvec true = Ok shown /\
    generate_wigner_chart data xvec pvec false = Ok hidden /\
    tree_at shown (flag ++ [KStr "show"]) = Ok (TBool true) /\
    tree_at hidden (flag ++ [KStr "show"]) = Ok (TBool false) /\
    assign shown flag (KStr "show") (TBool false) = Ok hidden /\
    assign hidden flag (KStr "show") (TBool true) = Ok shown.
Proof.
  do 2 eexists.
  repeat (split; [reflexivity|]).
  reflexivity.
Qed.

(** ** The lazy importer *)

(** C9: without plotly, what [_get_plotly] raises is the interpreter's
    [TypeError] for raising a string; the text of [plotly_error] is lost. *)
Theorem get_plotly_raises_type_error :
  _get_plotly false =
    inl {| exc_class := "TypeError";
           exc_message := "exceptions must derive from BaseException" |} /\
  (forall e, _get_plotly false = inl e -> exc_message e <> plotly_error) /\
  _get_plotly true = inr "plotly.io".
Proof.
  split; [reflexivity|]. split; [|reflexivity].
  intros e He. injection He as <-. discriminate.
Qed.

(** ** Counterexamples and errors *)

(** Against C1 as stated: passed [barchartDefault] itself, the call returns
    that very object, and the template no longer reads as before. *)
Lemma fock_chart_writes_template :
  fst (generate_fock_chart barchartDefault [0] [[1%Q]] [0%Q] (VRef 14)
         (module_heap ++ [OList [VStr "|0>"]]))
  = Ok barchartDefault /\
  reify 10 (snd (generate_fock_chart barchartDefault [0] [[1%Q]] [0%Q]
                   (VRef 14) (module_heap ++ [OList [VStr "|0>"]])))
        barchartDefault
  <> reify 10 (module_heap ++ [OList [VStr "|0>"]]) barchartDefault.
Proof. vm_compute. split; [reflexivity|discriminate]. Qed.

(** Against C8 as stated: a field of one row for two x values and three p
    values is charted without complaint. *)
Lemma wigner_shape_mismatch_tolerated :
  length [[0%Q]] <> length [0%Q; 1%Q] /\
  exists chart,
    generate_wigner_chart [[0%Q]] [0%Q; 1%Q] [0%Q; 1%Q; 2%Q] true = Ok chart.
Proof. split; [discriminate|]. eexists. reflexivity. Qed.

(** Whatever the chart and the store are, a mode out of range keeps
    the loop body from returning. *)
Lemma fock_panel_not_ok chart modes pd mean xl idx m (h : heap) :
  py_index pd m = None \/ py_index mean m = None ->
  forall v h', fock_panel chart modes pd mean xl idx m h <> (Ok v, h').
Proof.
  intros Hbad v h' H. unfold fock_panel in H.
  repeat (apply bind_inv_ok in H as (? & ? & ? & H)).
  repeat match goal with
         | E : index_or_raise _ _ _ = (Ok _, _) |- _ =>
             unfold index_or_raise in E
         end.
  destruct Hbad as [Hb|Hb]; rewrite Hb in *; discriminate.
Qed.

Lemma for_enumerate_not_ok {A} (body : nat -> A -> M unit) (bad : A -> Prop) xs :
  (forall idx x h v h', bad x -> body idx x h <> (Ok v, h')) ->
  Exists bad xs ->
  forall idx h v h', for_enumerate body idx xs h <> (Ok v, h').
Proof.
  intros Hbody HE. induction HE as [x xs Hx|x xs HE IH]; intros idx h v h' H;
    cbn [for_enumerate] in H; apply bind_inv_ok in H as (? & ? & H1 & H2).
  - now apply Hbody in H1.
  - now apply IH in H2.
Qed.

Lemma fock_chart_not_ok chart modes pd mean xl m (h : heap) :
  In m modes -> py_index pd m = None \/ py_index mean m = None ->
  forall v h', generate_fock_chart chart modes pd mean xl h <> (Ok v, h').
Proof.
  intros Hin Hbad v h' H. unfold generate_fock_chart in H.
  do 4 (apply bind_inv_ok in H as (? & ? & ? & H)).
  match goal with
  | E : for_enumerate _ _ _ _ = (Ok _, _) |- _ =>
      revert E;
      apply (for_enumerate_not_ok _
               (fun m => py_index pd m = None \/ py_index mean m = None))
  end.
  - intros. now apply fock_panel_not_ok.
  - apply Exists_exists. exists m.
    split; [apply list_elem_of_In; now apply in_sorted|exact Hbad].
Qed.

(** C8 (as the code has it): a mode that is not an index of [photonDists]
    or of [mean], negative indices counting from the end, keeps
    generate_fock_chart from returning: with a well-formed template it
    raises [IndexError].  generate_wigner_chart compares no shapes: it
    returns a chart for every field and axes. *)
Theorem shape_errors (h0 : heap) (c lay ann a0 : loc)
    (dc dl d0 : list (string * value)) (modes : list Z)
    (photonDists : list (list Q)) (mean : list Q) (xlabels : value) (m : Z) :
  wf_template h0 c lay ann a0 dc dl d0 ->
  In m modes ->
  (m < - Z.of_nat (length photonDists) \/ Z.of_nat (length photonDists) <= m) \/
  (m < - Z.of_nat (length mean) \/ Z.of_nat (length mean) <= m) ->
  (exists h', generate_fock_chart (VRef c) modes photonDists mean xlabels h0
              = (Raise IndexError, h')) /\
  (forall chart (h : heap) v h',
     generate_fock_chart chart modes photonDists mean xlabels h <> (Ok v, h')) /\
  (forall data xvec pvec contours,
     exists chart, generate_wigner_chart data xvec pvec contours = Ok chart).
Proof.
  intros WF Hin Hbad.
  assert (Hbad' : py_index photonDists m = None \/ py_index mean m = None).
  { destruct Hbad as [H|H]; [left|right]; now apply py_index_None_iff. }
  split; [|split].
  - apply raises_inv.
    exact (fock_chart_raises h0 c lay ann a0 dc dl d0 modes photonDists mean
             xlabels WF m Hin Hbad').
  - intros chart h. now apply (fock_chart_not_ok chart modes photonDists mean xlabels m).
  - apply generate_wigner_chart_total.
Qed.

(** ** More about the surface chart *)

Lemma py_index_map {A B} (f : A -> B) (xs : list A) (i : Z) :
  py_index (map f xs) i = f <$> py_index xs i.
Proof.
  unfold py_index. rewrite length_map.
  destruct ((0 <=? i) && (i <? Z.of_nat (length xs))); [apply lookup_map|].
  destruct ((- Z.of_nat (length xs) <=? i) && (i <? 0)); [apply lookup_map|].
  reflexivity.
Qed.

(** X1: the one trace of the surface chart has the items type, colorscale,
    x, y, z, contours, cmin and cmax, in this order; x, y and z are the
    lists of [xvec], [pvec] and [data], entry by entry: reading them at an
    index gives what Python indexing gives on the arguments, negative
    indices counting from the end and [IndexError] outside. *)
Theorem wigner_axes_and_field (data : list (list Q)) (xvec pvec : list Q)
    (contours : bool) :
  exists chart cs cmin cmax,
    generate_wigner_chart data xvec pvec contours = Ok chart /\
    tree_at chart [KStr "data"] =
      Ok (TList [TDict [("type", TStr "surface");
                        ("colorscale", cs);
                        ("x", TList (map TFloat xvec));
                        ("y", TList (map TFloat pvec));
                        ("z", TList (map (fun row => TList (map TFloat row)) data));
                        ("contours", TDict [("z", TDict [("show", TBool contours)])]);
                        ("cmin", TFloat cmin);
                        ("cmax", TFloat cmax)]]) /\
    (forall i,
       tree_at chart [KStr "data"; KIdx 0; KStr "x"; KIdx i] =
         match py_index xvec i with
         | Some q => Ok (TFloat q)
         | None => Raise IndexError
         end) /\
    (forall j,
       tree_at chart [KStr "data"; KIdx 0; KStr "y"; KIdx j] =
         match py_index pvec j with
         | Some q => Ok (TFloat q)
         | None => Raise IndexError
         end) /\
    (forall i j,
       tree_at chart [KStr "data"; KIdx 0; KStr "z"; KIdx i; KIdx j] =
         match py_index data i with
         | Some row => match py_index row j with
                       | Some q => Ok (TFloat q)
                       | None => Raise IndexError
                       end
         | None => Raise IndexError
         end).
Proof.
  destruct (generate_wigner_chart data xvec pvec contours) as [chart|e] eqn:Hr;
    cbn in Hr; [|discriminate].
  injection Hr as <-.
  do 4 eexists.
  split; [reflexivity|]. split; [reflexivity|].
  split; [|split].
  - intros i.
    change (tree_at (tolist xvec) [KIdx i] =
            match py_index xvec i with
            | Some q => Ok (TFloat q)
            | None => Raise IndexError
            end).
    cbn -[py_index]. unfold tolist. rewrite py_index_map.
    now destruct (py_index xvec i).
  - intros j.
    change (tree_at (tolist pvec) [KIdx j] =
            match py_index pvec j with
            | Some q => Ok (TFloat q)
            | None => Raise IndexError
            end).
    cbn -[py_index]. rewrite py_index_map.
    now destruct (py_index pvec j).
  - intros i j.
    change (tree_at (tolist2 data) [KIdx i; KIdx j] =
            match py_index data i with
            | Some row => match py_index row j with
                          | Some q => Ok (TFloat q)
                          | None => Raise IndexError
                          end
            | None => Raise IndexError
            end).
    cbn -[py_index]. unfold tolist2. rewrite py_index_map.
    destruct (py_index data i) as [row|]; [|reflexivity].
    cbn -[py_index]. rewrite py_index_map.
    now destruct (py_index row j).
Qed.

(** X2: the layout of the surface chart does not depend on the arguments:
    the scene with its three axes (titles "x", "p" and "W(x,p)") and the
    white background, the two background colours and the font colour; the
    chart has the two keys data and layout, in this order. *)
Theorem wigner_layout_fixed (data : list (list Q)) (xvec pvec : list Q)
    (contours : bool) :
  exists chart,
    generate_wigner_chart data xvec pvec contours = Ok chart /\
    tree_at chart [KStr "layout"] =
      Ok (TDict [("scene",
                  TDict [("xaxis", TDict [("title", TStr "x");
                                          ("color", TStr "#787878")]);
                         ("yaxis", TDict [("title", TStr "p");
                                          ("color", TStr "#787878");
                                          ("gridcolor", TStr "#787878")]);
                         ("zaxis", TDict [("title", TStr "W(x,p)")]);
                         ("bgcolor", TStr "white")]);
                 ("paper_bgcolor", TStr "white");
                 ("plot_bgcolor", TStr "white");
                 ("font", TDict [("color", TStr "#787878")])]) /\
    (exists keys, chart = TDict keys /\ map fst keys = ["data"; "layout"]).
Proof.
  eexists. split; [reflexivity|]. split; [reflexivity|].
  eexists. split; reflexivity.
Qed.

(** ** More about the returned bar chart *)

Lemma nonempty_numplots (modes : list Z) : modes <> [] -> (0 < numplots modes)%nat.
Proof. unfold numplots. destruct modes; [congruence|cbn; lia]. Qed.

(** The store in which the call returns. *)
Lemma fock_chart_final (h0 : heap) (c lay ann a0 : loc)
    (dc dl d0 : list (string * value)) (modes : list Z)
    (photonDists : list (list Q)) (mean : list Q) (xlabels : value) :
  wf_template h0 c lay ann a0 dc dl d0 ->
  modes_in_range modes photonDists mean ->
  modes <> [] ->
  exists h' dl' al,
    generate_fock_chart (VRef c) modes photonDists mean xlabels h0
      = (Ok (VRef c), h') /\
    fock_final h0 c lay ann a0 dc dl d0 modes photonDists mean xlabels h' dl' al.
Proof.
  intros WF RANGE Hne.
  pose proof (fock_chart_returns h0 c lay ann a0 dc dl d0 modes photonDists
                mean xlabels WF Hne RANGE) as H.
  apply returns_inv in H as (v & h' & Hrun & -> & dl' & al & F).
  eauto.
Qed.

(** Keys that the annotation chain does not assign keep the seed's value. *)
Lemma ann_dict_other modes mean d0 idx k :
  k <> "text" -> k <> "x" ->
  dict_get k (ann_dict modes mean d0 idx) = dict_get k d0.
Proof.
  intros Ht Hx. induction idx as [|idx IH]; cbn [ann_dict];
    rewrite !dict_get_set_ne by auto; auto.
Qed.

(** X3: the data list of the bar chart is a new list of as many new,
    pairwise distinct dicts as there are modes; the trace at position [idx]
    has the items type, marker, x, y, xaxis, yaxis and name, in this order,
    with a new marker dict, the labels object that was passed in
    (shared by all traces, not copied), the axis name ["x"], ["x2"], ...
    and an empty name. *)
Theorem fock_trace_fields (h0 : heap) (c lay ann a0 : loc)
    (dc dl d0 : list (string * value)) (modes : list Z)
    (photonDists : list (list Q)) (mean : list Q) (xlabels : value) :
  wf_template h0 c lay ann a0 dc dl d0 ->
  modes_in_range modes photonDists mean ->
  modes <> [] ->
  exists h' data ts,
    generate_fock_chart (VRef c) modes photonDists mean xlabels h0
      = (Ok (VRef c), h') /\
    at_path h' (VRef c) [KStr "data"] data /\
    list_at h' data (map VRef ts) /\
    length ts = length modes /\
    NoDup ts /\
    forall idx t, ts !! idx = Some t ->
      (length h0 <= t)%nat /\
      exists mk ys,
        h' !! t = Some (ODict [("type", VStr "bar"); ("marker", VRef mk);
                               ("x", xlabels); ("y", VRef ys);
                               ("xaxis", VStr (xname idx));
                               ("yaxis", VStr "y"); ("name", VStr "")]) /\
        (length h0 <= mk)%nat /\
        h' !! mk = Some (ODict [("color", VStr "#1f9094")]).
Proof.
  intros WF RANGE Hne.
  destruct (fock_chart_final h0 c lay ann a0 dc dl d0 modes photonDists mean
              xlabels WF RANGE Hne) as (h' & dl' & al & Hrun & I & _).
  destruct I as [Ilen Ic Idata Ilay Iannot Iaxes Irest Iann Iallen Ial0
                 Ialfresh Ianns Ia0 Itodo Itraces Iframe].
  exists h', (VRef (length h0 + numplots modes)%nat),
    (seq (length h0) (numplots modes)).
  split; [exact Hrun|].
  split. { eapply at_path_str; [exact Ic|apply dict_get_set_eq|apply at_path_nil]. }
  split. { eexists. split; [reflexivity|exact Idata]. }
  split. { apply length_seq. }
  split. { apply NoDup_seq. }
  intros idx t Ht. apply lookup_seq in Ht as [-> Hidx].
  split; [lia|].
  destruct (Itraces idx Hidx) as (mk & ys & Ht & [Hmk _] & Hmkd & _).
  exists mk, ys. split; [exact Ht|]. split; [lia|exact Hmkd].
Qed.

(** X4: every panel gets a new axis dict with the items type, domain,
    title, fixedrange and gridcolor, in this order, under a key of its own
    ([xaxis], [xaxis2], ...).  The first panel replaces the ['xaxis'] of
    the template: the template's own x-axis dict stays as it was in the
    store and is no longer reached from the layout. *)
Theorem fock_axis_fields (h0 : heap) (c lay ann a0 : loc)
    (dc dl d0 : list (string * value)) (modes : list Z)
    (photonDists : list (list Q)) (mean : list Q) (xlabels : value) :
  wf_template h0 c lay ann a0 dc dl d0 ->
  modes_in_range modes photonDists mean ->
  modes <> [] ->
  exists h',
    generate_fock_chart (VRef c) modes photonDists mean xlabels h0
      = (Ok (VRef c), h') /\
    (forall idx, (idx < length modes)%nat ->
       exists ax dom title,
         at_path h' (VRef c) [KStr "layout"; KStr (axname idx)] (VRef ax) /\
         (length h0 <= ax)%nat /\
         h' !! ax = Some (ODict [("type", VStr "category"); ("domain", dom);
                                 ("title", VStr title);
                                 ("fixedrange", VBool true);
                                 ("gridcolor", VStr "rgba(0,0,0,0)")])) /\
    (forall i j, axname i = axname j -> i = j) /\
    (forall xa, dict_get "xaxis" dl = Some (VRef xa) ->
       (xa < length h0)%nat ->
       xa <> c -> xa <> lay -> xa <> ann -> xa <> a0 ->
       h' !! xa = h0 !! xa /\
       exists ax, at_path h' (VRef c) [KStr "layout"; KStr "xaxis"] (VRef ax) /\
                  ax <> xa).
Proof.
  intros WF RANGE Hne.
  destruct (fock_chart_final h0 c lay ann a0 dc dl d0 modes photonDists mean
              xlabels WF RANGE Hne) as (h' & dl' & al & Hrun & I & _).
  pose proof (wf_layout _ _ _ _ _ _ _ _ WF) as Hlayout.
  pose proof (nonempty_numplots modes Hne) as Hn.
  destruct I as [Ilen Ic Idata Ilay Iannot Iaxes Irest Iann Iallen Ial0
                 Ialfresh Ianns Ia0 Itodo Itraces Iframe].
  assert (Hpath : forall k v, dict_get k dl' = Some v ->
            at_path h' (VRef c) [KStr "layout"; KStr k] v).
  { intros k v Hk. eapply at_path_str; [exact Ic| |].
    - rewrite dict_get_set_ne by discriminate. exact Hlayout.
    - eapply at_path_str; [exact Ilay|exact Hk|apply at_path_nil]. }
  exists h'. split; [exact Hrun|].
  split; [|split].
  - intros idx Hidx.
    destruct (Iaxes idx Hidx) as (ax & dm & Hk & [Hax _] & Haxd & _).
    exists ax, (VRef dm), ("mode " +:+ format_int (mode_at modes idx)).
    split; [now apply Hpath|]. split; [lia|exact Haxd].
  - apply axname_inj.
  - intros xa Hxa Bxa N1 N2 N3 N4.
    split; [now apply Iframe|].
    destruct (Iaxes 0%nat Hn) as (ax & dm & Hk & [Hax _] & _).
    exists ax. split; [now apply Hpath|lia].
Qed.

(** X5: besides the axes the call assigns ['data'] of the chart and
    ['title'] and ['font'] of the layout (the font a new dict with the text
    colour); every other key of the layout keeps its value, and every
    object of the store that is not the chart, the layout, the annotation
    list or the seed annotation is unchanged. *)
Theorem fock_layout_frame (h0 : heap) (c lay ann a0 : loc)
    (dc dl d0 : list (string * value)) (modes : list Z)
    (photonDists : list (list Q)) (mean : list Q) (xlabels : value) :
  wf_template h0 c lay ann a0 dc dl d0 ->
  modes_in_range modes photonDists mean ->
  modes <> [] ->
  exists h' data dl' font,
    generate_fock_chart (VRef c) modes photonDists mean xlabels h0
      = (Ok (VRef c), h') /\
    h' !! c = Some (ODict (dict_set "data" (VRef data) dc)) /\
    h' !! lay = Some (ODict dl') /\
    dict_get "title" dl' = Some (VStr "Marginal Fock state probabilities") /\
    dict_get "font" dl' = Some (VRef font) /\
    h' !! font = Some (ODict [("color", VStr "#787878")]) /\
    (forall k, (forall j, (j < length modes)%nat -> k <> axname j) ->
               k <> "title" -> k <> "font" ->
               dict_get k dl' = dict_get k dl) /\
    (forall l, (l < length h0)%nat -> l <> c -> l <> lay -> l <> ann ->
               l <> a0 -> h' !! l = h0 !! l).
Proof.
  intros WF RANGE Hne.
  destruct (fock_chart_final h0 c lay ann a0 dc dl d0 modes photonDists mean
              xlabels WF RANGE Hne)
    as (h' & dl' & al & Hrun & I & Htitle & f & Hfont & Hf).
  destruct I as [Ilen Ic Idata Ilay Iannot Iaxes Irest Iann Iallen Ial0
                 Ialfresh Ianns Ia0 Itodo Itraces Iframe].
  exists h', (length h0 + numplots modes)%nat, dl', f.
  repeat (split; [assumption|]).
  exact Iframe.
Qed.

(** X6: the annotation list of the result is the list object of the
    template, extended in place to one entry per mode; its first entry is
    the seed annotation itself, written in place, the others are new
    objects; each annotation agrees with the seed on every key but ['text']
    and ['x'] (the copies are shallow: a nested value such as ['font'] is
    the seed's own object). *)
Theorem fock_annotations_share (h0 : heap) (c lay ann a0 : loc)
    (dc dl d0 : list (string * value)) (modes : list Z)
    (photonDists : list (list Q)) (mean : list Q) (xlabels : value) :
  wf_template h0 c lay ann a0 dc dl d0 ->
  modes_in_range modes photonDists mean ->
  modes <> [] ->
  exists h' al,
    generate_fock_chart (VRef c) modes photonDists mean xlabels h0
      = (Ok (VRef c), h') /\
    at_path h' (VRef c) [KStr "layout"; KStr "annotations"] (VRef ann) /\
    h' !! ann = Some (OList (map VRef al)) /\
    length al = length modes /\
    al !! 0%nat = Some a0 /\
    (forall j a, (0 < j)%nat -> al !! j = Some a -> (length h0 <= a)%nat) /\
    (forall j a, al !! j = Some a ->
       exists d, h' !! a = Some (ODict d) /\
                 forall k, k <> "text" -> k <> "x" ->
                           dict_get k d = dict_get k d0).
Proof.
  intros WF RANGE Hne.
  destruct (fock_chart_final h0 c lay ann a0 dc dl d0 modes photonDists mean
              xlabels WF RANGE Hne) as (h' & dl' & al & Hrun & I & _).
  pose proof (wf_layout _ _ _ _ _ _ _ _ WF) as Hlayout.
  pose proof (nonempty_numplots modes Hne) as Hn.
  destruct I as [Ilen Ic Idata Ilay Iannot Iaxes Irest Iann Iallen Ial0
                 Ialfresh Ianns Ia0 Itodo Itraces Iframe].
  assert (Hlen : length al = numplots modes) by lia.
  exists h', al. split; [exact Hrun|].
  split.
  { eapply at_path_str; [exact Ic| |].
    - rewrite dict_get_set_ne by discriminate. exact Hlayout.
    - eapply at_path_str; [exact Ilay|exact Iannot|apply at_path_nil]. }
  split; [exact Iann|]. split; [exact Hlen|]. split; [exact Ial0|].
  split.
  { intros j a Hj Ha. destruct (Ialfresh j a Hj Ha). lia. }
  intros j a Ha.
  assert (Bj : (j < numplots modes)%nat)
    by (rewrite <- Hlen; eapply lookup_lt_Some; eauto).
  destruct (Ianns j Bj) as (aj & Haj & Hdj).
  rewrite Ha in Haj. injection Haj as <-.
  eexists. split; [exact Hdj|].
  intros k Ht Hx. now apply ann_dict_other.
Qed.

(** ** Widths of the panels *)

Lemma gap_left_range idx : (0 <= gap_left idx)%Q /\ (gap_left idx <= 1 # 100)%Q.
Proof. unfold gap_left. destruct (idx =? 0)%nat; split; discriminate. Qed.

Lemma gap_right_range n idx :
  (0 <= gap_right n idx)%Q /\ (gap_right n idx <= 1 # 100)%Q.
Proof. unfold gap_right. destruct (idx =? n - 1)%nat; split; discriminate. Qed.

Lemma panel_width (modes : list Z) idx :
  (idx < length modes)%nat ->
  let n := length modes in
  ((n <= 49)%nat -> (panel_lo modes idx < panel_hi modes idx)%Q) /\
  ((0 < idx)%nat -> (S idx < n)%nat -> (51 <= n)%nat ->
     (panel_hi modes idx < panel_lo modes idx)%Q) /\
  ((n <= 24)%nat ->
     (panel_lo modes idx < ann_x modes idx)%Q /\
     (ann_x modes idx < panel_hi modes idx)%Q) /\
  ((0 < idx)%nat -> (S idx < n)%nat -> (26 <= n)%nat ->
     (panel_hi modes idx < ann_x modes idx)%Q).
Proof.
  intros Hidx n.
  assert (Hn : (0 < numplots modes)%nat) by (unfold numplots; lia).
  destruct (panel_bounds_near modes idx Hidx) as (Blo & Bhi & Bx).
  cbv zeta in Blo, Bhi, Bx. fold n in Blo, Bhi, Bx.
  pose proof (gap_left_range idx) as [Gl0 Gl1].
  pose proof (gap_right_range n idx) as [Gr0 Gr1].
  assert (Hp : Z.pos (Z.to_pos (Z.of_nat n)) = Z.of_nat n)
    by (apply Z2Pos.id; unfold numplots in Hn; subst n; lia).
  unfold n in Blo, Bhi, Bx.
  rewrite (frac_div modes (Z.of_nat idx) Hn) in Blo, Bx.
  rewrite (frac_div modes (Z.of_nat idx + 1) Hn) in Bhi.
  rewrite (half_div modes Hn) in Bx.
  unfold numplots in Blo, Bhi, Bx. fold n in Blo, Bhi, Bx.
  set (p := Z.to_pos (Z.of_nat n)) in *.
  assert (Es : (Z.of_nat idx + 1 # p == (Z.of_nat idx # p) + (1 # p))%Q)
    by (unfold Qeq, Qplus; cbn; nia).
  assert (Eh : ((1 # 2 * p) * 2 == 1 # p)%Q)
    by (unfold Qeq, Qmult; cbn; lia).
  rewrite Es in Bhi.
  revert Blo Bhi Bx Es Eh.
  generalize (Z.of_nat idx # p)%Q (1 # 2 * p)%Q
    (panel_lo modes idx) (panel_hi modes idx) (ann_x modes idx).
  intros A H lo hi x Blo Bhi Bx _ Eh.
  apply Qabs_Qle_condition in Blo as [Blo1 Blo2].
  apply Qabs_Qle_condition in Bhi as [Bhi1 Bhi2].
  apply Qabs_Qle_condition in Bx as [Bx1 Bx2].
  assert (Gli : (0 < idx)%nat -> gap_left idx = (1 # 100)%Q).
  { intros Hi. unfold gap_left. destruct (Nat.eqb_spec idx 0); [lia|].
    reflexivity. }
  assert (Gri : (S idx < n)%nat -> gap_right n idx = (1 # 100)%Q).
  { intros Hi. unfold gap_right. destruct (Nat.eqb_spec idx (n - 1)); [lia|].
    reflexivity. }
  split; [|split; [|split]].
  - intros Hs.
    assert (Hq : (1 # 49 <= 1 # p)%Q) by (unfold Qle; cbn; lia).
    lra.
  - intros H1 H2 Hs. rewrite (Gli H1) in *. rewrite (Gri H2) in *.
    assert (Hq : (1 # p <= 1 # 51)%Q) by (unfold Qle; cbn; lia).
    lra.
  - intros Hs.
    assert (Hq : (1 # 24 <= 1 # p)%Q) by (unfold Qle; cbn; lia).
    split; lra.
  - intros H1 H2 Hs. rewrite (Gli H1) in *. rewrite (Gri H2) in *.
    assert (Hq : (1 # p <= 1 # 26)%Q) by (unfold Qle; cbn; lia).
    lra.
Qed.

(** X7: the gaps are absolute, so the panels run out of room: with up to
    49 modes every panel has low < high, and with up to 24 modes its
    caption lies strictly inside the panel; with 51 modes or more every
    inner panel has high < low, an inverted domain, and with 26 or more
    the caption of an inner panel lies to the right of its panel. *)
Theorem fock_panel_width (h0 : heap) (c lay ann a0 : loc)
    (dc dl d0 : list (string * value)) (modes : list Z)
    (photonDists : list (list Q)) (mean : list Q) (xlabels : value)
    (idx : nat) :
  wf_template h0 c lay ann a0 dc dl d0 ->
  modes_in_range modes photonDists mean ->
  (idx < length modes)%nat ->
  let n := length modes in
  exists h' dom lo hi x,
    generate_fock_chart (VRef c) modes photonDists mean xlabels h0
      = (Ok (VRef c), h') /\
    at_path h' (VRef c) [KStr "layout"; KStr (axname idx); KStr "domain"] dom /\
    list_at h' dom [VFloat lo; VFloat hi] /\
    at_path h' (VRef c)
      [KStr "layout"; KStr "annotations"; KIdx (Z.of_nat idx); KStr "x"]
      (VFloat x) /\
    ((n <= 49)%nat -> (lo < hi)%Q) /\
    ((0 < idx)%nat -> (S idx < n)%nat -> (51 <= n)%nat -> (hi < lo)%Q) /\
    ((n <= 24)%nat -> (lo < x)%Q /\ (x < hi)%Q) /\
    ((0 < idx)%nat -> (S idx < n)%nat -> (26 <= n)%nat -> (hi < x)%Q).
Proof.
  intros WF RANGE Hidx n. subst n.
  destruct (fock_chart_panels h0 c lay ann a0 dc dl d0 modes photonDists mean
              xlabels WF RANGE (nonempty_of_lt _ _ Hidx))
    as (h' & al & Hrun & Hanns & Hann & _ & _ & Hpanels).
  destruct (Hpanels idx Hidx)
    as (t & mk & ys & ax & dm & a & _ & _ & _ & Hax & Haxd & Hdm & Ha & Had).
  exists h', (VRef dm), (panel_lo modes idx), (panel_hi modes idx),
    (ann_x modes idx).
  split; [exact Hrun|].
  split.
  { apply (at_path_app h' (VRef c) [KStr "layout"; KStr (axname idx)]
             (VRef ax) [KStr "domain"]); [exact Hax|].
    eapply at_path_str; [exact Haxd|reflexivity|apply at_path_nil]. }
  split. { exists dm. auto. }
  split.
  { apply (at_path_app h' (VRef c) [KStr "layout"; KStr "annotations"]
             (VRef ann) [KIdx (Z.of_nat idx); KStr "x"]); [exact Hanns|].
    eapply at_path_idx; [exact Hann|rewrite lookup_map, Ha; reflexivity|].
    eapply at_path_str; [exact Had|apply ann_dict_x|apply at_path_nil]. }
  exact (panel_width modes idx Hidx).
Qed.

(** ** Runs that raise, with the store they leave *)

Lemma fails_bind {A B} (m : M A) (k : A -> M B) h a h1 e Q :
  m h = (Ok a, h1) -> fails (k a h1) e Q -> fails (bind m k h) e Q.
Proof. intros Hm. unfold bind. now rewrite Hm. Qed.

Lemma fails_now {A B} (m : M A) (k : A -> M B) h h1 e (Q : heap -> Prop) :
  m h = (Raise e, h1) -> Q h1 -> fails (bind m k h) e Q.
Proof. intros Hm HQ. unfold bind. rewrite Hm. now split. Qed.

Lemma fails_first {A B} (m : M A) (k : A -> M B) h e Q :
  fails (m h) e Q -> fails (bind m k h) e Q.
Proof. unfold bind. destruct (m h) as [[a|e'] h1]; cbn; [tauto|auto]. Qed.

Lemma fails_seq {A B} (m : M A) (k : A -> M B) h (P : A -> heap -> Prop) e Q :
  returns (m h) P -> (forall a h1, P a h1 -> fails (k a h1) e Q) ->
  fails (bind m k h) e Q.
Proof. unfold bind. destruct (m h) as [[a|e'] h1]; cbn; [auto|tauto]. Qed.

Lemma fails_assoc {A B C} (m : M A) (f : A -> M B) (g : B -> M C) h e Q :
  fails (bind m (fun x => bind (f x) g) h) e Q ->
  fails (bind (bind m f) g h) e Q.
Proof. now rewrite bind_assoc. Qed.

Lemma fails_impl {A} (r : result A * heap) e (P Q : heap -> Prop) :
  fails r e P -> (forall h, P h -> Q h) -> fails r e Q.
Proof. destruct r as [[a|e'] h]; cbn; [auto|intros [-> HP] H; auto]. Qed.

Lemma fails_inv {A} (r : result A * heap) e Q :
  fails r e Q -> exists h', r = (Raise e, h') /\ Q h'.
Proof. destruct r as [[a|e'] h']; cbn; [tauto|intros [-> HQ]; eauto]. Qed.

Lemma getitem_s_missing (h : heap) l d k :
  h !! l = Some (ODict d) -> dict_get k d = None ->
  getitem_s (VRef l) k h = (Raise KeyError, h).
Proof.
  intros Hl Hk. unfold getitem_s, bind, read. rewrite Hl. now rewrite Hk.
Qed.

Lemma getitem_i_out_of_range (h : heap) l xs i :
  h !! l = Some (OList xs) -> py_index xs i = None ->
  getitem_i (VRef l) i h = (Raise IndexError, h).
Proof.
  intros Hl Hi. unfold getitem_i, bind, read, index_or_raise.
  rewrite Hl. now rewrite Hi.
Qed.

Ltac fstep :=
  lazymatch goal with
  | |- fails (bind (bind _ _) _ _) _ _ => apply fails_assoc
  | |- fails (bind _ _ _) _ _ =>
      eapply fails_bind;
      [ prim
      | norm_goal;
        lazymatch goal with
        | |- fails (?g ?H) _ _ => name_heap H
        | |- _ => idtac
        end ]
  end.

(** The statements before the loop, for any chart that is a dict. *)
Lemma fock_prologue_dict (h0 : heap) (c : loc) (dc : list (string * value))
    (modes : list Z) (photonDists : list (list Q)) (mean : list Q)
    (xlabels : value) :
  h0 !! c = Some (ODict dc) ->
  generate_fock_chart (VRef c) modes photonDists mean xlabels h0 =
  bind (for_enumerate (fock_panel (VRef c) modes photonDists mean xlabels)
          0 (sorted modes))
       (fun _ => fock_epilogue (VRef c))
       (<[c := ODict (dict_set "data" (VRef (length h0 + numplots modes)%nat) dc)]>
          ((h0 ++ replicate (numplots modes) (ODict []))
             ++ [OList (map VRef (seq (length h0) (numplots modes)))])).
Proof.
  intros Hc. unfold generate_fock_chart.
  assert (Bc : (c < length h0)%nat) by (eapply lookup_lt_Some; eauto).
  rewrite (bind_ok _ _ _ _ _ (alloc_dicts_run _ _)).
  rewrite (bind_ok _ _ _ _ _ (alloc_run _ _)).
  erewrite bind_ok.
  2:{ eapply setitem_run. rewrite <- app_assoc.
      rewrite lookup_app_l by exact Bc. exact Hc. }
  rewrite length_app, length_replicate. reflexivity.
Qed.

(** The store after those statements. *)
Lemma fock_prologue_store (h0 : heap) (c : loc) (dc : list (string * value))
    (n : nat) :
  h0 !! c = Some (ODict dc) ->
  let h1 := <[c := ODict (dict_set "data" (VRef (length h0 + n)%nat) dc)]>
              ((h0 ++ replicate n (ODict []))
                 ++ [OList (map VRef (seq (length h0) n))]) in
  length h1 = (length h0 + n + 1)%nat /\
  h1 !! c = Some (ODict (dict_set "data" (VRef (length h0 + n)%nat) dc)) /\
  h1 !! (length h0 + n)%nat = Some (OList (map VRef (seq (length h0) n))) /\
  (forall i, (i < n)%nat -> h1 !! (length h0 + i)%nat = Some (ODict [])) /\
  (forall l, (l < length h0)%nat -> l <> c -> h1 !! l = h0 !! l).
Proof.
  intros Hc h1.
  assert (Bc : (c < length h0)%nat) by (eapply lookup_lt_Some; eauto).
  assert (Hlen : length h1 = (length h0 + n + 1)%nat).
  { unfold h1. rewrite length_insert, !length_app, length_replicate.
    reflexivity. }
  split; [exact Hlen|].
  split. { unfold h1. apply list_lookup_insert_eq. rewrite !length_app. lia. }
  split.
  { unfold h1. rewrite list_lookup_insert_ne by lia.
    apply lookup_app_new. rewrite length_app, length_replicate. reflexivity. }
  split.
  { intros i Hi. unfold h1. rewrite list_lookup_insert_ne by lia.
    rewrite lookup_app_l by (rewrite length_app, length_replicate; lia).
    rewrite lookup_app_r by lia.
    apply lookup_replicate_2. lia. }
  intros l Hl Hne. unfold h1.
  rewrite list_lookup_insert_ne by auto.
  rewrite <- app_assoc. now apply lookup_app_l.
Qed.

(** X9: with no modes and a layout without ['xaxis'] the call raises
    [KeyError] (line 267 reads ['xaxis'] whether or not a panel made one),
    after it has replaced ['data'] of the chart by a new, empty list;
    nothing else in the store has changed. *)
Theorem fock_chart_no_modes_no_xaxis (h0 : heap) (c lay : loc)
    (dc dl : list (string * value))
    (photonDists : list (list Q)) (mean : list Q) (xlabels : value) :
  h0 !! c = Some (ODict dc) ->
  dict_get "layout" dc = Some (VRef lay) ->
  h0 !! lay = Some (ODict dl) ->
  c <> lay ->
  dict_get "xaxis" dl = None ->
  exists h' data,
    generate_fock_chart (VRef c) [] photonDists mean xlabels h0
      = (Raise KeyError, h') /\
    h' !! c = Some (ODict (dict_set "data" (VRef data) dc)) /\
    h' !! data = Some (OList []) /\
    (length h0 <= data)%nat /\
    forall l, (l < length h0)%nat -> l <> c -> h' !! l = h0 !! l.
Proof.
  intros Hc Hlayout Hlay Ncl Hx.
  rewrite (fock_prologue_dict h0 c dc [] photonDists mean xlabels Hc).
  change (numplots []) with 0%nat. change (sorted []) with (@nil Z).
  destruct (fock_prologue_store h0 c dc 0 Hc) as (Hlen & Fc & Fd & _ & Fs).
  set (h1 := <[c:=_]> _) in *. clearbody h1.
  assert (Blay : (lay < length h0)%nat) by (eapply lookup_lt_Some; eauto).
  assert (Flay : h1 !! lay = Some (ODict dl)).
  { rewrite Fs by auto. exact Hlay. }
  exists h1, (length h0 + 0)%nat.
  split.
  { cbn [for_enumerate]. unfold bind at 1. unfold ret.
    unfold fock_epilogue.
    erewrite bind_ok.
    2:{ eapply getitem_s_run; [exact Fc|].
        rewrite dict_get_set_ne by discriminate. exact Hlayout. }
    unfold bind. erewrite getitem_s_missing; eauto. }
  split; [exact Fc|]. split; [exact Fd|]. split; [lia|exact Fs].
Qed.

(** ** A mode out of range: what the call has done when it raises *)

Section FockFailure.
Variable h0 : heap.
Variables c lay ann a0 : loc.
Variables dc dl d0 : list (string * value).
Variable modes : list Z.
Variable photonDists : list (list Q).
Variable mean : list Q.
Variable xlabels : value.
Hypothesis WF : wf_template h0 c lay ann a0 dc dl d0.

Local Abbreviation L := (length h0).
Local Abbreviation n := (numplots modes).
Local Abbreviation Inv := (Inv h0 c lay ann a0 dc dl d0 modes photonDists mean xlabels).

(** The iteration that raises has written to its own trace, to the layout
    under the name of its axis and to the end of the annotation list, at
    most. *)
Lemma fock_panel_fails idx m h dl' al :
  Inv idx h dl' al -> (idx < n)%nat -> sorted modes !! idx = Some m ->
  py_index photonDists m = None \/ py_index mean m = None ->
  fails (fock_panel (VRef c) modes photonDists mean xlabels idx m h)
    IndexError
    (fun h' =>
       (length h <= length h')%nat /\
       (forall l, (l < length h)%nat -> l <> lay -> l <> ann ->
                  l <> (L + idx)%nat -> h' !! l = h !! l) /\
       (exists dl'', h' !! lay = Some (ODict dl'') /\
                     forall k, k <> axname idx ->
                               dict_get k dl'' = dict_get k dl') /\
       (exists al', h' !! ann = Some (OList (map VRef (al ++ al'))))).
Proof.
  intros I Hidx Hm Hbad.
  pose proof (wf_bounds _ _ _ _ _ _ _ _ WF) as (Bc & Blay & Bann & Ba0).
  pose proof (wf_ann_ne _ _ _ _ _ _ _ _ WF) as (Nac & Nal & Naa).
  pose proof (wf_c_lay _ _ _ _ _ _ _ _ WF) as Ncl.
  pose proof (wf_c_a0 _ _ _ _ _ _ _ _ WF) as Nca.
  pose proof (wf_lay_a0 _ _ _ _ _ _ _ _ WF) as Nla.
  pose proof (wf_layout _ _ _ _ _ _ _ _ WF) as Hlayout.
  destruct I as [Ilen Ic Idata Ilay Iannot Iaxes Irest Iann Iallen Ial0
                 Ialfresh Ianns Ia0 Itodo Itraces Iframe].
  assert (Htr : map VRef (seq L n) !! idx = Some (VRef (L + idx)%nat)).
  { rewrite lookup_map, lookup_seq_lt by lia. reflexivity. }
  pose proof (Itodo idx ltac:(lia)) as Ht.
  unfold fock_panel.
  destruct (py_index photonDists m) as [row|] eqn:Hrow.
  2:{ repeat fstep. eapply fails_now.
      - apply index_or_raise_none; assumption.
      - split; [slia|]. split; [intros; hl|].
        split.
        + exists dl'. split; [hl|auto].
        + exists []. rewrite app_nil_r. hl. }
  destruct Hbad as [Hbad|Hmu]; [discriminate|].
  assert (Hn0 : Z.of_nat n <> 0) by lia.
  destruct idx as [|i].
  - change (Z.of_nat 0 =? 0) with true. cbv iota.
    repeat fstep. eapply fails_now.
    + apply index_or_raise_none; assumption.
    + split; [slia|]. split; [intros; hl|].
      split.
      * eexists. split; [hl|].
        intros k Hk. now apply dict_get_set_ne.
      * exists []. rewrite app_nil_r. hl.
  - change (Z.of_nat (S i) =? 0) with false. cbv iota.
    replace (Z.of_nat (S i) - 1) with (Z.of_nat i) by lia.
    destruct (Ianns i ltac:(lia)) as (ap & Hap & Hapd).
    assert (Bap : (ap < length h)%nat /\ ap <> lay /\ ap <> ann /\
                  ap <> (L + S i)%nat /\ ap <> c).
    { destruct i as [|i].
      - rewrite Ial0 in Hap. injection Hap as <-. repeat split; lia.
      - destruct (Ialfresh (S i) ap ltac:(lia) Hap). repeat split; lia. }
    destruct Bap as (Bap1 & Bap2 & Bap3 & Bap4 & Bap5).
    assert (Hprev : map VRef al !! i = Some (VRef ap)).
    { rewrite lookup_map, Hap. reflexivity. }
    repeat fstep. eapply fails_now.
    + apply index_or_raise_none; assumption.
    + split; [slia|]. split; [intros; hl|].
      split.
      * eexists. split; [hl|].
        intros k Hk. now apply dict_get_set_ne.
      * eexists [_]. rewrite map_app. hl.
Qed.

(** The loop up to the first mode out of range, at position [j]: the
    panels before [j] are finished as the invariant says, then the
    iteration for [j] raises. *)
Lemma fock_loop_fails xs : forall idx h dl' al j m,
  drop idx (sorted modes) = xs -> (idx <= j)%nat -> Inv idx h dl' al ->
  sorted modes !! j = Some m ->
  py_index photonDists m = None \/ py_index mean m = None ->
  (forall i m', (i < j)%nat -> sorted modes !! i = Some m' ->
     py_index photonDists m' <> None /\ py_index mean m' <> None) ->
  fails (for_enumerate (fock_panel (VRef c) modes photonDists mean xlabels)
           idx xs h)
    IndexError
    (fun h' => exists hj dlj alj,
       Inv j hj dlj alj /\
       (length hj <= length h')%nat /\
       (forall l, (l < length hj)%nat -> l <> lay -> l <> ann ->
                  l <> (L + j)%nat -> h' !! l = hj !! l) /\
       (exists dl'', h' !! lay = Some (ODict dl'') /\
                     forall k, k <> axname j ->
                               dict_get k dl'' = dict_get k dlj) /\
       (exists al', h' !! ann = Some (OList (map VRef (alj ++ al'))))).
Proof.
  induction xs as [|x xs IH]; intros idx h dl' al j m Hdrop Hle I Hj Hbad Hgood.
  - exfalso. apply lookup_lt_Some in Hj.
    apply (f_equal length) in Hdrop. rewrite length_drop in Hdrop.
    cbn in Hdrop. lia.
  - apply drop_cons_inv in Hdrop as [Hx Hdrop].
    assert (Hidx : (idx < n)%nat).
    { apply lookup_lt_Some in Hx. now rewrite sorted_length in Hx. }
    cbn [for_enumerate].
    destruct (Nat.eq_dec idx j) as [->|Hne].
    + rewrite Hj in Hx. injection Hx as <-.
      apply fails_first.
      eapply fails_impl;
        [exact (fock_panel_fails j m h dl' al I Hidx Hj Hbad)|].
      cbv beta. intros h' (H1 & H2 & H3 & H4).
      exists h, dl', al. auto.
    + destruct (Hgood idx x ltac:(lia) Hx) as [Hg1 Hg2].
      pose proof (fock_panel_step h0 c lay ann a0 dc dl d0 modes photonDists
                    mean xlabels WF idx x h dl' al I Hidx Hx) as Hstep.
      destruct (py_index photonDists x); [|congruence].
      destruct (py_index mean x); [|congruence].
      eapply fails_seq; [exact Hstep|].
      intros _ h1 (dl1 & al1 & I1). cbv beta.
      apply (IH (S idx) h1 dl1 al1 j m); auto. lia.
Qed.
(** Where the first mode out of range stands in the sorted list. *)
Lemma first_out_of_range (xs : list Z) :
  Exists (fun m => py_index photonDists m = None \/ py_index mean m = None) xs ->
  exists j m,
    xs !! j = Some m /\
    (py_index photonDists m = None \/ py_index mean m = None) /\
    forall i m', (i < j)%nat -> xs !! i = Some m' ->
      py_index photonDists m' <> None /\ py_index mean m' <> None.
Proof.
  induction xs as [|x xs IH]; intros HE; [inversion HE|].
  destruct (py_index photonDists x) as [row|] eqn:E1.
  2:{ exists 0%nat, x. split; [reflexivity|]. split; [now left|].
      intros i m' Hi. lia. }
  destruct (py_index mean x) as [mu|] eqn:E2.
  2:{ exists 0%nat, x. split; [reflexivity|]. split; [now right|].
      intros i m' Hi. lia. }
  apply Exists_cons in HE as [[HE|HE]|HE]; try congruence.
  destruct (IH HE) as (j & m & Hj & Hbad & Hgood).
  exists (S j), m. split; [exact Hj|]. split; [exact Hbad|].
  intros [|i] m' Hi Hm'.
  - cbn in Hm'. injection Hm' as <-. split; congruence.
  - apply (Hgood i m'); [lia|exact Hm'].
Qed.

(** A call that raises for a mode out of range has left every object of
    the store it started from as it was, but for the chart, its layout, the
    annotation list and the seed annotation. *)
Lemma fock_chart_fails_frame m :
  In m modes -> py_index photonDists m = None \/ py_index mean m = None ->
  fails (generate_fock_chart (VRef c) modes photonDists mean xlabels h0)
    IndexError
    (fun h' => forall l, (l < L)%nat -> l <> c -> l <> lay -> l <> ann ->
                         l <> a0 -> h' !! l = h0 !! l).
Proof.
  intros Hin Hbad.
  pose proof (wf_bounds _ _ _ _ _ _ _ _ WF) as (Bc & Blay & Bann & Ba0).
  destruct (first_out_of_range (sorted modes)) as (j & mj & Hj & Hbj & Hgood).
  { apply Exists_exists. exists m.
    split; [apply list_elem_of_In; now apply in_sorted|exact Hbad]. }
  rewrite (fock_prologue h0 c lay ann a0 dc dl d0 modes photonDists mean
             xlabels WF).
  apply fails_first.
  eapply fails_impl.
  - exact (fock_loop_fails (sorted modes) 0%nat _ dl [a0] j mj eq_refl
             (Nat.le_0_l _)
             (fock_init h0 c lay ann a0 dc dl d0 modes photonDists mean
                xlabels WF)
             Hj Hbj Hgood).
  - cbv beta. intros h' (hj & dlj & alj & I & Hlen & Hsame & _).
    intros l Hl N1 N2 N3 N4.
    pose proof (inv_len _ _ _ _ _ _ _ _ _ _ _ _ _ _ _ _ I) as Ilen.
    rewrite Hsame by lia.
    now apply (inv_frame _ _ _ _ _ _ _ _ _ _ _ _ _ _ _ _ I).
Qed.
End FockFailure.

(** X10: a mode out of range raises [IndexError] in the middle of the
    work, and the chart is left half written: if the mode at ascending
    position [j] is the first that is no index of [photonDists] or of
    [mean], then ['data'] is already the new list with one dict per mode,
    the panels before [j] are complete (trace, axis, annotation text), and
    the objects of the store outside the template are unchanged. *)
Theorem fock_chart_failure_partial (h0 : heap) (c lay ann a0 : loc)
    (dc dl d0 : list (string * value)) (modes : list Z)
    (photonDists : list (list Q)) (mean : list Q) (xlabels : value)
    (j : nat) (m : Z) :
  wf_template h0 c lay ann a0 dc dl d0 ->
  sorted modes !! j = Some m ->
  py_index photonDists m = None \/ py_index mean m = None ->
  (forall i m', (i < j)%nat -> sorted modes !! i = Some m' ->
     py_index photonDists m' <> None /\ py_index mean m' <> None) ->
  exists h' data ts al,
    generate_fock_chart (VRef c) modes photonDists mean xlabels h0
      = (Raise IndexError, h') /\
    h' !! c = Some (ODict (dict_set "data" (VRef data) dc)) /\
    (length h0 <= data)%nat /\
    h' !! data = Some (OList (map VRef ts)) /\
    length ts = length modes /\
    h' !! ann = Some (OList (map VRef al)) /\
    al !! 0%nat = Some a0 /\
    (forall i, (i < j)%nat ->
       exists t mk ys ax a,
         ts !! i = Some t /\
         h' !! t = Some (ODict [("type", VStr "bar"); ("marker", VRef mk);
                                ("x", xlabels); ("y", VRef ys);
                                ("xaxis", VStr (xname i));
                                ("yaxis", VStr "y"); ("name", VStr "")]) /\
         at_path h' (VRef c) [KStr "layout"; KStr (axname i)] (VRef ax) /\
         (length h0 <= ax)%nat /\
         al !! i = Some a /\
         dict_get "text" (items_at h' a)
           = Some (VStr (caption modes mean i))) /\
    (forall l, (l < length h0)%nat -> l <> c -> l <> lay -> l <> ann ->
               l <> a0 -> h' !! l = h0 !! l).
Proof.
  intros WF Hj Hbad Hgood.
  pose proof (wf_bounds _ _ _ _ _ _ _ _ WF) as (Bc & Blay & Bann & Ba0).
  pose proof (wf_ann_ne _ _ _ _ _ _ _ _ WF) as (Nac & Nal & Naa).
  pose proof (wf_c_lay _ _ _ _ _ _ _ _ WF) as Ncl.
  pose proof (wf_layout _ _ _ _ _ _ _ _ WF) as Hlayout.
  assert (Hjn : (j < numplots modes)%nat).
  { apply lookup_lt_Some in Hj. now rewrite sorted_length in Hj. }
  rewrite (fock_prologue h0 c lay ann a0 dc dl d0 modes photonDists mean
             xlabels WF).
  pose proof (fock_loop_fails h0 c lay ann a0 dc dl d0 modes photonDists mean
                xlabels WF (sorted modes) 0%nat _ dl [a0] j m eq_refl
                (Nat.le_0_l _)
                (fock_init h0 c lay ann a0 dc dl d0 modes photonDists mean
                   xlabels WF)
                Hj Hbad Hgood) as HF.
  apply (fails_first _ (fun _ => fock_epilogue (VRef c))) in HF.
  apply fails_inv in HF
    as (h' & Hrun & hj & dlj & alj & I & Hlen & Hsame & (dl'' & Flay & Hkeys)
        & (al' & Fann)).
  destruct I as [Ilen Ic Idata Ilay Iannot Iaxes Irest Iann Iallen Ial0
                 Ialfresh Ianns Ia0 Itodo Itraces Iframe].
  assert (Fc : h' !! c = Some (ODict (dict_set "data"
                 (VRef (length h0 + numplots modes)%nat) dc))).
  { rewrite Hsame by lia. exact Ic. }
  exists h', (length h0 + numplots modes)%nat,
    (seq (length h0) (numplots modes)), (alj ++ al').
  split; [exact Hrun|]. split; [exact Fc|]. split; [lia|].
  split. { rewrite Hsame by lia. exact Idata. }
  split; [apply length_seq|]. split; [exact Fann|].
  split. { now apply lookup_app_l_Some. }
  split.
  - intros i Hi.
    destruct (Itraces i Hi) as (mk & ys & Ht & _).
    destruct (Iaxes i Hi) as (ax & dm & Hk & [Hax _] & _).
    destruct (Ianns i Hi) as (a & Ha & Had).
    exists (length h0 + i)%nat, mk, ys, ax, a.
    split. { apply lookup_seq_lt. lia. }
    split.
    { rewrite Hsame; [exact Ht| |lia|lia|lia].
      eapply lookup_lt_Some; eauto. }
    split.
    { eapply at_path_str; [exact Fc| |].
      - rewrite dict_get_set_ne by discriminate. exact Hlayout.
      - eapply at_path_str; [exact Flay| |apply at_path_nil].
        rewrite Hkeys; [exact Hk|].
        intros E. apply axname_inj in E. lia. }
    split; [lia|].
    split. { now apply lookup_app_l_Some. }
    assert (Ba : (a < length hj)%nat /\ a <> lay /\ a <> ann /\
                 a <> (length h0 + j)%nat).
    { split; [eapply lookup_lt_Some; eauto|].
      destruct i as [|i].
      - assert (a = a0) as -> by congruence.
        pose proof (wf_lay_a0 _ _ _ _ _ _ _ _ WF).
        repeat split; [congruence|congruence|lia].
      - destruct (Ialfresh (S i) a ltac:(lia) Ha). repeat split; lia. }
    destruct Ba as (B1 & B2 & B3 & B4).
    unfold items_at. rewrite Hsame by assumption. rewrite Had.
    apply ann_dict_text.
  - intros l Hl N1 N2 N3 N4. rewrite Hsame by lia. now apply Iframe.
Qed.

(** X8: a chart whose annotation list is empty cannot be filled: for any
    non-empty list of modes the call raises [IndexError] (at the latest
    when it assigns the text of annotation 0), after it has replaced
    ['data'] of the chart by a new list. *)
Theorem fock_chart_needs_seed (h0 : heap) (c lay ann : loc)
    (dc dl : list (string * value)) (modes : list Z)
    (photonDists : list (list Q)) (mean : list Q) (xlabels : value) :
  h0 !! c = Some (ODict dc) ->
  dict_get "layout" dc = Some (VRef lay) ->
  h0 !! lay = Some (ODict dl) ->
  dict_get "annotations" dl = Some (VRef ann) ->
  h0 !! ann = Some (OList []) ->
  c <> lay ->
  modes <> [] ->
  exists h' data,
    generate_fock_chart (VRef c) modes photonDists mean xlabels h0
      = (Raise IndexError, h') /\
    h' !! c = Some (ODict (dict_set "data" (VRef data) dc)) /\
    (length h0 <= data)%nat.
Proof.
  intros Hc Hlayout Hlay Hannot Hann Ncl Hne.
  assert (Bc : (c < length h0)%nat) by (eapply lookup_lt_Some; eauto).
  assert (Blay : (lay < length h0)%nat) by (eapply lookup_lt_Some; eauto).
  assert (Bann : (ann < length h0)%nat) by (eapply lookup_lt_Some; eauto).
  assert (Nac : ann <> c) by (intros ->; congruence).
  assert (Nal : ann <> lay) by (intros ->; congruence).
  pose proof (nonempty_numplots modes Hne) as Hn.
  assert (Hn0 : Z.of_nat (numplots modes) <> 0) by lia.
  destruct (sorted modes) as [|m0 rest] eqn:Hs.
  { pose proof (sorted_length modes) as E. rewrite Hs in E. cbn in E. lia. }
  cut (fails (generate_fock_chart (VRef c) modes photonDists mean xlabels h0)
         IndexError
         (fun h' => h' !! c = Some (ODict (dict_set "data"
                      (VRef (length h0 + numplots modes)%nat) dc)))).
  { intros H. apply fails_inv in H as (h' & Hrun & Fc).
    exists h', (length h0 + numplots modes)%nat.
    split; [exact Hrun|]. split; [exact Fc|lia]. }
  rewrite (fock_prologue_dict h0 c dc modes photonDists mean xlabels Hc), Hs.
  destruct (fock_prologue_store h0 c dc (numplots modes) Hc)
    as (Hlen & Fc & Fd & Ftodo & Fs).
  set (h1 := <[c:=_]> _) in *. clearbody h1.
  assert (Flay : h1 !! lay = Some (ODict dl)) by (rewrite Fs by auto; exact Hlay).
  assert (Fann : h1 !! ann = Some (OList [])) by (rewrite Fs by auto; exact Hann).
  pose proof (Ftodo 0%nat Hn) as Ht.
  assert (Htr : map VRef (seq (length h0) (numplots modes)) !! 0%nat
                = Some (VRef (length h0 + 0)%nat)).
  { rewrite lookup_map, lookup_seq_lt by lia. reflexivity. }
  apply fails_first. cbn [for_enumerate]. apply fails_first.
  unfold fock_panel.
  change (Z.of_nat 0 =? 0) with true. cbv iota.
  destruct (py_index photonDists m0) as [row|] eqn:Hrow.
  2:{ repeat fstep. eapply fails_now.
      - apply index_or_raise_none; assumption.
      - hl. }
  destruct (py_index mean m0) as [mu|] eqn:Hmu.
  2:{ repeat fstep. eapply fails_now.
      - apply index_or_raise_none; assumption.
      - hl. }
  repeat fstep.
  eapply fails_now.
  - eapply getitem_i_out_of_range; [hl|reflexivity].
  - hl.
Qed.

(** ** plot_wigner and plot_fock *)

Lemma deepcopy_with_labels (labels : list value) :
  deepcopy barchartDefault (module_heap ++ [OList labels])
  = (Ok (VRef 15), fock_store labels).
Proof. vm_compute. reflexivity. Qed.

Lemma fock_store_wf (labels : list value) :
  exists dc dl d0 dxa,
    wf_template (fock_store labels) 15 20 24 25 dc dl d0 /\
    dict_get "xaxis" dl = Some (VRef 23) /\
    fock_store labels !! 23%nat = Some (ODict dxa) /\
    length (fock_store labels) = 29%nat /\
    fock_store labels !! 14%nat = Some (OList labels) /\
    (forall l, (l < 14)%nat -> fock_store labels !! l = module_heap !! l).
Proof.
  do 4 eexists. split; [|split; [|split; [|split; [|split]]]].
  - constructor; try (vm_compute; reflexivity); lia.
  - reflexivity.
  - vm_compute. reflexivity.
  - vm_compute. reflexivity.
  - vm_compute. reflexivity.
  - intros l Hl. do 14 (destruct l as [|l]; [vm_compute; reflexivity|]). lia.
Qed.

(** ** numpy on arrays of fitting shapes *)

Lemma range_length (n : Z) : length (range n) = Z.to_nat n.
Proof. unfold range. now rewrite length_map, length_seq. Qed.

Lemma range_lookup (n : Z) (i : nat) :
  (i < Z.to_nat n)%nat -> range n !! i = Some (Z.of_nat i).
Proof.
  intros Hi. unfold range. rewrite lookup_map, lookup_seq_lt by lia.
  reflexivity.
Qed.

Lemma diagonal_from_length (d : nat) (p : list (list (Q * Q))) : forall i,
  Forall (fun row => length row = d) p -> (i + length p <= d)%nat ->
  length (diagonal_from i p) = length p.
Proof.
  induction p as [|row p IH]; intros i HF Hle; [reflexivity|].
  apply Forall_cons in HF as [Hrow HF]. cbn [diagonal_from length] in *.
  destruct (row !! i) as [x|] eqn:E.
  - cbn. rewrite IH; auto. lia.
  - apply lookup_ge_None in E. lia.
Qed.

Lemma np_diagonal_length (d : nat) (p : list (list (Q * Q))) :
  square d p -> length (np_real (np_diagonal p)) = d.
Proof.
  intros [Hlen HF]. unfold np_real, np_diagonal.
  rewrite length_map, (diagonal_from_length d); auto. lia.
Qed.

Lemma np_array_same_length (d : nat) (rows : list (list Q)) :
  Forall (fun r => length r = d) rows -> np_array rows = inr rows.
Proof.
  intros HF. destruct rows as [|r rs]; [reflexivity|].
  apply Forall_cons in HF as [Hr HF]. unfold np_array.
  replace (forallb _ rs) with true; [reflexivity|].
  symmetry. apply forallb_forall. intros r' Hin.
  apply Nat.eqb_eq. rewrite Hr.
  rewrite Forall_forall in HF. apply HF. now apply list_elem_of_In.
Qed.

Lemma np_mul_same_length (a : list Z) (b : list Q) :
  length a = length b ->
  np_mul a b = inr (zip_with (fun i p => fmul (to_float i) p) a b).
Proof. intros H. unfold np_mul. now rewrite H, Nat.eqb_refl. Qed.

Lemma for_each_means {C} (np_sum : list Q -> Q) (cutoff : Z)
    (pd : list (list Q))
    (w : heap * list (event C)) :
  Forall (fun r => length r = Z.to_nat cutoff) pd ->
  for_each (fun probs => (prod <- of_sum (np_mul (np_arange cutoff) probs) ;;
                          io_ret (np_sum prod))%io) pd w
  = (inr (map (mean_photon np_sum cutoff) pd), w).
Proof.
  set (f := fun probs : list Q => io_bind _ _).
  assert (Hf : forall r, length r = Z.to_nat cutoff ->
                         f r w = (inr (mean_photon np_sum cutoff r), w)).
  { intros r Hr. unfold f, io_bind, of_sum, io_ret.
    rewrite np_mul_same_length
      by (unfold np_arange; now rewrite range_length, Hr).
    reflexivity. }
  induction 1 as [|r pd Hr HF IH]; [reflexivity|].
  cbn [for_each map]. unfold io_bind at 1. rewrite (Hf r Hr).
  unfold io_bind at 1. rewrite IH. reflexivity.
Qed.

(** Python indexing into a list built over [range(k)]. *)
Lemma py_index_over_range {A} (f : Z -> A) (k : nat) (m : Z) :
  - Z.of_nat k <= m < Z.of_nat k ->
  py_index (map f (range (Z.of_nat k))) m = Some (f (m mod Z.of_nat k)).
Proof.
  intros Hm. unfold py_index.
  rewrite length_map, range_length, Nat2Z.id.
  destruct (Z.leb_spec 0 m) as [H0|H0].
  - replace (m <? Z.of_nat k) with true by (symmetry; apply Z.ltb_lt; lia).
    cbn [andb]. rewrite lookup_map, range_lookup by lia. cbn.
    rewrite Z2Nat.id, Z.mod_small by lia. reflexivity.
  - cbn [andb].
    replace (- Z.of_nat k <=? m) with true by (symmetry; apply Z.leb_le; lia).
    replace (m <? 0) with true by (symmetry; apply Z.ltb_lt; lia).
    cbn [andb]. rewrite lookup_map, range_lookup by lia. cbn.
    rewrite Z2Nat.id by lia.
    replace (m mod Z.of_nat k) with (Z.of_nat k + m); [reflexivity|].
    apply (Z.mod_unique _ _ (-1)); lia.
Qed.

Lemma py_index_over_range_none {A} (f : Z -> A) (k : nat) (m : Z) :
  m < - Z.of_nat k \/ Z.of_nat k <= m ->
  py_index (map f (range (Z.of_nat k))) m = None.
Proof.
  intros Hm. apply py_index_None_iff.
  now rewrite length_map, range_length, Nat2Z.id.
Qed.

(** ** Running plot_fock *)

Section PlotFock.
Variable state : BaseState.
Variable np_sum : list Q -> Q.
Variable modes : list Z.
Variable cutoff : Z.

Local Abbreviation k := (Z.of_nat (length modes)).
Local Abbreviation rho :=
  (map (fun n => reduced_dm state n cutoff) (range (Z.of_nat (length modes)))).
Local Abbreviation dists :=
  (map (fun n => np_real (np_diagonal (reduced_dm state n cutoff)))
       (range (Z.of_nat (length modes)))).
Local Abbreviation labels :=
  (map (fun i => VStr ("|" +:+ format_int i +:+ ">")) (range cutoff)).

Hypothesis SQ : forall i, 0 <= i < k ->
  square (Z.to_nat cutoff) (reduced_dm state i cutoff).

Lemma dists_length : Forall (fun r => length r = Z.to_nat cutoff) dists.
Proof.
  apply Forall_forall. intros r Hr%list_elem_of_In.
  apply in_map_iff in Hr as (i & <- & Hi).
  apply np_diagonal_length, SQ.
  unfold range in Hi. apply in_map_iff in Hi as (j & <- & Hj).
  apply in_seq in Hj. lia.
Qed.

(** With plotly there and density matrices of the size of the cutoff,
    plot_fock gets as far as building the chart, on a copy of the
    template; what it shows, if anything, is what generate_fock_chart
    returns. *)
Lemma plot_fock_run (cutoff_arg : option Z) (renderer : option string)
    (log : list (event value)) :
  cutoff = match cutoff_arg with
           | None => cutoff_dim state
           | Some c => c
           end ->
  plot_fock true state np_sum modes cutoff_arg renderer (module_heap, log) =
  let before := log ++ [SetRenderer (default "browser" renderer);
                        Printed (PRho rho); Printed (PDists dists)] in
  match generate_fock_chart (VRef 15) modes dists
          (map (mean_photon np_sum cutoff) dists) (VRef 14) (fock_store labels) with
  | (Ok chart, h') => (inr tt, (h', before ++ [Shown chart]))
  | (Raise e, h') => (inl (Exn e), (h', before))
  end.
Proof.
  intros Hc. unfold plot_fock. rewrite <- Hc. cbv zeta.
  unfold get_plotly. cbn [_get_plotly import_plotly_io].
  unfold io_bind at 1. unfold io_ret at 1.
  unfold io_bind at 1. unfold emit at 1. cbn [fst snd].
  unfold io_bind at 1. unfold emit at 1. cbn [fst snd].
  rewrite map_map.
  unfold io_bind at 1. unfold of_sum at 1.
  rewrite (np_array_same_length _ _ dists_length).
  unfold io_bind at 1. unfold emit at 1. cbn [fst snd].
  unfold io_bind at 1. rewrite (for_each_means _ _ _ _ dists_length).
  unfold io_bind at 1. unfold in_store at 1. cbn [fst snd].
  rewrite alloc_run.
  unfold io_bind at 1. unfold in_store at 1. cbn [fst snd].
  unfold plot_fock_chart.
  rewrite (bind_ok _ _ _ _ _ (deepcopy_with_labels _)).
  change (length module_heap) with 14%nat.
  destruct (generate_fock_chart _ _ _ _ _ _) as [[chart|e] h'].
  - unfold emit. cbn [fst snd]. rewrite <- !app_assoc. reflexivity.
  - rewrite <- !app_assoc. reflexivity.
Qed.
End PlotFock.

Lemma in_range_modes (modes : list Z) {A B} (pd : list A) (mean : list B) :
  length pd = length modes -> length mean = length modes ->
  (forall m, In m modes ->
     - Z.of_nat (length modes) <= m < Z.of_nat (length modes)) ->
  forall m, In m modes -> py_index pd m <> None /\ py_index mean m <> None.
Proof.
  intros H1 H2 Hm m Hin. specialize (Hm m Hin).
  split; intros E; apply py_index_None_iff in E; lia.
Qed.

(** X13: plot_fock asks the state for the modes 0, ..., len(modes) - 1,
    whatever the entries of [modes] are, and then reads the distributions
    at the entries of [modes]: an entry that is no index of a list of
    len(modes) rows (so plot_fock(state, [1]), for one) makes the call
    raise [IndexError], after the renderer is set and the two arrays are
    printed; nothing is shown, and the objects of the module, the template
    among them, are as they were. *)
Theorem plot_fock_mode_range (state : BaseState)
    (np_sum : list Q -> Q) (modes : list Z)
    (cutoff_arg : option Z) (renderer : option string)
    (log : list (event value)) (m : Z) :
  let k := Z.of_nat (length modes) in
  let cutoff := match cutoff_arg with
                | None => cutoff_dim state
                | Some c => c
                end in
  let rho := map (fun n => reduced_dm state n cutoff) (range k) in
  let dists := map (fun p => np_real (np_diagonal p)) rho in
  (forall i, 0 <= i < k -> square (Z.to_nat cutoff) (reduced_dm state i cutoff)) ->
  In m modes ->
  m < - k \/ k <= m ->
  exists h',
    plot_fock true state np_sum modes cutoff_arg renderer (module_heap, log)
      = (inl (Exn IndexError),
         (h', log ++ [SetRenderer (default "browser" renderer);
                      Printed (PRho rho); Printed (PDists dists)])) /\
    (forall l, (l < length module_heap)%nat -> h' !! l = module_heap !! l).
Proof.
  intros k cutoff rho dists SQ Hin Hm.
  rewrite (plot_fock_run state np_sum modes cutoff SQ cutoff_arg renderer log
             eq_refl).
  cbv zeta.
  set (labels := map _ (range cutoff)).
  destruct (fock_store_wf labels)
    as (dc & dl & d0 & dxa & WF & _ & _ & Hlen & _ & Hpre).
  set (pd := map (fun n => np_real (np_diagonal (reduced_dm state n cutoff)))
                 (range (Z.of_nat (length modes)))).
  assert (Hbad : py_index pd m = None \/
                 py_index (map (mean_photon np_sum cutoff) pd) m = None).
  { left. now apply py_index_over_range_none. }
  pose proof (fock_chart_fails_frame (fock_store labels) 15 20 24 25 dc dl d0
                modes pd (map (mean_photon np_sum cutoff) pd) (VRef 14) WF m Hin Hbad)
    as HF.
  apply fails_inv in HF as (h' & Hrun & Hframe).
  rewrite Hrun. exists h'. split.
  - unfold dists, rho. rewrite map_map. reflexivity.
  - intros l Hl. change (length module_heap) with 14%nat in Hl.
    rewrite Hframe by lia. now apply Hpre.
Qed.

(** X14: with plotly there, density matrices of the size of the cutoff
    and every entry [m] of [modes] an index of a list of len(modes) rows,
    plot_fock sets the renderer, prints the two arrays and shows one chart;
    the objects of the module are as they were.  The panel titled
    ["mode m"] carries the labels ["|0>"], ["|1>"], ... below the cutoff
    and the diagonal of the reduced density matrix of mode [m mod
    len(modes)]: of mode [m] itself only when [0 <= m]; its caption is the
    mean [np.sum(n * probs)] of that diagonal. *)
Theorem plot_fock_shows (state : BaseState)
    (np_sum : list Q -> Q) (modes : list Z)
    (cutoff_arg : option Z) (renderer : option string)
    (log : list (event value)) :
  let k := Z.of_nat (length modes) in
  let cutoff := match cutoff_arg with
                | None => cutoff_dim state
                | Some c => c
                end in
  let rho := map (fun n => reduced_dm state n cutoff) (range k) in
  let dists := map (fun p => np_real (np_diagonal p)) rho in
  (forall i, 0 <= i < k -> square (Z.to_nat cutoff) (reduced_dm state i cutoff)) ->
  (forall m, In m modes -> - k <= m < k) ->
  exists chart h',
    plot_fock true state np_sum modes cutoff_arg renderer (module_heap, log)
      = (inr tt,
         (h', log ++ [SetRenderer (default "browser" renderer);
                      Printed (PRho rho); Printed (PDists dists); Shown chart])) /\
    (forall l, (l < length module_heap)%nat -> h' !! l = module_heap !! l) /\
    forall idx m, sorted modes !! idx = Some m ->
      let probs := np_real (np_diagonal (reduced_dm state (m mod k) cutoff)) in
      exists xs ys,
        at_path h' chart [KStr "data"; KIdx (Z.of_nat idx); KStr "x"] xs /\
        list_at h' xs
          (map (fun i => VStr ("|" +:+ format_int i +:+ ">")) (range cutoff)) /\
        at_path h' chart [KStr "data"; KIdx (Z.of_nat idx); KStr "y"] ys /\
        list_at h' ys (map VFloat probs) /\
        length probs = Z.to_nat cutoff /\
        at_path h' chart [KStr "layout"; KStr (axname idx); KStr "title"]
          (VStr ("mode " +:+ format_int m)) /\
        at_path h' chart
          [KStr "layout"; KStr "annotations"; KIdx (Z.of_nat idx); KStr "text"]
          (VStr ("Mean: " +:+ format_3f (mean_photon np_sum cutoff probs))).
Proof.
  intros k cutoff rho dists SQ Hmodes.
  rewrite (plot_fock_run state np_sum modes cutoff SQ cutoff_arg renderer log
             eq_refl).
  cbv zeta.
  set (labels := map _ (range cutoff)).
  destruct (fock_store_wf labels)
    as (dc & dl & d0 & dxa & WF & Hxaxis & Hxa & Hlen & Hlab & Hpre).
  set (pd := map (fun n => np_real (np_diagonal (reduced_dm state n cutoff)))
                 (range (Z.of_nat (length modes)))).
  assert (Epd : dists = pd) by (unfold dists, rho; now rewrite map_map).
  assert (RANGE : modes_in_range modes pd (map (mean_photon np_sum cutoff) pd)).
  { unfold modes_in_range. apply in_range_modes; auto.
    - unfold pd. now rewrite length_map, range_length, Nat2Z.id.
    - unfold pd. now rewrite !length_map, range_length, Nat2Z.id. }
  destruct (decide (modes = [])) as [Hnil|Hne].
  - destruct (fock_chart_empty (fock_store labels) 15 20 24 25 23 dc dl d0 dxa
                pd (map (mean_photon np_sum cutoff) pd) (VRef 14) WF Hxaxis Hxa)
      as (h' & data & f & Hr & _ & _ & _ & _ & _ & _ & _ & _ & _ & _ & Fs);
      [discriminate..|].
    assert (Hg : generate_fock_chart (VRef 15) modes pd
                   (map (mean_photon np_sum cutoff) pd) (VRef 14)
                   (fock_store labels) = (Ok (VRef 15), h'))
      by (rewrite Hnil; exact Hr).
    rewrite Hg. exists (VRef 15), h'.
    split; [rewrite <- app_assoc, <- Epd; reflexivity|].
    split.
    + intros l Hl. change (length module_heap) with 14%nat in Hl.
      rewrite Fs by lia. now apply Hpre.
    + intros idx m Hm. rewrite Hnil in Hm. discriminate Hm.
  - 
    destruct (fock_chart_panels (fock_store labels) 15 20 24 25 dc dl d0 modes
                pd (map (mean_photon np_sum cutoff) pd) (VRef 14) WF RANGE Hne)
      as (h' & al & Hrun & Hanns & Hann & _ & Hframe & Hpanels).
    rewrite Hrun. exists (VRef 15), h'.
    split; [rewrite <- app_assoc, <- Epd; reflexivity|].
    split.
    { intros l Hl. change (length module_heap) with 14%nat in Hl.
      rewrite Hframe by lia. now apply Hpre. }
    intros idx m Hm.
    set (probs := np_real (np_diagonal (reduced_dm state (m mod k) cutoff))).
    assert (Hidx : (idx < length modes)%nat).
    { apply lookup_lt_Some in Hm. now rewrite sorted_length in Hm. }
    assert (Hin : In m modes).
    { apply in_sorted. eapply list_elem_of_In, list_elem_of_lookup_2. eauto. }
    pose proof (Hmodes m Hin) as Hmk.
    destruct (Hpanels idx Hidx)
      as (t & mk & ys & ax & dm & a & Ht & Htd & Hys & Hax & Haxd & _ & Ha & Had).
    pose proof (mode_at_lookup modes idx m Hm) as Hmode.
    assert (Hrow : py_index pd m = Some probs).
    { unfold pd. now rewrite py_index_over_range. }
    assert (Hrowat : row_at modes pd idx = probs)
      by (unfold row_at; now rewrite Hmode, Hrow).
    assert (Hmeanat : mean_at modes (map (mean_photon np_sum cutoff) pd) idx
                      = mean_photon np_sum cutoff probs).
    { unfold mean_at. rewrite Hmode, py_index_map, Hrow. reflexivity. }
    exists (VRef 14), (VRef ys).
    split.
    { apply (at_path_app h' (VRef 15) [KStr "data"; KIdx (Z.of_nat idx)]
               (VRef t) [KStr "x"]); [exact Ht|].
      eapply at_path_str; [exact Htd|reflexivity|apply at_path_nil]. }
    split.
    { exists 14%nat. split; [reflexivity|].
      rewrite Hframe by lia. exact Hlab. }
    split.
    { apply (at_path_app h' (VRef 15) [KStr "data"; KIdx (Z.of_nat idx)]
               (VRef t) [KStr "y"]); [exact Ht|].
      eapply at_path_str; [exact Htd|reflexivity|apply at_path_nil]. }
    split. { exists ys. rewrite <- Hrowat. auto. }
    split.
    { apply np_diagonal_length, SQ.
      pose proof (Z.mod_pos_bound m k). lia. }
    split.
    { apply (at_path_app h' (VRef 15) [KStr "layout"; KStr (axname idx)]
               (VRef ax) [KStr "title"]); [exact Hax|].
      eapply at_path_str; [exact Haxd| |apply at_path_nil].
      unfold axis_dict. rewrite Hmode. reflexivity. }
    apply (at_path_app h' (VRef 15) [KStr "layout"; KStr "annotations"]
             (VRef 24) [KIdx (Z.of_nat idx); KStr "text"]); [exact Hanns|].
    eapply at_path_idx; [exact Hann|rewrite lookup_map, Ha; reflexivity|].
    eapply at_path_str; [exact Had| |apply at_path_nil].
    rewrite ann_dict_text. unfold caption. now rewrite Hmeanat.
Qed.

(** X11: without plotly neither plotting function gets anywhere: both
    raise the [TypeError] of [_get_plotly] before the renderer is set and
    before anything is printed or written to the store. *)
Theorem plot_without_plotly (state : BaseState) :
  let type_error := Raised {| exc_class := "TypeError";
                              exc_message := "exceptions must derive from BaseException" |} in
  (forall mode xvec pvec renderer contours w,
     plot_wigner false state mode xvec pvec renderer contours w
       = (inl type_error, w)) /\
  (forall np_sum modes cutoff renderer w,
     plot_fock false state np_sum modes cutoff renderer w
       = (inl type_error, w)).
Proof. split; reflexivity. Qed.

(** X12: with plotly there, plot_wigner sets the renderer ("browser"
    unless given), then shows one chart and returns: the chart that
    generate_wigner_chart builds from [state.wigner(mode, xvec, pvec)], the
    two vectors and the contour flag ([True] unless given); the store is
    not written. *)
Theorem plot_wigner_shows (state : BaseState) (mode : Z) (xvec pvec : list Q)
    (renderer : option string) (contours : option bool)
    (h : heap) (log : list (event tree)) :
  exists chart,
    plot_wigner true state mode xvec pvec renderer contours (h, log)
      = (inr tt, (h, log ++ [SetRenderer (default "browser" renderer);
                             Shown chart])) /\
    generate_wigner_chart (wigner state mode xvec pvec) xvec pvec
      (default true contours) = Ok chart /\
    tree_at chart [KStr "data"; KIdx 0; KStr "x"] = Ok (TList (map TFloat xvec)) /\
    tree_at chart [KStr "data"; KIdx 0; KStr "y"] = Ok (TList (map TFloat pvec)) /\
    tree_at chart [KStr "data"; KIdx 0; KStr "z"]
      = Ok (TList (map (fun row => TList (map TFloat row))
                       (wigner state mode xvec pvec))) /\
    tree_at chart [KStr "data"; KIdx 0; KStr "contours"; KStr "z"; KStr "show"]
      = Ok (TBool (default true contours)).
Proof.
  unfold plot_wigner. cbv zeta. unfold get_plotly.
  cbn [_get_plotly import_plotly_io].
  destruct (generate_wigner_chart (wigner state mode xvec pvec) xvec pvec
              (default true contours)) as [chart|e] eqn:Hr;
    cbn in Hr; [|discriminate].
  exists chart. split; [|split; [reflexivity|]].
  - unfold io_bind, io_ret, emit, of_result. cbn [fst snd].
    rewrite <- app_assoc. reflexivity.
  - injection Hr as <-. repeat split; reflexivity.
Qed.

(** ** The example of the specification *)

Lemma example_wf :
  wf_template example_store 13 10 9 8 (items_at example_store 13)
    (items_at example_store 10) (items_at example_store 8).
Proof. constructor; try reflexivity; lia. Defined.

Lemma example_in_range : modes_in_range [0; 1] example_dists example_means.
Proof.
  intros m [<-|[<-|[]]]; split; discriminate.
Defined.

(** C2 at the example: the second of two panels has the domain [0.51, 1]. *)
Lemma fock_panel_domain_witness :
  wf_template example_store 13 10 9 8 (items_at example_store 13)
    (items_at example_store 10) (items_at example_store 8) /\
  modes_in_range [0; 1] example_dists example_means /\
  (1 < length [0; 1])%nat /\
  exists h' dom,
    generate_fock_chart (VRef 13) [0; 1] example_dists example_means
      example_labels example_store = (Ok (VRef 13), h') /\
    at_path h' (VRef 13) [KStr "layout"; KStr "xaxis2"; KStr "domain"] dom /\
    list_at h' dom [VFloat (2296835809958953 # 4503599627370496); VFloat 1].
Proof.
  split; [exact example_wf|]. split; [exact example_in_range|].
  split; [cbn; lia|].
  destruct (fock_panel_domain example_store 13 10 9 8
              (items_at example_store 13) (items_at example_store 10)
              (items_at example_store 8) [0; 1] example_dists example_means
              example_labels 1 example_wf example_in_range ltac:(cbn; lia))
    as (h' & dom & lo & hi & Hrun & Hpath & Hlist & -> & -> & _).
  exists h', dom. split; [exact Hrun|]. split; [exact Hpath|].
  assert (E1 : panel_lo [0; 1] 1 = (2296835809958953 # 4503599627370496)%Q)
    by (vm_compute; reflexivity).
  assert (E2 : panel_hi [0; 1] 1 = 1%Q) by (vm_compute; reflexivity).
  rewrite E1, E2 in Hlist. exact Hlist.
Defined.

(** C4 at the example, the modes given as [1, 0]: the second panel shows
    mode 1. *)
Lemma fock_trace_by_mode_witness :
  wf_template example_store 13 10 9 8 (items_at example_store 13)
    (items_at example_store 10) (items_at example_store 8) /\
  modes_in_range [1; 0] example_dists example_means /\
  sorted [1; 0] !! 1%nat = Some 1 /\
  exists h' ys,
    generate_fock_chart (VRef 13) [1; 0] example_dists example_means
      example_labels example_store = (Ok (VRef 13), h') /\
    at_path h' (VRef 13) [KStr "data"; KIdx 1; KStr "y"] ys /\
    list_at h' ys [VFloat (9 # 10); VFloat (8 # 100); VFloat (2 # 100)] /\
    at_path h' (VRef 13) [KStr "layout"; KStr "xaxis2"; KStr "title"]
      (VStr "mode 1") /\
    at_path h' (VRef 13)
      [KStr "layout"; KStr "annotations"; KIdx 1; KStr "text"]
      (VStr "Mean: 0.120").
Proof.
  assert (R : modes_in_range [1; 0] example_dists example_means).
  { intros m [<-|[<-|[]]]; split; discriminate. }
  split; [exact example_wf|]. split; [exact R|].
  split; [reflexivity|].
  destruct (fock_trace_by_mode example_store 13 10 9 8
              (items_at example_store 13) (items_at example_store 10)
              (items_at example_store 8) [1; 0] example_dists example_means
              example_labels 1 1 example_wf R eq_refl)
    as (h' & row & mu & ys & Hrun & Hrow & Hmu & _ & Hy & Hys & _ & Ht & Hc).
  injection Hrow as <-. injection Hmu as <-.
  exists h', ys. repeat split; assumption.
Defined.

(** C5 at the example: two annotations, the second captioned with the mean
    of mode 1. *)
Lemma fock_annotation_chain_witness :
  wf_template example_store 13 10 9 8 (items_at example_store 13)
    (items_at example_store 10) (items_at example_store 8) /\
  modes_in_range [0; 1] example_dists example_means /\
  sorted [0; 1] !! 1%nat = Some 1 /\
  exists h' anns al a prev,
    generate_fock_chart (VRef 13) [0; 1] example_dists example_means
      example_labels example_store = (Ok (VRef 13), h') /\
    at_path h' (VRef 13) [KStr "layout"; KStr "annotations"] anns /\
    list_at h' anns (map VRef al) /\
    length al = 2%nat /\
    al !! 1%nat = Some a /\
    h' !! a = Some (ODict (dict_set "x"
                            (VFloat (3422735716801577 # 4503599627370496))
                            (dict_set "text" (VStr "Mean: 0.120") prev))).
Proof.
  split; [exact example_wf|]. split; [exact example_in_range|].
  split; [reflexivity|].
  destruct (fock_annotation_chain example_store 13 10 9 8
              (items_at example_store 13) (items_at example_store 10)
              (items_at example_store 8) [0; 1] example_dists example_means
              example_labels 1 1 example_wf example_in_range eq_refl)
    as (h' & anns & al & a & mu & text & x & prev & Hrun & Hp & Hl & Hlen & Ha
        & Hmu & Hd & -> & _ & -> & _).
  injection Hmu as <-.
  exists h', anns, al, a, prev.
  repeat (split; [assumption|]).
  assert (E : ann_x [0; 1] 1 = (3422735716801577 # 4503599627370496)%Q)
    by (vm_compute; reflexivity).
  rewrite E in Hd. exact Hd.
Defined.

(** C10 at the example store: no panel, the seed annotation as it was. *)
Lemma fock_chart_no_modes_witness :
  wf_template example_store 13 10 9 8 (items_at example_store 13)
    (items_at example_store 10) (items_at example_store 8) /\
  dict_get "xaxis" (items_at example_store 10) = Some (VRef 6) /\
  example_store !! 6%nat = Some (ODict (items_at example_store 6)) /\
  6%nat <> 13%nat /\ 6%nat <> 10%nat /\ 6%nat <> 8%nat /\
  exists h' data,
    generate_fock_chart (VRef 13) [] example_dists example_means
      example_labels example_store = (Ok (VRef 13), h') /\
    h' !! 13%nat = Some (ODict (dict_set "data" (VRef data)
                                  (items_at example_store 13))) /\
    h' !! data = Some (OList []) /\
    h' !! 9%nat = Some (OList [VRef 8]) /\
    h' !! 8%nat = Some (ODict (items_at example_store 8)).
Proof.
  split; [exact example_wf|].
  split; [reflexivity|]. split; [reflexivity|].
  split; [lia|]. split; [lia|]. split; [lia|].
  destruct (fock_chart_no_modes example_store 13 10 9 8 6
              (items_at example_store 13) (items_at example_store 10)
              (items_at example_store 8) (items_at example_store 6)
              example_dists example_means example_labels
              example_wf eq_refl eq_refl ltac:(lia) ltac:(lia) ltac:(lia))
    as (h' & data & font & Hrun & Hc & _ & Hd & _ & Hann & Ha0 & _).
  exists h', data. repeat split; assumption.
Defined.

(** C1 at the example: plot_fock's chart is a new object and
    [barchartDefault] reads as before. *)
Lemma plot_fock_keeps_default_witness :
  modes_in_range [0; 1] example_dists example_means /\
  exists cp h',
    plot_fock_chart [0; 1] example_dists example_means example_labels
      module_heap = (Ok (VRef cp), h') /\
    VRef cp <> barchartDefault /\
    reify 10 h' barchartDefault = reify 10 module_heap barchartDefault.
Proof.
  split; [exact example_in_range|].
  destruct (plot_fock_keeps_default [0; 1] example_dists example_means
              example_labels example_in_range)
    as (_ & cp & h1 & h' & _ & _ & Hrun & Hne & _ & _ & Hreify).
  exists cp, h'. repeat split; assumption.
Defined.

(** C3 at the modes [2, 0, 1] and [0, 1, 2]. *)
Lemma fock_modes_order_irrelevant_witness :
  wf_template example_store 13 10 9 8 (items_at example_store 13)
    (items_at example_store 10) (items_at example_store 8) /\
  modes_in_range [2; 0; 1] [[1]; [1]; [1]]%Q [0; 0; 0]%Q /\
  [2; 0; 1] <> [] /\
  Permutation [2; 0; 1] [0; 1; 2] /\
  generate_fock_chart (VRef 13) [2; 0; 1] [[1]; [1]; [1]]%Q [0; 0; 0]%Q
    example_labels example_store
  = generate_fock_chart (VRef 13) [0; 1; 2] [[1]; [1]; [1]]%Q [0; 0; 0]%Q
      example_labels example_store.
Proof.
  assert (P : Permutation [2; 0; 1] [0; 1; 2]).
  { apply (perm_trans (l' := [0; 2; 1])); [apply perm_swap|].
    apply perm_skip, perm_swap. }
  assert (R : modes_in_range [2; 0; 1] [[1]; [1]; [1]]%Q [0; 0; 0]%Q).
  { intros m [<-|[<-|[<-|[]]]]; split; discriminate. }
  assert (N : [2; 0; 1] <> []) by discriminate.
  split; [exact example_wf|]. split; [exact R|]. split; [exact N|].
  split; [exact P|].
  exact (proj1 (fock_modes_order_irrelevant example_store 13 10 9 8
                  (items_at example_store 13) (items_at example_store 10)
                  (items_at example_store 8) [2; 0; 1] [0; 1; 2]
                  [[1]; [1]; [1]]%Q [0; 0; 0]%Q example_labels
                  example_wf R N P) (VRef 13) example_store).
Defined.

(** C8 at the example with the modes [0, 2]: there is no mode 2. *)
Lemma shape_errors_witness :
  wf_template example_store 13 10 9 8 (items_at example_store 13)
    (items_at example_store 10) (items_at example_store 8) /\
  In 2 [0; 2] /\
  ((2 < - Z.of_nat (length example_dists) \/
    Z.of_nat (length example_dists) <= 2) \/
   (2 < - Z.of_nat (length example_means) \/
    Z.of_nat (length example_means) <= 2)) /\
  exists h', generate_fock_chart (VRef 13) [0; 2] example_dists example_means
               example_labels example_store = (Raise IndexError, h').
Proof.
  assert (Hin : In 2 [0; 2]) by (right; left; reflexivity).
  assert (Hbad : (2 < - Z.of_nat (length example_dists) \/
                  Z.of_nat (length example_dists) <= 2) \/
                 (2 < - Z.of_nat (length example_means) \/
                  Z.of_nat (length example_means) <= 2)).
  { left. right. cbn. lia. }
  split; [exact example_wf|]. split; [exact Hin|]. split; [exact Hbad|].
  exact (proj1 (shape_errors example_store 13 10 9 8
                  (items_at example_store 13) (items_at example_store 10)
                  (items_at example_store 8) [0; 2] example_dists example_means
                  example_labels 2 example_wf Hin Hbad)).
Defined.

(** ** The further properties at the example *)

Lemma example_modes_nonempty : [0; 1] <> ([] : list Z).
Proof. discriminate. Defined.

(** X3 at the example: two traces. *)
Lemma fock_trace_fields_witness :
  wf_template example_store 13 10 9 8 (items_at example_store 13)
    (items_at example_store 10) (items_at example_store 8) /\
  modes_in_range [0; 1] example_dists example_means /\
  [0; 1] <> ([] : list Z) /\
  exists h' data ts,
    generate_fock_chart (VRef 13) [0; 1] example_dists example_means
      example_labels example_store = (Ok (VRef 13), h') /\
    at_path h' (VRef 13) [KStr "data"] data /\
    list_at h' data (map VRef ts) /\
    length ts = 2%nat /\
    NoDup ts.
Proof.
  split; [exact example_wf|]. split; [exact example_in_range|].
  split; [exact example_modes_nonempty|].
  destruct (fock_trace_fields example_store 13 10 9 8
              (items_at example_store 13) (items_at example_store 10)
              (items_at example_store 8) [0; 1] example_dists example_means
              example_labels example_wf example_in_range
              example_modes_nonempty)
    as (h' & data & ts & Hrun & Hp & Hl & Hlen & Hnd & _).
  exists h', data, ts. auto.
Defined.

(** X4 at the example: the second axis is reached under ['xaxis2']. *)
Lemma fock_axis_fields_witness :
  wf_template example_store 13 10 9 8 (items_at example_store 13)
    (items_at example_store 10) (items_at example_store 8) /\
  modes_in_range [0; 1] example_dists example_means /\
  [0; 1] <> ([] : list Z) /\
  exists h' ax dom title,
    generate_fock_chart (VRef 13) [0; 1] example_dists example_means
      example_labels example_store = (Ok (VRef 13), h') /\
    at_path h' (VRef 13) [KStr "layout"; KStr "xaxis2"] (VRef ax) /\
    h' !! ax = Some (ODict [("type", VStr "category"); ("domain", dom);
                            ("title", VStr title);
                            ("fixedrange", VBool true);
                            ("gridcolor", VStr "rgba(0,0,0,0)")]).
Proof.
  split; [exact example_wf|]. split; [exact example_in_range|].
  split; [exact example_modes_nonempty|].
  destruct (fock_axis_fields example_store 13 10 9 8
              (items_at example_store 13) (items_at example_store 10)
              (items_at example_store 8) [0; 1] example_dists example_means
              example_labels example_wf example_in_range
              example_modes_nonempty)
    as (h' & Hrun & Hax & _).
  destruct (Hax 1%nat ltac:(cbn; lia)) as (ax & dom & title & Hp & _ & Hd).
  exists h', ax, dom, title. auto.
Defined.

(** X5 at the example: the title of the layout. *)
Lemma fock_layout_frame_witness :
  wf_template example_store 13 10 9 8 (items_at example_store 13)
    (items_at example_store 10) (items_at example_store 8) /\
  modes_in_range [0; 1] example_dists example_means /\
  [0; 1] <> ([] : list Z) /\
  exists h' dl',
    generate_fock_chart (VRef 13) [0; 1] example_dists example_means
      example_labels example_store = (Ok (VRef 13), h') /\
    h' !! 10%nat = Some (ODict dl') /\
    dict_get "title" dl' = Some (VStr "Marginal Fock state probabilities") /\
    dict_get "showlegend" dl' = Some (VBool false).
Proof.
  split; [exact example_wf|]. split; [exact example_in_range|].
  split; [exact example_modes_nonempty|].
  destruct (fock_layout_frame example_store 13 10 9 8
              (items_at example_store 13) (items_at example_store 10)
              (items_at example_store 8) [0; 1] example_dists example_means
              example_labels example_wf example_in_range
              example_modes_nonempty)
    as (h' & data & dl' & font & Hrun & _ & Hlay & Htitle & _ & _ & Hrest & _).
  exists h', dl'. split; [exact Hrun|]. split; [exact Hlay|].
  split; [exact Htitle|].
  rewrite (Hrest "showlegend").
  - reflexivity.
  - intros j Hj. destruct j as [|[|j]]; [discriminate|discriminate|].
    cbn in Hj. lia.
  - discriminate.
  - discriminate.
Defined.

(** X6 at the example: two annotations, the seed first. *)
Lemma fock_annotations_share_witness :
  wf_template example_store 13 10 9 8 (items_at example_store 13)
    (items_at example_store 10) (items_at example_store 8) /\
  modes_in_range [0; 1] example_dists example_means /\
  [0; 1] <> ([] : list Z) /\
  exists h' al,
    generate_fock_chart (VRef 13) [0; 1] example_dists example_means
      example_labels example_store = (Ok (VRef 13), h') /\
    h' !! 9%nat = Some (OList (map VRef al)) /\
    length al = 2%nat /\
    al !! 0%nat = Some 8%nat.
Proof.
  split; [exact example_wf|]. split; [exact example_in_range|].
  split; [exact example_modes_nonempty|].
  destruct (fock_annotations_share example_store 13 10 9 8
              (items_at example_store 13) (items_at example_store 10)
              (items_at example_store 8) [0; 1] example_dists example_means
              example_labels example_wf example_in_range
              example_modes_nonempty)
    as (h' & al & Hrun & _ & Hann & Hlen & H0 & _).
  exists h', al. auto.
Defined.

(** X7 at the example: the second of two panels is not empty and holds its
    caption. *)
Lemma fock_panel_width_witness :
  wf_template example_store 13 10 9 8 (items_at example_store 13)
    (items_at example_store 10) (items_at example_store 8) /\
  modes_in_range [0; 1] example_dists example_means /\
  (1 < length [0; 1])%nat /\
  exists h' dom lo hi x,
    generate_fock_chart (VRef 13) [0; 1] example_dists example_means
      example_labels example_store = (Ok (VRef 13), h') /\
    at_path h' (VRef 13) [KStr "layout"; KStr "xaxis2"; KStr "domain"] dom /\
    list_at h' dom [VFloat lo; VFloat hi] /\
    at_path h' (VRef 13)
      [KStr "layout"; KStr "annotations"; KIdx 1; KStr "x"] (VFloat x) /\
    (lo < x)%Q /\ (x < hi)%Q.
Proof.
  assert (Hidx : (1 < length [0; 1])%nat) by (cbn; lia).
  split; [exact example_wf|]. split; [exact example_in_range|].
  split; [exact Hidx|].
  destruct (fock_panel_width example_store 13 10 9 8
              (items_at example_store 13) (items_at example_store 10)
              (items_at example_store 8) [0; 1] example_dists example_means
              example_labels 1 example_wf example_in_range Hidx)
    as (h' & dom & lo & hi & x & Hrun & Hp & Hl & Hx & _ & _ & Hin & _).
  destruct (Hin ltac:(cbn; lia)) as [H1 H2].
  exists h', dom, lo, hi, x. auto 10.
Defined.

(** X8 at a chart with an empty annotation list. *)
Lemma fock_chart_needs_seed_witness :
  let h0 := [ODict [("layout", VRef 1)]; ODict [("annotations", VRef 2)];
             OList []] in
  h0 !! 0%nat = Some (ODict [("layout", VRef 1)]) /\
  dict_get "layout" [("layout", VRef 1)] = Some (VRef 1) /\
  h0 !! 1%nat = Some (ODict [("annotations", VRef 2)]) /\
  dict_get "annotations" [("annotations", VRef 2)] = Some (VRef 2) /\
  h0 !! 2%nat = Some (OList []) /\
  0%nat <> 1%nat /\
  [0] <> ([] : list Z) /\
  exists h',
    generate_fock_chart (VRef 0) [0] [[1%Q]] [0%Q] VNone h0
      = (Raise IndexError, h').
Proof.
  intros h0.
  assert (N1 : 0%nat <> 1%nat) by discriminate.
  assert (N2 : [0] <> ([] : list Z)) by discriminate.
  do 5 (split; [reflexivity|]).
  split; [exact N1|]. split; [exact N2|].
  destruct (fock_chart_needs_seed h0 0 1 2 [("layout", VRef 1)]
              [("annotations", VRef 2)] [0] [[1%Q]] [0%Q] VNone
              eq_refl eq_refl eq_refl eq_refl eq_refl N1 N2)
    as (h' & data & Hrun & _).
  exists h'. exact Hrun.
Defined.

(** X9 at a chart whose layout is empty. *)
Lemma fock_chart_no_modes_no_xaxis_witness :
  let h0 := [ODict [("layout", VRef 1)]; ODict []] in
  h0 !! 0%nat = Some (ODict [("layout", VRef 1)]) /\
  dict_get "layout" [("layout", VRef 1)] = Some (VRef 1) /\
  h0 !! 1%nat = Some (ODict []) /\
  0%nat <> 1%nat /\
  dict_get "xaxis" ([] : list (string * value)) = None /\
  exists h',
    generate_fock_chart (VRef 0) [] [] [] VNone h0 = (Raise KeyError, h').
Proof.
  intros h0.
  assert (N1 : 0%nat <> 1%nat) by discriminate.
  do 3 (split; [reflexivity|]).
  split; [exact N1|]. split; [reflexivity|].
  destruct (fock_chart_no_modes_no_xaxis h0 0 1 [("layout", VRef 1)] []
              [] [] VNone eq_refl eq_refl eq_refl N1 eq_refl)
    as (h' & data & Hrun & _).
  exists h'. exact Hrun.
Defined.

(** X10 at the example with the modes [0, 2]: the first panel is there when
    the second raises. *)
Lemma fock_chart_failure_partial_witness :
  wf_template example_store 13 10 9 8 (items_at example_store 13)
    (items_at example_store 10) (items_at example_store 8) /\
  sorted [0; 2] !! 1%nat = Some 2 /\
  (py_index example_dists 2 = None \/ py_index example_means 2 = None) /\
  (forall i m', (i < 1)%nat -> sorted [0; 2] !! i = Some m' ->
     py_index example_dists m' <> None /\ py_index example_means m' <> None) /\
  exists h' ax,
    generate_fock_chart (VRef 13) [0; 2] example_dists example_means
      example_labels example_store = (Raise IndexError, h') /\
    at_path h' (VRef 13) [KStr "layout"; KStr "xaxis"] (VRef ax) /\
    (length example_store <= ax)%nat.
Proof.
  assert (Hj : sorted [0; 2] !! 1%nat = Some 2) by reflexivity.
  assert (Hbad : py_index example_dists 2 = None \/
                 py_index example_means 2 = None) by (left; reflexivity).
  assert (Hgood : forall i m', (i < 1)%nat -> sorted [0; 2] !! i = Some m' ->
            py_index example_dists m' <> None /\
            py_index example_means m' <> None).
  { intros i m' Hi Hm. destruct i as [|i]; [|lia].
    injection Hm as <-. split; discriminate. }
  split; [exact example_wf|]. split; [exact Hj|]. split; [exact Hbad|].
  split; [exact Hgood|].
  destruct (fock_chart_failure_partial example_store 13 10 9 8
              (items_at example_store 13) (items_at example_store 10)
              (items_at example_store 8) [0; 2] example_dists example_means
              example_labels 1 2 example_wf Hj Hbad Hgood)
    as (h' & data & ts & al & Hrun & _ & _ & _ & _ & _ & _ & Hdone & _).
  destruct (Hdone 0%nat ltac:(lia))
    as (t & mk & ys & ax & a & _ & _ & Hax & Hfresh & _).
  exists h', ax. auto.
Defined.

Lemma example_state_square (i cutoff : Z) :
  square (Z.to_nat cutoff) (reduced_dm example_state i cutoff).
Proof.
  split.
  - cbn. now rewrite length_map, length_seq.
  - cbn. apply Forall_forall. intros row Hrow%list_elem_of_In.
    apply in_map_iff in Hrow as (j & <- & _).
    now rewrite length_map, length_seq.
Defined.

(** X13 at the vacuum state and the modes [1]: the one distribution that
    is computed is that of mode 0. *)
Lemma plot_fock_mode_range_witness :
  (forall i, 0 <= i < Z.of_nat (length [1]) ->
     square (Z.to_nat 2) (reduced_dm example_state i 2)) /\
  In 1 [1] /\
  (1 < - Z.of_nat (length [1]) \/ Z.of_nat (length [1]) <= 1) /\
  exists h' log,
    plot_fock true example_state example_np_sum [1] None None
      (module_heap, []) = (inl (Exn IndexError), (h', log)) /\
    length log = 3%nat.
Proof.
  assert (SQ : forall i, 0 <= i < Z.of_nat (length [1]) ->
            square (Z.to_nat 2) (reduced_dm example_state i 2))
    by (intros i _; apply example_state_square).
  assert (Hin : In 1 [1]) by (left; reflexivity).
  assert (Hm : 1 < - Z.of_nat (length [1]) \/ Z.of_nat (length [1]) <= 1)
    by (right; cbn; lia).
  split; [exact SQ|]. split; [exact Hin|]. split; [exact Hm|].
  destruct (plot_fock_mode_range example_state example_np_sum [1] None None
              [] 1 SQ Hin Hm) as (h' & Hrun & _).
  eexists h', _. split; [exact Hrun|reflexivity].
Defined.

(** X14 at the vacuum state and the modes [0]: one chart is shown. *)
Lemma plot_fock_shows_witness :
  (forall i, 0 <= i < Z.of_nat (length [0]) ->
     square (Z.to_nat 2) (reduced_dm example_state i 2)) /\
  (forall m, In m [0] ->
     - Z.of_nat (length [0]) <= m < Z.of_nat (length [0])) /\
  exists chart h' ys,
    plot_fock true example_state example_np_sum [0] None None
      (module_heap, [])
    = (inr tt,
       (h', [SetRenderer "browser";
             Printed (PRho [[[(1, 0); (0, 0)]; [(0, 0); (0, 0)]]]%Q);
             Printed (PDists [[1; 0]]%Q);
             Shown chart])) /\
    at_path h' chart [KStr "data"; KIdx 0; KStr "y"] ys /\
    list_at h' ys [VFloat 1; VFloat 0] /\
    at_path h' chart [KStr "layout"; KStr "annotations"; KIdx 0; KStr "text"]
      (VStr "Mean: 0.000").
Proof.
  assert (SQ : forall i, 0 <= i < Z.of_nat (length [0]) ->
            square (Z.to_nat 2) (reduced_dm example_state i 2))
    by (intros i _; apply example_state_square).
  assert (Hm : forall m, In m [0] ->
            - Z.of_nat (length [0]) <= m < Z.of_nat (length [0])).
  { intros m [<-|[]]. cbn. lia. }
  split; [exact SQ|]. split; [exact Hm|].
  destruct (plot_fock_shows example_state example_np_sum [0] None None []
              SQ Hm) as (chart & h' & Hrun & _ & Hpanels).
  destruct (Hpanels 0%nat 0 eq_refl)
    as (xs & ys & _ & _ & Hy & Hys & _ & _ & Htext).
  exists chart, h', ys.
  split; [exact Hrun|]. split; [exact Hy|]. split; [exact Hys|exact Htext].
Defined.
